(** * DeepChat protocol gateway: model router, stop-reason tables,
      stream encoders, request handlers and the slash-command session loop.

    Sources embedded here:
    - [src/main/presenter/anthropicApiPresenter/index.ts]
      (dispatcher and request handlers; the same file also carries the
      message converter with [mapClaudeModel]),
    - [src/main/presenter/anthropicApiPresenter/responseConverter.ts],
    - [src/main/presenter/anthropicApiPresenter/openaiResponseBuilder.ts],
    - [src/main/presenter/anthropicApiPresenter/openaiConverter.ts],
    - [src/main/presenter/llmProviderPresenter/index.ts]
      (session loop and registry of active streams),
    - [src/renderer/src/stores/slashCommands.ts].

    Conventions.  A JavaScript string is a [string]: a sequence of code
    units, here the 8-bit ones.  [undefined] and [null] are [None].  Values
    the runtime draws at random or from the clock (message ids, event ids,
    creation time) are arguments of the functions that use them. *)

From Stdlib Require Import String Ascii List Bool Arith NArith Lia DecimalString.
From Stdlib Require DecimalN DecimalFacts.
Import ListNotations.
Open Scope string_scope.
Set Warnings "-register-all".

(* ------------------------------------------------------------------ *)
(** ** JavaScript strings *)

Module JS.

(** Truthiness of a string: every string but the empty one. *)
Definition truthy (s : string) : bool := negb (s =? "").

(** Truthiness of [string | undefined]. *)
Definition truthy_opt (o : option string) : bool :=
  match o with
  | Some s => truthy s
  | None => false
  end.

(** [s.includes(c)] for a one-character needle. *)
Fixpoint includes (c : ascii) (s : string) : bool :=
  match s with
  | EmptyString => false
  | String a r => Ascii.eqb a c || includes c r
  end.

(** [s.split(c)]: every segment between occurrences of [c]; never empty. *)
Fixpoint split (c : ascii) (s : string) : list string :=
  match s with
  | EmptyString => [EmptyString]
  | String a r =>
      if Ascii.eqb a c then EmptyString :: split c r
      else match split c r with
           | seg :: segs => String a seg :: segs
           | [] => [String a EmptyString]
           end
  end.

(** [s.split(c, limit)]: the array of [split] cut to its first [limit]
    entries; what follows them is dropped. *)
Definition split_limit (c : ascii) (limit : nat) (s : string) : list string :=
  firstn limit (split c s).

(** WhiteSpace and LineTerminator code units: TAB, LF, VT, FF, CR, SP, NBSP. *)
Definition is_space (a : ascii) : bool :=
  existsb (N.eqb (N_of_ascii a)) [9; 10; 11; 12; 13; 32; 160]%N.

Fixpoint trimStart (s : string) : string :=
  match s with
  | EmptyString => EmptyString
  | String a r => if is_space a then trimStart r else s
  end.

Fixpoint trimEnd (s : string) : string :=
  match s with
  | EmptyString => EmptyString
  | String a r =>
      let r' := trimEnd r in
      if is_space a && (r' =? "") then EmptyString else String a r'
  end.

Definition trim (s : string) : string := trimEnd (trimStart s).

(** Membership in a list of string literals (a [switch] with shared arms). *)
Definition one_of (s : string) (l : list string) : bool :=
  existsb (String.eqb s) l.

(** Names every object inherits from [Object.prototype]. *)
Definition objectPrototypeKeys : list string :=
  [ "constructor"; "__defineGetter__"; "__defineSetter__"; "hasOwnProperty";
    "__lookupGetter__"; "__lookupSetter__"; "isPrototypeOf";
    "propertyIsEnumerable"; "toString"; "valueOf"; "__proto__";
    "toLocaleString" ].

End JS.

(* ------------------------------------------------------------------ *)
(** ** [JSON.parse]: which texts it accepts

    [JSON.parse] belongs to the runtime.  The encoders only observe whether
    it throws, so it is embedded as a recogniser of the JSON grammar
    (ECMA-404): a pushdown automaton reading one code unit at a time. *)

Module JSON.

Inductive Container := InObject | InArray.

Inductive Mode :=
| Value                      (* a value has to start *)
| ArrayStart                 (* after '[': a value or ']' *)
| ObjectStart                (* after '{': a key or '}' *)
| Key                        (* after ',' in an object *)
| Colon                      (* after a key *)
| After                      (* after a complete value *)
| Str (isKey : bool)         (* inside a string *)
| Esc (isKey : bool)         (* after a backslash *)
| Hex (isKey : bool) (n : nat) (* [S n] hex digits of \u still to come *)
| Minus | Zero | Int | Dot | Frac | Exp | ExpSign | ExpDigits
| Literal (rest : string).   (* what is left of true, false or null *)

Definition State : Type := Mode * list Container.

Definition code (a : ascii) : N := N_of_ascii a.

Definition is_ws (a : ascii) : bool :=
  existsb (N.eqb (code a)) [9; 10; 13; 32]%N.

Definition is_digit (a : ascii) : bool :=
  (48 <=? code a)%N && (code a <=? 57)%N.

Definition is_digit19 (a : ascii) : bool :=
  (49 <=? code a)%N && (code a <=? 57)%N.

Definition is_hex (a : ascii) : bool :=
  is_digit a
  || ((65 <=? code a)%N && (code a <=? 70)%N)
  || ((97 <=? code a)%N && (code a <=? 102)%N).

(** The double quote, code unit 34. *)
Definition dquote : ascii := ascii_of_nat 34.
Definition dq : string := String dquote EmptyString.

Definition is_char (a : ascii) (s : string) : bool :=
  match s with
  | String b EmptyString => Ascii.eqb a b
  | _ => false
  end.

(** A code unit read once a value is complete. *)
Definition step_after (stack : list Container) (a : ascii) : option State :=
  if is_ws a then Some (After, stack)
  else if is_char a "," then
    match stack with
    | InArray :: _ => Some (Value, stack)
    | InObject :: _ => Some (Key, stack)
    | [] => None
    end
  else if is_char a "]" then
    match stack with
    | InArray :: rest => Some (After, rest)
    | _ => None
    end
  else if is_char a "}" then
    match stack with
    | InObject :: rest => Some (After, rest)
    | _ => None
    end
  else None.

(** A code unit read where a value has to start. *)
Definition step_value (stack : list Container) (a : ascii) : option State :=
  if is_char a "{" then Some (ObjectStart, InObject :: stack)
  else if is_char a "[" then Some (ArrayStart, InArray :: stack)
  else if is_char a dq then Some (Str false, stack)
  else if is_char a "-" then Some (Minus, stack)
  else if is_char a "0" then Some (Zero, stack)
  else if is_digit19 a then Some (Int, stack)
  else if is_char a "t" then Some (Literal "rue", stack)
  else if is_char a "f" then Some (Literal "alse", stack)
  else if is_char a "n" then Some (Literal "ull", stack)
  else None.

Definition step (st : State) (a : ascii) : option State :=
  let (mode, stack) := st in
  match mode with
  | Value => if is_ws a then Some (Value, stack) else step_value stack a
  | ArrayStart =>
      if is_ws a then Some (ArrayStart, stack)
      else if is_char a "]" then step_after stack a
      else step_value stack a
  | ObjectStart =>
      if is_ws a then Some (ObjectStart, stack)
      else if is_char a "}" then step_after stack a
      else if is_char a dq then Some (Str true, stack)
      else None
  | Key =>
      if is_ws a then Some (Key, stack)
      else if is_char a dq then Some (Str true, stack)
      else None
  | Colon =>
      if is_ws a then Some (Colon, stack)
      else if is_char a ":" then Some (Value, stack)
      else None
  | After => step_after stack a
  | Str k =>
      if is_char a dq then Some (if k then Colon else After, stack)
      else if is_char a "\" then Some (Esc k, stack)
      else if (code a <? 32)%N then None
      else Some (Str k, stack)
  | Esc k =>
      if is_char a "u" then Some (Hex k 3, stack)
      else if is_char a dq || existsb (is_char a) ["\"; "/"; "b"; "f"; "n"; "r"; "t"]
      then Some (Str k, stack)
      else None
  | Hex k n =>
      if is_hex a then
        match n with
        | O => Some (Str k, stack)
        | S n' => Some (Hex k n', stack)
        end
      else None
  | Minus =>
      if is_char a "0" then Some (Zero, stack)
      else if is_digit19 a then Some (Int, stack)
      else None
  | Zero =>
      if is_char a "." then Some (Dot, stack)
      else if is_char a "e" || is_char a "E" then Some (Exp, stack)
      else step_after stack a
  | Int =>
      if is_digit a then Some (Int, stack)
      else if is_char a "." then Some (Dot, stack)
      else if is_char a "e" || is_char a "E" then Some (Exp, stack)
      else step_after stack a
  | Dot => if is_digit a then Some (Frac, stack) else None
  | Frac =>
      if is_digit a then Some (Frac, stack)
      else if is_char a "e" || is_char a "E" then Some (Exp, stack)
      else step_after stack a
  | Exp =>
      if is_char a "+" || is_char a "-" then Some (ExpSign, stack)
      else if is_digit a then Some (ExpDigits, stack)
      else None
  | ExpSign => if is_digit a then Some (ExpDigits, stack) else None
  | ExpDigits =>
      if is_digit a then Some (ExpDigits, stack) else step_after stack a
  | Literal rest =>
      match rest with
      | String b rest' =>
          if Ascii.eqb a b
          then Some (match rest' with
                     | EmptyString => After
                     | _ => Literal rest'
                     end, stack)
          else None
      | EmptyString => None
      end
  end.

Fixpoint run (st : State) (s : string) : option State :=
  match s with
  | EmptyString => Some st
  | String a r =>
      match step st a with
      | Some st' => run st' r
      | None => None
      end
  end.

Definition accepting (st : State) : bool :=
  match st with
  | (After, []) | (Zero, []) | (Int, []) | (Frac, []) | (ExpDigits, []) => true
  | _ => false
  end.

(** [true] when [JSON.parse(text)] returns, [false] when it throws. *)
Definition parses (text : string) : bool :=
  match run (Value, []) text with
  | Some st => accepting st
  | None => false
  end.

End JSON.

(* ------------------------------------------------------------------ *)
(** ** Model router ([mapClaudeModel]) *)

(** What [mapClaudeModel] hands back when it is not [null]: a pair, or, when
    the table lookup [claudeModelMappings[model]] hits a name inherited from
    [Object.prototype], that inherited member. *)
Inductive ModelMapping :=
| Mapping (providerId modelId : string)
| Inherited (key : string).

Definition claudeModelMappings : list (string * (string * string)) :=
  [ ("claude-3-5-sonnet-20241022", ("anthropic", "claude-3-5-sonnet-20241022"));
    ("claude-3-5-haiku-20241022", ("anthropic", "claude-3-5-haiku-20241022"));
    ("claude-3-opus-20240229", ("anthropic", "claude-3-opus-20240229"));
    ("claude-3-sonnet-20240229", ("anthropic", "claude-3-sonnet-20240229"));
    ("claude-3-haiku-20240307", ("anthropic", "claude-3-haiku-20240307"));
    ("claude-sonnet-4-20250514", ("anthropic", "claude-sonnet-4-20250514"));
    ("claude-opus-4-20250514", ("anthropic", "claude-opus-4-20250514")) ].

Fixpoint assoc {A : Type} (k : string) (l : list (string * A)) : option A :=
  match l with
  | [] => None
  | (k', v) :: r => if k =? k' then Some v else assoc k r
  end.

(** [claudeModelMappings[model]]: own entries first, then the prototype. *)
Definition lookupMapping (model : string) : option ModelMapping :=
  match assoc model claudeModelMappings with
  | Some (p, m) => Some (Mapping p m)
  | None =>
      if JS.one_of model JS.objectPrototypeKeys then Some (Inherited model)
      else None
  end.

(** [const [providerId, modelId] = model.split(sep, 2)] followed by
    [if (providerId && modelId)]. *)
Definition splitPair (sep : ascii) (model : string) : option (string * string) :=
  match JS.split_limit sep 2 model with
  | providerId :: modelId :: _ =>
      if JS.truthy providerId && JS.truthy modelId
      then Some (providerId, modelId)
      else None
  | _ => None
  end.

Definition mapClaudeModel (model : string)
    (defaultProviderId defaultModelId : option string) : option ModelMapping :=
  match defaultProviderId, defaultModelId,
        JS.truthy_opt defaultProviderId && JS.truthy_opt defaultModelId with
  | Some p, Some m, true => Some (Mapping p m)
  | _, _, _ =>
    match (if JS.includes "/" model then splitPair "/" model else None) with
    | Some (providerId, modelId) => Some (Mapping providerId modelId)
    | None =>
      match (if JS.includes "," model then splitPair "," model else None) with
      | Some (providerId, modelId) =>
          Some (Mapping (JS.trim providerId) (JS.trim modelId))
      | None =>
        match lookupMapping model with
        | Some r => Some r
        | None =>
          match defaultProviderId with
          | Some p => if JS.truthy p then Some (Mapping p model) else None
          | None => None
          end
        end
      end
    end
  end.

(** The split the router's contract words describe: cut at the first
    occurrence of the separator, keeping everything after it. *)
Fixpoint spec_split_first (sep : ascii) (s : string) : option (string * string) :=
  match s with
  | EmptyString => None
  | String a r =>
      if Ascii.eqb a sep then Some (EmptyString, r)
      else match spec_split_first sep r with
           | Some (before, after) => Some (String a before, after)
           | None => None
           end
  end.

(** The id under which [handleListModels] advertises a model. *)
Definition listedModelId (providerId modelId : string) : string :=
  providerId ++ "/" ++ modelId.

(* ------------------------------------------------------------------ *)
(** ** Stop-reason tables *)

Inductive ClaudeStopReason := end_turn | max_tokens | stop_sequence | tool_use.

Inductive OpenAIFinishReason := finish_stop | finish_length | finish_tool_calls.

(** [mapStopReason]; [None] in the result is [null]. *)
Definition mapStopReason (reason : option string) : option ClaudeStopReason :=
  if negb (JS.truthy_opt reason) then None
  else
    match reason with
    | None => None
    | Some r =>
        if JS.one_of r ["complete"; "stop"; "end_turn"] then Some end_turn
        else if JS.one_of r ["max_tokens"; "length"] then Some max_tokens
        else if JS.one_of r ["tool_use"; "tool_calls"; "function_call"]
        then Some tool_use
        else if JS.one_of r ["stop_sequence"] then Some stop_sequence
        else Some end_turn
    end.

Definition mapToOpenAIFinishReason (reason : option string) (hasToolCalls : bool)
  : option OpenAIFinishReason :=
  if hasToolCalls then Some finish_tool_calls
  else if negb (JS.truthy_opt reason) then None
  else
    match reason with
    | None => None
    | Some r =>
        if JS.one_of r ["complete"; "stop"; "end_turn"] then Some finish_stop
        else if JS.one_of r ["max_tokens"; "length"] then Some finish_length
        else if JS.one_of r ["tool_use"; "tool_calls"; "function_call"]
        then Some finish_tool_calls
        else Some finish_stop
    end.

(* ------------------------------------------------------------------ *)
(** ** [JSON.stringify] on the objects the encoders build

    The encoders serialise object literals whose leaves are strings,
    non-negative integers (block indices, token counts, the creation time)
    and [null]. *)

Inductive json :=
| JNull
| JNum (n : N)
| JStr (s : string)
| JArr (items : list json)
| JObj (fields : list (string * json)).

Definition hexDigit (n : N) : ascii :=
  ascii_of_N (if (n <? 10)%N then 48 + n else 87 + n).

(** QuoteJSONString, one code unit. *)
Definition escapeChar (a : ascii) : string :=
  let c := N_of_ascii a in
  if (c =? 34)%N then "\" ++ JSON.dq
  else if (c =? 92)%N then "\\"
  else if (c =? 8)%N then "\b"
  else if (c =? 9)%N then "\t"
  else if (c =? 10)%N then "\n"
  else if (c =? 12)%N then "\f"
  else if (c =? 13)%N then "\r"
  else if (c <? 32)%N
       then "\u00" ++ String (hexDigit (c / 16)) (String (hexDigit (c mod 16)) "")
  else String a "".

Fixpoint escape (s : string) : string :=
  match s with
  | EmptyString => EmptyString
  | String a r => escapeChar a ++ escape r
  end.

Definition quote (s : string) : string := JSON.dq ++ escape s ++ JSON.dq.

Definition decimal (n : N) : string := NilZero.string_of_uint (N.to_uint n).

Fixpoint stringify (j : json) : string :=
  match j with
  | JNull => "null"
  | JNum n => decimal n
  | JStr s => quote s
  | JArr items =>
      "[" ++ (fix elements (first : bool) (l : list json) : string :=
                match l with
                | [] => ""
                | x :: r =>
                    (if first then "" else ",") ++ stringify x ++ elements false r
                end) true items ++ "]"
  | JObj fields =>
      "{" ++ (fix members (first : bool) (l : list (string * json)) : string :=
                match l with
                | [] => ""
                | (k, v) :: r =>
                    (if first then "" else ",")
                    ++ quote k ++ ":" ++ stringify v ++ members false r
                end) true fields ++ "}"
  end.

(** Property access [obj.key] on a serialisable object. *)
Definition field (key : string) (j : json) : option json :=
  match j with
  | JObj fields => assoc key fields
  | _ => None
  end.

(** Line feed, code unit 10. *)
Definition LF : string := String (ascii_of_nat 10) EmptyString.

(** A JavaScript [Map]: insertion-ordered; [set] on a present key replaces
    the value where it stands, on a new key appends. *)
Module JsMap.

Fixpoint get {V : Type} (k : string) (m : list (string * V)) : option V :=
  match m with
  | [] => None
  | (k', v) :: r => if k =? k' then Some v else get k r
  end.

Fixpoint set {V : Type} (k : string) (v : V) (m : list (string * V))
  : list (string * V) :=
  match m with
  | [] => [(k, v)]
  | (k', v') :: r => if k =? k' then (k', v) :: r else (k', v') :: set k v r
  end.

Fixpoint delete {V : Type} (k : string) (m : list (string * V))
  : list (string * V) :=
  match m with
  | [] => []
  | (k', v') :: r => if k =? k' then r else (k', v') :: delete k r
  end.

Definition has {V : Type} (k : string) (m : list (string * V)) : bool :=
  match get k m with
  | Some _ => true
  | None => false
  end.

Definition size {V : Type} (m : list (string * V)) : nat := length m.

Definition keys {V : Type} (m : list (string * V)) : list string := map fst m.

Definition values {V : Type} (m : list (string * V)) : list V := map snd m.

End JsMap.

(* ------------------------------------------------------------------ *)
(** ** Anthropic wire events and [StreamingResponseBuilder]
       (responseConverter.ts) *)

Module ResponseConverter.

Record ClaudeUsage := { input_tokens : N; output_tokens : N }.

(** A stream event is the object literal its builder returns. *)
Definition StreamEvent : Type := json.

Definition stopReasonText (r : ClaudeStopReason) : string :=
  match r with
  | end_turn => "end_turn"
  | max_tokens => "max_tokens"
  | stop_sequence => "stop_sequence"
  | tool_use => "tool_use"
  end.

Definition stopReasonJson (r : option ClaudeStopReason) : json :=
  match r with
  | Some r => JStr (stopReasonText r)
  | None => JNull
  end.

Definition usageJson (u : ClaudeUsage) : json :=
  JObj [("input_tokens", JNum (input_tokens u));
        ("output_tokens", JNum (output_tokens u))].

Definition buildMessageStartEvent (messageId model : string) : StreamEvent :=
  JObj [("type", JStr "message_start");
        ("message",
         JObj [("id", JStr messageId);
               ("type", JStr "message");
               ("role", JStr "assistant");
               ("model", JStr model);
               ("content", JArr []);
               ("stop_reason", JNull);
               ("stop_sequence", JNull);
               ("usage", JObj [("input_tokens", JNum 0);
                               ("output_tokens", JNum 0)])])].

Definition buildTextBlockStartEvent (index : N) : StreamEvent :=
  JObj [("type", JStr "content_block_start");
        ("index", JNum index);
        ("content_block", JObj [("type", JStr "text"); ("text", JStr "")])].

Definition buildToolUseBlockStartEvent (index : N) (toolId toolName : string)
  : StreamEvent :=
  JObj [("type", JStr "content_block_start");
        ("index", JNum index);
        ("content_block",
         JObj [("type", JStr "tool_use");
               ("id", JStr toolId);
               ("name", JStr toolName);
               ("input", JObj [])])].

Definition buildTextDeltaEvent (index : N) (text : string) : StreamEvent :=
  JObj [("type", JStr "content_block_delta");
        ("index", JNum index);
        ("delta", JObj [("type", JStr "text_delta"); ("text", JStr text)])].

Definition buildInputJsonDeltaEvent (index : N) (partialJson : string)
  : StreamEvent :=
  JObj [("type", JStr "content_block_delta");
        ("index", JNum index);
        ("delta", JObj [("type", JStr "input_json_delta");
                        ("partial_json", JStr partialJson)])].

Definition buildContentBlockStopEvent (index : N) : StreamEvent :=
  JObj [("type", JStr "content_block_stop"); ("index", JNum index)].

Definition buildMessageDeltaEvent (stopReason : option ClaudeStopReason)
    (usage : ClaudeUsage) : StreamEvent :=
  JObj [("type", JStr "message_delta");
        ("delta", JObj [("stop_reason", stopReasonJson stopReason);
                        ("stop_sequence", JNull)]);
        ("usage", usageJson usage)].

Definition buildMessageStopEvent : StreamEvent :=
  JObj [("type", JStr "message_stop")].

Definition buildPingEvent : StreamEvent :=
  JObj [("type", JStr "ping")].

Definition buildErrorEvent (errorType message : string) : StreamEvent :=
  JObj [("type", JStr "error");
        ("error", JObj [("type", JStr errorType); ("message", JStr message)])].

(** [event.type] inside the template literal of [formatSSE]. *)
Definition eventType (event : StreamEvent) : string :=
  match field "type" event with
  | Some (JStr t) => t
  | _ => "undefined"
  end.

Definition formatSSE (event : StreamEvent) : string :=
  "event: " ++ eventType event ++ LF ++ "data: " ++ stringify event ++ LF ++ LF.

(** An entry of [currentToolCalls]. *)
Record ToolCall := {
  index : N;
  name : string;
  argsBuffer : string;
  started : bool
}.

Record StreamingResponseBuilder := {
  messageId : string;
  model : string;
  textBlockIndex : N;
  toolBlockCounter : N;
  currentToolCalls : list (string * ToolCall);
  usage : ClaudeUsage;
  stopReason : option ClaudeStopReason
}.

(** The constructor; [messageId] stands for the id drawn from
    [crypto.randomUUID()]. *)
Definition newBuilder (messageId model : string) : StreamingResponseBuilder :=
  {| messageId := messageId;
     model := model;
     textBlockIndex := 0;
     toolBlockCounter := 0;
     currentToolCalls := [];
     usage := {| input_tokens := 0; output_tokens := 0 |};
     stopReason := None |}.

Definition getInitialEvents (b : StreamingResponseBuilder) : string :=
  let output := "" in
  let output := output ++ formatSSE (buildMessageStartEvent (messageId b) (model b)) in
  let output := output ++ formatSSE (buildTextBlockStartEvent (textBlockIndex b)) in
  let output := output ++ formatSSE buildPingEvent in
  output.

Definition handleTextDelta (b : StreamingResponseBuilder) (text : string) : string :=
  formatSSE (buildTextDeltaEvent (textBlockIndex b) text).

Definition handleToolCallStart (b : StreamingResponseBuilder)
    (toolId toolName : string) : StreamingResponseBuilder * string :=
  let counter := (toolBlockCounter b + 1)%N in
  let index := (textBlockIndex b + counter)%N in
  ({| messageId := messageId b;
      model := model b;
      textBlockIndex := textBlockIndex b;
      toolBlockCounter := counter;
      currentToolCalls :=
        JsMap.set toolId
          {| index := index; name := toolName; argsBuffer := ""; started := true |}
          (currentToolCalls b);
      usage := usage b;
      stopReason := stopReason b |},
   formatSSE (buildToolUseBlockStartEvent index toolId toolName)).

(** [toolCall.argsBuffer += chunk] on the entry the map holds. *)
Definition appendArgs (b : StreamingResponseBuilder) (toolId : string)
    (toolCall : ToolCall) (chunk : string) : StreamingResponseBuilder :=
  {| messageId := messageId b;
     model := model b;
     textBlockIndex := textBlockIndex b;
     toolBlockCounter := toolBlockCounter b;
     currentToolCalls :=
       JsMap.set toolId
         {| index := index toolCall;
            name := name toolCall;
            argsBuffer := argsBuffer toolCall ++ chunk;
            started := started toolCall |}
         (currentToolCalls b);
     usage := usage b;
     stopReason := stopReason b |}.

Definition handleToolCallChunk (b : StreamingResponseBuilder)
    (toolId chunk : string) : StreamingResponseBuilder * string :=
  match JsMap.get toolId (currentToolCalls b) with
  | None => (b, "")
  | Some toolCall =>
      let b' := appendArgs b toolId toolCall chunk in
      let buffer := argsBuffer toolCall ++ chunk in
      if JSON.parses buffer
      then (b', formatSSE (buildInputJsonDeltaEvent (index toolCall) buffer))
      else (b', "")
  end.

Definition handleToolCallEnd (b : StreamingResponseBuilder)
    (toolId args : string) : string :=
  match JsMap.get toolId (currentToolCalls b) with
  | None => ""
  | Some toolCall =>
      if negb (argsBuffer toolCall =? args)
      then formatSSE (buildInputJsonDeltaEvent (index toolCall) args)
      else ""
  end.

Definition setUsage (b : StreamingResponseBuilder) (inputTokens outputTokens : N)
  : StreamingResponseBuilder :=
  {| messageId := messageId b;
     model := model b;
     textBlockIndex := textBlockIndex b;
     toolBlockCounter := toolBlockCounter b;
     currentToolCalls := currentToolCalls b;
     usage := {| input_tokens := inputTokens; output_tokens := outputTokens |};
     stopReason := stopReason b |}.

Definition setStopReason (b : StreamingResponseBuilder) (reason : string)
  : StreamingResponseBuilder :=
  {| messageId := messageId b;
     model := model b;
     textBlockIndex := textBlockIndex b;
     toolBlockCounter := toolBlockCounter b;
     currentToolCalls := currentToolCalls b;
     usage := usage b;
     stopReason := mapStopReason (Some reason) |}.

(** The reason [getFinalEvents] puts in [message_delta]:
    [size > 0 ? 'tool_use' : this.stopReason || 'end_turn']. *)
Definition finalStopReason (b : StreamingResponseBuilder) : ClaudeStopReason :=
  if (0 <? JsMap.size (currentToolCalls b))%nat then tool_use
  else match stopReason b with
       | Some r => r
       | None => end_turn
       end.

Definition getFinalEvents (b : StreamingResponseBuilder) : string :=
  let output := "" in
  let output := output ++ formatSSE (buildContentBlockStopEvent (textBlockIndex b)) in
  let output :=
    fold_left
      (fun output toolCall =>
         output ++ formatSSE (buildContentBlockStopEvent (index toolCall)))
      (JsMap.values (currentToolCalls b)) output in
  let output :=
    output ++ formatSSE (buildMessageDeltaEvent (Some (finalStopReason b)) (usage b)) in
  let output := output ++ formatSSE buildMessageStopEvent in
  output.

Definition getErrorEvent (errorType message : string) : string :=
  formatSSE (buildErrorEvent errorType message).

(** The frames of a list of events, one after the other. *)
Definition frames (events : list StreamEvent) : string :=
  fold_right (fun event rest => formatSSE event ++ rest) "" events.

End ResponseConverter.

(* ------------------------------------------------------------------ *)
(** ** OpenAI wire chunks and [OpenAIStreamingBuilder]
       (openaiResponseBuilder.ts) *)

Module OpenAIResponseBuilder.

Definition OpenAIStreamChunk : Type := json.

Definition finishReasonText (r : OpenAIFinishReason) : string :=
  match r with
  | finish_stop => "stop"
  | finish_length => "length"
  | finish_tool_calls => "tool_calls"
  end.

Definition finishReasonJson (r : option OpenAIFinishReason) : json :=
  match r with
  | Some r => JStr (finishReasonText r)
  | None => JNull
  end.

Definition formatOpenAISSE (chunk : OpenAIStreamChunk) : string :=
  "data: " ++ stringify chunk ++ LF ++ LF.

Definition formatOpenAISSEDone : string := "data: [DONE]" ++ LF ++ LF.

Record ToolCall := {
  index : N;
  name : string;
  argsBuffer : string
}.

Record Usage := { promptTokens : N; completionTokens : N }.

Record OpenAIStreamingBuilder := {
  id : string;
  model : string;
  created : N;
  toolCallIndex : N;
  currentToolCalls : list (string * ToolCall);
  usage : Usage
}.

(** The constructor; [id] and [created] stand for the random id and the
    clock reading. *)
Definition newBuilder (id model : string) (created : N) : OpenAIStreamingBuilder :=
  {| id := id;
     model := model;
     created := created;
     toolCallIndex := 0;
     currentToolCalls := [];
     usage := {| promptTokens := 0; completionTokens := 0 |} |}.

(** The part every chunk shares: one choice at index 0. *)
Definition chunkOf (b : OpenAIStreamingBuilder) (delta : json)
    (finish_reason : json) (rest : list (string * json)) : OpenAIStreamChunk :=
  JObj ([("id", JStr (id b));
         ("object", JStr "chat.completion.chunk");
         ("created", JNum (created b));
         ("model", JStr (model b));
         ("choices",
          JArr [JObj [("index", JNum 0);
                      ("delta", delta);
                      ("finish_reason", finish_reason)]])] ++ rest).

Definition initialChunk (b : OpenAIStreamingBuilder) : OpenAIStreamChunk :=
  chunkOf b (JObj [("role", JStr "assistant"); ("content", JStr "")]) JNull [].

Definition buildInitialChunk (b : OpenAIStreamingBuilder) : string :=
  formatOpenAISSE (initialChunk b).

Definition contentChunk (b : OpenAIStreamingBuilder) (content : string)
  : OpenAIStreamChunk :=
  chunkOf b (JObj [("content", JStr content)]) JNull [].

Definition buildContentChunk (b : OpenAIStreamingBuilder) (content : string)
  : string :=
  formatOpenAISSE (contentChunk b content).

Definition toolCallStartChunk (b : OpenAIStreamingBuilder) (index : N)
    (toolId toolName : string) : OpenAIStreamChunk :=
  chunkOf b
    (JObj [("tool_calls",
            JArr [JObj [("index", JNum index);
                        ("id", JStr toolId);
                        ("type", JStr "function");
                        ("function", JObj [("name", JStr toolName);
                                           ("arguments", JStr "")])]])])
    JNull [].

Definition buildToolCallStartChunk (b : OpenAIStreamingBuilder)
    (toolId toolName : string) : OpenAIStreamingBuilder * string :=
  let index := toolCallIndex b in
  ({| id := id b;
      model := model b;
      created := created b;
      toolCallIndex := (toolCallIndex b + 1)%N;
      currentToolCalls :=
        JsMap.set toolId
          {| index := index; name := toolName; argsBuffer := "" |}
          (currentToolCalls b);
      usage := usage b |},
   formatOpenAISSE (toolCallStartChunk b index toolId toolName)).

Definition toolCallArgsChunk (b : OpenAIStreamingBuilder) (index : N)
    (args : string) : OpenAIStreamChunk :=
  chunkOf b
    (JObj [("tool_calls",
            JArr [JObj [("index", JNum index);
                        ("function", JObj [("arguments", JStr args)])]])])
    JNull [].

Definition buildToolCallArgsChunk (b : OpenAIStreamingBuilder)
    (toolId args : string) : OpenAIStreamingBuilder * string :=
  match JsMap.get toolId (currentToolCalls b) with
  | None => (b, "")
  | Some toolCall => (b, formatOpenAISSE (toolCallArgsChunk b (index toolCall) args))
  end.

Definition setUsage (b : OpenAIStreamingBuilder)
    (promptTokens completionTokens : N) : OpenAIStreamingBuilder :=
  {| id := id b;
     model := model b;
     created := created b;
     toolCallIndex := toolCallIndex b;
     currentToolCalls := currentToolCalls b;
     usage := {| promptTokens := promptTokens;
                 completionTokens := completionTokens |} |}.

Definition finalChunk (b : OpenAIStreamingBuilder)
    (finishReason : option OpenAIFinishReason) : OpenAIStreamChunk :=
  chunkOf b (JObj []) (finishReasonJson finishReason)
    [("usage",
      JObj [("prompt_tokens", JNum (promptTokens (usage b)));
            ("completion_tokens", JNum (completionTokens (usage b)));
            ("total_tokens",
             JNum (promptTokens (usage b) + completionTokens (usage b)))])].

Definition buildFinalChunk (b : OpenAIStreamingBuilder)
    (finishReason : option OpenAIFinishReason) : string :=
  formatOpenAISSE (finalChunk b finishReason).

Definition buildDone : string := formatOpenAISSEDone.

Definition hasToolCalls (b : OpenAIStreamingBuilder) : bool :=
  (0 <? JsMap.size (currentToolCalls b))%nat.

End OpenAIResponseBuilder.

(* ------------------------------------------------------------------ *)
(** ** Canonical agent events *)

Module Shared.

(** The running token totals the session loop attaches to usage events. *)
Record TotalUsage := {
  prompt_tokens : N;
  completion_tokens : N;
  total_tokens : N;
  context_length : N
}.

(** An object the code passes on without reading it (image data, a rate
    limit report, server icons, permission options). *)
Inductive Opaque := opaque (label : string).

Definition ImageData : Type := Opaque.

Definition RateLimit : Type := Opaque.

(** The [permission_request] object the session loop builds. *)
Record PermissionRequest := {
  toolName : option string;
  serverName : string;
  permissionType : string;
  description : string;
  pr_providerId : option string;
  requestId : option string;
  sessionId : option string;
  agentId : option string;
  agentName : option string;
  conversationId : option string;
  options : option Opaque;
  rememberable : bool
}.

(** Modelled from the spec: the payload of a [response] event of the
    canonical agent event union ([LLMAgentEvent], declared in
    [@shared/presenter], which the sources do not carry).  Every field is
    optional but [eventId]; the fields are those the spec lists and those the
    session loop fills in. *)
Record ResponseData := {
  eventId : option string;
  content : option string;
  reasoning_content : option string;
  tool_call : option string;
  tool_call_id : option string;
  tool_call_name : option string;
  tool_call_params : option string;
  tool_call_server_name : option string;
  tool_call_server_icons : option Opaque;
  tool_call_server_description : option string;
  tool_call_response : option string;
  permission_request : option PermissionRequest;
  totalUsage : option TotalUsage;
  image_data : option ImageData;
  rate_limit : option RateLimit
}.

(** Modelled from the spec: the canonical agent event, a tagged union of
    [response], [end] and [error] ([LLMAgentEvent] of [@shared/presenter]). *)
Inductive LLMAgentEvent :=
| response (d : ResponseData)
| end_ (evId : option string) (userStop : bool)
| error (evId : option string) (message : string).

(** An object literal [{ eventId }] to which fields are then added. *)
Definition onlyEventId (eventId : string) : ResponseData :=
  {| eventId := Some eventId;
     content := None;
     reasoning_content := None;
     tool_call := None;
     tool_call_id := None;
     tool_call_name := None;
     tool_call_params := None;
     tool_call_server_name := None;
     tool_call_server_icons := None;
     tool_call_server_description := None;
     tool_call_response := None;
     permission_request := None;
     totalUsage := None;
     image_data := None;
     rate_limit := None |}.

(** What a [throw] carries: an [Error] with its message, or something else. *)
Inductive Thrown :=
| ErrorObject (message : string)
| OtherValue.

(** [error instanceof Error ? error.message : 'Unknown error']. *)
Definition messageOf (e : Thrown) : string :=
  match e with
  | ErrorObject message => message
  | OtherValue => "Unknown error"
  end.

(** What iterating an async generator of agent events delivers: the events it
    yields and, when it ends by throwing, what it throws. *)
Record EventStream := {
  events : list LLMAgentEvent;
  failure : option Thrown
}.

(** [for await (const event of stream) { if (stop) break; body }].  [stop i]
    is what the guard at the top of the body reads when the [i]-th event has
    arrived; the body may throw. *)
Fixpoint forAwait {St : Type} (stop : nat -> bool)
    (body : St -> LLMAgentEvent -> St + Thrown)
    (i : nat) (s : St) (events : list LLMAgentEvent) (failure : option Thrown)
  : St * option Thrown :=
  match events with
  | [] => (s, failure)
  | event :: rest =>
      if stop i then (s, None)
      else match body s event with
           | inl s' => forAwait stop body (S i) s' rest failure
           | inr e => (s, Some e)
           end
  end.

End Shared.

(* ------------------------------------------------------------------ *)
(** ** Wire types (types.ts) *)

Module Request.

(** The [messages] field of a parsed body.  The handlers test that it is
    there and is an array; its elements only reach the converters, whose
    result goes to the provider. *)
Inductive MessagesField :=
| absent
| notArray (truthy : bool)
| array (length : nat).

(** A parsed request body of either endpoint, as far as the handlers read
    it: [model] ([None] when absent), [messages], [max_tokens] ([None] when
    absent) and the truthiness of [stream]. *)
Record t := {
  model : option string;
  messages : MessagesField;
  max_tokens : option N;
  stream : bool
}.

(** What [JSON.parse(body)] gives: it throws, or returns [null], or returns
    a value whose properties can be read. *)
Inductive Parsed :=
| invalidJson
| jsonNull
| value (request : t).

End Request.

Module Response.

(** [input] of a [tool_use] block: [{}], [JSON.parse(text)], or
    [{ raw: text }]. *)
Inductive ToolInput :=
| emptyObject
| parsed (text : string)
| raw (text : string).

Inductive ContentBlock :=
| text (text : string)
| tool_use_block (id name : string) (input : ToolInput).

Record ClaudeMessagesResponse := {
  id : string;
  model : string;
  content : list ContentBlock;
  stop_reason : option ClaudeStopReason;
  usage : ResponseConverter.ClaudeUsage
}.

Record OpenAIToolCall := {
  call_id : string;
  function_name : string;
  function_arguments : string
}.

Record OpenAIChatCompletionsResponse := {
  completion_id : string;
  created : N;
  completion_model : string;
  message_content : option string;
  tool_calls : option (list OpenAIToolCall);
  finish_reason : option OpenAIFinishReason;
  prompt_tokens : N;
  completion_tokens : N;
  total_tokens : N
}.

(** What [res.end] is given to send. *)
Inductive Body :=
| envelope (j : json)                       (* JSON.stringify of a literal *)
| claudeMessages (r : ClaudeMessagesResponse)
| chatCompletion (r : OpenAIChatCompletionsResponse).

End Response.

(* ------------------------------------------------------------------ *)
(** ** The request handlers of [AnthropicApiPresenter] (index.ts) *)

Module Presenter.

Import Shared.

Record AnthropicApiServerConfig := {
  port : N;
  host : string;
  apiKey : option string;
  defaultProviderId : option string;
  defaultModelId : option string
}.

(** What a handler does to [res] and to the provider presenter, in order.
    Of the call to [startStreamCompletion] the provider, the model and the
    event id are kept; the converted messages, the temperature and the token
    limit it is also given do not bear on what the handler does next. *)
Inductive Action :=
| writeHead (status : N) (contentType : string)
| write (chunk : string)
| end_response (body : option Response.Body)
| startStreamCompletion (providerId modelId : option string) (eventId : string).

(** What surrounds one request: whether [getProviderById] finds a provider
    (it throws otherwise), the event stream the provider presenter returns,
    the values drawn from [crypto.randomUUID()] and the clock, and what
    [res.destroyed] reads when the [i]-th event arrives. *)
Record Environment := {
  providerKnown : option string -> bool;
  stream : EventStream;
  freshId : string;
  eventId : string;
  now : N;
  destroyed : nat -> bool
}.

Definition anthropicError (type message : string) : json :=
  JObj [("type", JStr "error");
        ("error", JObj [("type", JStr type); ("message", JStr message)])].

Definition openAIError (type message : string) : json :=
  JObj [("error", JObj [("message", JStr message);
                        ("type", JStr type);
                        ("param", JNull);
                        ("code", JNull)])].

Definition sendError (status : N) (type message : string) : list Action :=
  [writeHead status "application/json";
   end_response (Some (Response.envelope (anthropicError type message)))].

Definition sendOpenAIError (status : N) (type message : string) : list Action :=
  [writeHead status "application/json";
   end_response (Some (Response.envelope (openAIError type message)))].

(** [if (data.content)]: the string when it is there and not empty. *)
Definition present (o : option string) : option string :=
  match o with
  | Some s => if JS.truthy s then Some s else None
  | None => None
  end.

(** [data.tool_call === 'start' && data.tool_call_id && data.tool_call_name]:
    the id and the name when the guard holds. *)
Definition toolCallStart (d : ResponseData) : option (string * string) :=
  match tool_call d, present (tool_call_id d), present (tool_call_name d) with
  | Some tag, Some id, Some name =>
      if tag =? "start" then Some (id, name) else None
  | _, _, _ => None
  end.

(** [data.tool_call === 'update' && data.tool_call_id && data.tool_call_params]:
    the id and the parameters when the guard holds. *)
Definition toolCallUpdate (d : ResponseData) : option (string * string) :=
  match tool_call d, present (tool_call_id d), present (tool_call_params d) with
  | Some tag, Some id, Some params =>
      if tag =? "update" then Some (id, params) else None
  | _, _, _ => None
  end.

(** [const { providerId, modelId } = modelMapping]. *)
Definition destructure (m : ModelMapping) : option string * option string :=
  match m with
  | Mapping providerId modelId => (Some providerId, Some modelId)
  | Inherited _ => (None, None)
  end.

(** A value inside a template literal. *)
Definition interpolate (o : option string) : string :=
  match o with
  | Some s => s
  | None => "undefined"
  end.

(** *** POST /v1/messages, streaming *)

Record StreamingLoop := {
  sl_builder : ResponseConverter.StreamingResponseBuilder;
  sl_inputTokens : N;
  sl_outputTokens : N;
  sl_written : list Action
}.

Definition sl_write (s : StreamingLoop) (chunk : string) : StreamingLoop :=
  {| sl_builder := sl_builder s;
     sl_inputTokens := sl_inputTokens s;
     sl_outputTokens := sl_outputTokens s;
     sl_written := sl_written s ++ [write chunk] |}.

Definition sl_setBuilder (s : StreamingLoop)
    (b : ResponseConverter.StreamingResponseBuilder) : StreamingLoop :=
  {| sl_builder := b;
     sl_inputTokens := sl_inputTokens s;
     sl_outputTokens := sl_outputTokens s;
     sl_written := sl_written s |}.

Definition sl_setTokens (s : StreamingLoop) (u : TotalUsage) : StreamingLoop :=
  {| sl_builder := sl_builder s;
     sl_inputTokens := prompt_tokens u;
     sl_outputTokens := completion_tokens u;
     sl_written := sl_written s |}.

(** The body of the loop of [handleStreamingResponse]. *)
Definition streamingBody (s : StreamingLoop) (event : LLMAgentEvent)
  : StreamingLoop + Thrown :=
  match event with
  | response d =>
      let s := match present (content d) with
               | Some c => sl_write s (ResponseConverter.handleTextDelta (sl_builder s) c)
               | None => s
               end in
      let s := match present (reasoning_content d) with
               | Some c => sl_write s (ResponseConverter.handleTextDelta (sl_builder s) c)
               | None => s
               end in
      let s := match toolCallStart d with
               | Some (id, name) =>
                   let (b, out) :=
                     ResponseConverter.handleToolCallStart (sl_builder s) id name in
                   sl_write (sl_setBuilder s b) out
               | None => s
               end in
      let s := match toolCallUpdate d with
               | Some (id, params) =>
                   let (b, chunkOutput) :=
                     ResponseConverter.handleToolCallChunk (sl_builder s) id params in
                   if JS.truthy chunkOutput
                   then sl_write (sl_setBuilder s b) chunkOutput
                   else sl_setBuilder s b
               | None => s
               end in
      let s := match totalUsage d with
               | Some u => sl_setTokens s u
               | None => s
               end in
      inl s
  | end_ _ userStop =>
      inl (sl_setBuilder s
             (ResponseConverter.setStopReason (sl_builder s)
                (if userStop then "stop_sequence" else "end_turn")))
  | error _ message =>
      inl (sl_write s (ResponseConverter.getErrorEvent "api_error" message))
  end.

Definition handleStreamingResponse (env : Environment) (requestModel : string)
    (providerId modelId : option string) : list Action :=
  let builder := ResponseConverter.newBuilder (freshId env) requestModel in
  let start :=
    {| sl_builder := builder;
       sl_inputTokens := 0;
       sl_outputTokens := 0;
       sl_written := [] |} in
  [writeHead 200 "text/event-stream";
   write (ResponseConverter.getInitialEvents builder);
   startStreamCompletion providerId modelId (eventId env)]
  ++
  match forAwait (destroyed env) streamingBody 0 start
          (events (stream env)) (failure (stream env)) with
  | (s, None) =>
      let builder :=
        ResponseConverter.setUsage (sl_builder s) (sl_inputTokens s) (sl_outputTokens s) in
      sl_written s
      ++ [write (ResponseConverter.getFinalEvents builder); end_response None]
  | (s, Some e) =>
      sl_written s
      ++ [write (ResponseConverter.getErrorEvent "api_error" (messageOf e));
          end_response None]
  end.

(** *** POST /v1/messages, not streaming *)

Record Aggregate := {
  textContent : string;
  toolCalls : list (string * (string * Response.ToolInput));
  inputTokens : N;
  outputTokens : N;
  stopReason : string
}.

Definition ag_setText (s : Aggregate) (t : string) : Aggregate :=
  {| textContent := t;
     toolCalls := toolCalls s;
     inputTokens := inputTokens s;
     outputTokens := outputTokens s;
     stopReason := stopReason s |}.

Definition ag_setToolCalls (s : Aggregate)
    (m : list (string * (string * Response.ToolInput))) : Aggregate :=
  {| textContent := textContent s;
     toolCalls := m;
     inputTokens := inputTokens s;
     outputTokens := outputTokens s;
     stopReason := stopReason s |}.

Definition ag_setTokens (s : Aggregate) (u : TotalUsage) : Aggregate :=
  {| textContent := textContent s;
     toolCalls := toolCalls s;
     inputTokens := prompt_tokens u;
     outputTokens := completion_tokens u;
     stopReason := stopReason s |}.

Definition ag_setStopReason (s : Aggregate) (r : string) : Aggregate :=
  {| textContent := textContent s;
     toolCalls := toolCalls s;
     inputTokens := inputTokens s;
     outputTokens := outputTokens s;
     stopReason := r |}.

(** [try { input = JSON.parse(params) } catch { input = { raw: params } }]. *)
Definition parseInput (params : string) : Response.ToolInput :=
  if JSON.parses params then Response.parsed params else Response.raw params.

(** The body of the loop of [handleNonStreamingResponse]. *)
Definition nonStreamingBody (s : Aggregate) (event : LLMAgentEvent)
  : Aggregate + Thrown :=
  match event with
  | response d =>
      let s := match present (content d) with
               | Some c => ag_setText s (textContent s ++ c)
               | None => s
               end in
      let s := match present (reasoning_content d) with
               | Some c => ag_setText s (textContent s ++ c)
               | None => s
               end in
      let s := match toolCallStart d with
               | Some (id, name) =>
                   ag_setToolCalls s
                     (JsMap.set id (name, Response.emptyObject) (toolCalls s))
               | None => s
               end in
      let s := match toolCallUpdate d with
               | Some (id, params) =>
                   match JsMap.get id (toolCalls s) with
                   | Some (name, _) =>
                       ag_setToolCalls s
                         (JsMap.set id (name, parseInput params) (toolCalls s))
                   | None => s
                   end
               | None => s
               end in
      let s := match totalUsage d with
               | Some u => ag_setTokens s u
               | None => s
               end in
      inl s
  | end_ _ userStop =>
      inl (ag_setStopReason s (if userStop then "stop_sequence" else "end_turn"))
  | error _ message => inr (ErrorObject message)
  end.

(** The content blocks built once the stream is exhausted. *)
Definition buildContentBlocks (s : Aggregate) : list Response.ContentBlock :=
  let contentBlocks : list Response.ContentBlock := [] in
  let contentBlocks :=
    if JS.truthy (textContent s)
    then (contentBlocks ++ [Response.text (textContent s)])%list
    else contentBlocks in
  let contentBlocks :=
    fold_left
      (fun blocks entry =>
         match entry with
         | (id, (name, input)) =>
             (blocks ++ [Response.tool_use_block id name input])%list
         end)
      (toolCalls s) contentBlocks in
  if (List.length contentBlocks =? 0)%nat
  then (contentBlocks ++ [Response.text ""])%list
  else contentBlocks.

(** [buildNonStreamingResponse] of responseConverter.ts; the id is drawn at
    random there. *)
Definition buildNonStreamingResponse (id model : string)
    (content : list Response.ContentBlock)
    (stopReason : option ClaudeStopReason)
    (usage : ResponseConverter.ClaudeUsage) : Response.ClaudeMessagesResponse :=
  {| Response.id := id;
     Response.model := model;
     Response.content := content;
     Response.stop_reason := stopReason;
     Response.usage := usage |}.

Definition nonStreamingResponse (env : Environment) (requestModel : string)
    (s : Aggregate) : Response.ClaudeMessagesResponse :=
  buildNonStreamingResponse (freshId env) requestModel
    (buildContentBlocks s)
    (if (0 <? JsMap.size (toolCalls s))%nat then Some tool_use
     else mapStopReason (Some (stopReason s)))
    {| ResponseConverter.input_tokens := inputTokens s;
       ResponseConverter.output_tokens := outputTokens s |}.

Definition handleNonStreamingResponse (env : Environment) (requestModel : string)
    (providerId modelId : option string) : list Action :=
  let start :=
    {| textContent := "";
       toolCalls := [];
       inputTokens := 0;
       outputTokens := 0;
       stopReason := "complete" |} in
  [startStreamCompletion providerId modelId (eventId env)]
  ++
  match forAwait (fun _ => false) nonStreamingBody 0 start
          (events (stream env)) (failure (stream env)) with
  | (s, None) =>
      [writeHead 200 "application/json";
       end_response
         (Some (Response.claudeMessages (nonStreamingResponse env requestModel s)))]
  | (_, Some e) => sendError 500 "api_error" (messageOf e)
  end.

(** *** POST /v1/chat/completions, streaming *)

Record OpenAIStreamingLoop := {
  ol_builder : OpenAIResponseBuilder.OpenAIStreamingBuilder;
  ol_inputTokens : N;
  ol_outputTokens : N;
  ol_stopReason : option string;
  ol_written : list Action
}.

Definition ol_write (s : OpenAIStreamingLoop) (chunk : string)
  : OpenAIStreamingLoop :=
  {| ol_builder := ol_builder s;
     ol_inputTokens := ol_inputTokens s;
     ol_outputTokens := ol_outputTokens s;
     ol_stopReason := ol_stopReason s;
     ol_written := ol_written s ++ [write chunk] |}.

Definition ol_setBuilder (s : OpenAIStreamingLoop)
    (b : OpenAIResponseBuilder.OpenAIStreamingBuilder) : OpenAIStreamingLoop :=
  {| ol_builder := b;
     ol_inputTokens := ol_inputTokens s;
     ol_outputTokens := ol_outputTokens s;
     ol_stopReason := ol_stopReason s;
     ol_written := ol_written s |}.

Definition ol_setTokens (s : OpenAIStreamingLoop) (u : TotalUsage)
  : OpenAIStreamingLoop :=
  {| ol_builder := ol_builder s;
     ol_inputTokens := prompt_tokens u;
     ol_outputTokens := completion_tokens u;
     ol_stopReason := ol_stopReason s;
     ol_written := ol_written s |}.

Definition ol_setStopReason (s : OpenAIStreamingLoop) (r : string)
  : OpenAIStreamingLoop :=
  {| ol_builder := ol_builder s;
     ol_inputTokens := ol_inputTokens s;
     ol_outputTokens := ol_outputTokens s;
     ol_stopReason := Some r;
     ol_written := ol_written s |}.

(** The body of the loop of [handleOpenAIStreamingResponse].  An [error]
    event is logged with [console.error] and nothing else is done with it. *)
Definition openAIStreamingBody (s : OpenAIStreamingLoop) (event : LLMAgentEvent)
  : OpenAIStreamingLoop + Thrown :=
  match event with
  | response d =>
      let s := match present (content d) with
               | Some c =>
                   ol_write s (OpenAIResponseBuilder.buildContentChunk (ol_builder s) c)
               | None => s
               end in
      let s := match present (reasoning_content d) with
               | Some c =>
                   ol_write s (OpenAIResponseBuilder.buildContentChunk (ol_builder s) c)
               | None => s
               end in
      let s := match toolCallStart d with
               | Some (id, name) =>
                   let (b, out) :=
                     OpenAIResponseBuilder.buildToolCallStartChunk (ol_builder s) id name in
                   ol_write (ol_setBuilder s b) out
               | None => s
               end in
      let s := match toolCallUpdate d with
               | Some (id, params) =>
                   let (b, out) :=
                     OpenAIResponseBuilder.buildToolCallArgsChunk (ol_builder s) id params in
                   ol_write (ol_setBuilder s b) out
               | None => s
               end in
      let s := match totalUsage d with
               | Some u => ol_setTokens s u
               | None => s
               end in
      inl s
  | end_ _ userStop => inl (ol_setStopReason s (if userStop then "stop" else "stop"))
  | error _ _ => inl s
  end.

Definition handleOpenAIStreamingResponse (env : Environment)
    (requestModel : string) (providerId modelId : option string) : list Action :=
  let builder :=
    OpenAIResponseBuilder.newBuilder (freshId env) requestModel (now env) in
  let start :=
    {| ol_builder := builder;
       ol_inputTokens := 0;
       ol_outputTokens := 0;
       ol_stopReason := None;
       ol_written := [] |} in
  [writeHead 200 "text/event-stream";
   write (OpenAIResponseBuilder.buildInitialChunk builder);
   startStreamCompletion providerId modelId (eventId env)]
  ++
  match forAwait (destroyed env) openAIStreamingBody 0 start
          (events (stream env)) (failure (stream env)) with
  | (s, None) =>
      let builder :=
        OpenAIResponseBuilder.setUsage (ol_builder s)
          (ol_inputTokens s) (ol_outputTokens s) in
      let finishReason :=
        mapToOpenAIFinishReason (ol_stopReason s)
          (OpenAIResponseBuilder.hasToolCalls builder) in
      ol_written s
      ++ [write (OpenAIResponseBuilder.buildFinalChunk builder finishReason);
          write OpenAIResponseBuilder.buildDone;
          end_response None]
  | (s, Some _) =>
      ol_written s ++ [write OpenAIResponseBuilder.buildDone; end_response None]
  end.

(** *** POST /v1/chat/completions, not streaming *)

Record OpenAIAggregate := {
  oa_textContent : string;
  oa_toolCalls : list Response.OpenAIToolCall;
  oa_toolCallBuffers : list (string * (string * string));
  oa_inputTokens : N;
  oa_outputTokens : N;
  oa_stopReason : option string
}.

(** The body of the loop of [handleOpenAINonStreamingResponse]. *)
Definition openAINonStreamingBody (s : OpenAIAggregate) (event : LLMAgentEvent)
  : OpenAIAggregate + Thrown :=
  match event with
  | response d =>
      let text := oa_textContent s in
      let text := match present (content d) with
                  | Some c => text ++ c
                  | None => text
                  end in
      let text := match present (reasoning_content d) with
                  | Some c => text ++ c
                  | None => text
                  end in
      let buffers := oa_toolCallBuffers s in
      let buffers := match toolCallStart d with
                     | Some (id, name) => JsMap.set id (name, "") buffers
                     | None => buffers
                     end in
      let '(buffers, calls) :=
        match toolCallUpdate d with
        | Some (id, params) =>
            match JsMap.get id buffers with
            | Some (name, _) =>
                (JsMap.set id (name, params) buffers,
                 (oa_toolCalls s
                  ++ [{| Response.call_id := id;
                         Response.function_name := name;
                         Response.function_arguments := params |}])%list)
            | None => (buffers, oa_toolCalls s)
            end
        | None => (buffers, oa_toolCalls s)
        end in
      let '(inTok, outTok) :=
        match totalUsage d with
        | Some u => (prompt_tokens u, completion_tokens u)
        | None => (oa_inputTokens s, oa_outputTokens s)
        end in
      inl {| oa_textContent := text;
             oa_toolCalls := calls;
             oa_toolCallBuffers := buffers;
             oa_inputTokens := inTok;
             oa_outputTokens := outTok;
             oa_stopReason := oa_stopReason s |}
  | end_ _ userStop =>
      inl {| oa_textContent := oa_textContent s;
             oa_toolCalls := oa_toolCalls s;
             oa_toolCallBuffers := oa_toolCallBuffers s;
             oa_inputTokens := oa_inputTokens s;
             oa_outputTokens := oa_outputTokens s;
             oa_stopReason := Some (if userStop then "stop" else "stop") |}
  | error _ message => inr (ErrorObject message)
  end.

(** [buildOpenAIResponse] of openaiResponseBuilder.ts; the id and the
    creation time are drawn there. *)
Definition buildOpenAIResponse (id : string) (created : N) (model : string)
    (content : option string) (toolCalls : option (list Response.OpenAIToolCall))
    (finishReason : option OpenAIFinishReason)
    (promptTokens completionTokens : N) : Response.OpenAIChatCompletionsResponse :=
  {| Response.completion_id := id;
     Response.created := created;
     Response.completion_model := model;
     Response.message_content := content;
     Response.tool_calls := toolCalls;
     Response.finish_reason := finishReason;
     Response.prompt_tokens := promptTokens;
     Response.completion_tokens := completionTokens;
     Response.total_tokens := (promptTokens + completionTokens)%N |}.

Definition openAINonStreamingResponse (env : Environment) (requestModel : string)
    (s : OpenAIAggregate) : Response.OpenAIChatCompletionsResponse :=
  let finishReason :=
    mapToOpenAIFinishReason (oa_stopReason s)
      (0 <? List.length (oa_toolCalls s))%nat in
  buildOpenAIResponse (freshId env) (now env) requestModel
    (present (Some (oa_textContent s)))
    (if (0 <? List.length (oa_toolCalls s))%nat then Some (oa_toolCalls s) else None)
    finishReason (oa_inputTokens s) (oa_outputTokens s).

Definition handleOpenAINonStreamingResponse (env : Environment)
    (requestModel : string) (providerId modelId : option string) : list Action :=
  let start :=
    {| oa_textContent := "";
       oa_toolCalls := [];
       oa_toolCallBuffers := [];
       oa_inputTokens := 0;
       oa_outputTokens := 0;
       oa_stopReason := None |} in
  [startStreamCompletion providerId modelId (eventId env)]
  ++
  match forAwait (fun _ => false) openAINonStreamingBody 0 start
          (events (stream env)) (failure (stream env)) with
  | (s, None) =>
      [writeHead 200 "application/json";
       end_response
         (Some (Response.chatCompletion (openAINonStreamingResponse env requestModel s)))]
  | (_, Some e) => sendOpenAIError 500 "api_error" (messageOf e)
  end.

(** *** The two POST handlers *)

(** [!request.messages || !Array.isArray(request.messages)]. *)
Definition messagesMissing (m : Request.MessagesField) : bool :=
  match m with
  | Request.absent => true
  | Request.notArray _ => true
  | Request.array _ => false
  end.

(** [!request.max_tokens]. *)
Definition maxTokensMissing (m : option N) : bool :=
  match m with
  | Some n => (n =? 0)%N
  | None => true
  end.

Definition unableToMap (model : string) : string :=
  "Unable to map model: " ++ model ++ ". Use format " ++ JSON.dq
  ++ "providerId/modelId" ++ JSON.dq ++ " or configure default provider.".

(** Reading a property of [null] throws a [TypeError]; the message is the
    runtime's. *)
Definition nullPropertyRead (property : string) : Thrown :=
  ErrorObject ("Cannot read properties of null (reading '" ++ property ++ "')").

(** [handleMessages]: what it does to [res], and what it throws if it does. *)
Definition handleMessages (config : AnthropicApiServerConfig) (env : Environment)
    (body : Request.Parsed) : list Action * option Thrown :=
  match body with
  | Request.invalidJson =>
      (sendError 400 "invalid_request_error" "Invalid JSON body", None)
  | Request.jsonNull => ([], Some (nullPropertyRead "model"))
  | Request.value request =>
      match present (Request.model request) with
      | None =>
          (sendError 400 "invalid_request_error" "Missing required field: model",
           None)
      | Some model =>
          if messagesMissing (Request.messages request) then
            (sendError 400 "invalid_request_error"
               "Missing required field: messages", None)
          else if maxTokensMissing (Request.max_tokens request) then
            (sendError 400 "invalid_request_error"
               "Missing required field: max_tokens", None)
          else
            match mapClaudeModel model
                    (defaultProviderId config) (defaultModelId config) with
            | None =>
                (sendError 400 "invalid_request_error" (unableToMap model), None)
            | Some modelMapping =>
                let (providerId, modelId) := destructure modelMapping in
                if negb (providerKnown env providerId) then
                  (sendError 400 "invalid_request_error"
                     ("Provider not found: " ++ interpolate providerId), None)
                else if Request.stream request then
                  (handleStreamingResponse env model providerId modelId, None)
                else
                  (handleNonStreamingResponse env model providerId modelId, None)
            end
      end
  end.

(** [handleChatCompletions]. *)
Definition handleChatCompletions (config : AnthropicApiServerConfig)
    (env : Environment) (body : Request.Parsed) : list Action * option Thrown :=
  match body with
  | Request.invalidJson =>
      (sendOpenAIError 400 "invalid_request_error" "Invalid JSON body", None)
  | Request.jsonNull => ([], Some (nullPropertyRead "model"))
  | Request.value request =>
      match present (Request.model request) with
      | None =>
          (sendOpenAIError 400 "invalid_request_error"
             "Missing required field: model", None)
      | Some model =>
          if messagesMissing (Request.messages request) then
            (sendOpenAIError 400 "invalid_request_error"
               "Missing required field: messages", None)
          else
            match mapClaudeModel model
                    (defaultProviderId config) (defaultModelId config) with
            | None =>
                (sendOpenAIError 400 "invalid_request_error" (unableToMap model),
                 None)
            | Some modelMapping =>
                let (providerId, modelId) := destructure modelMapping in
                if negb (providerKnown env providerId) then
                  (sendOpenAIError 400 "invalid_request_error"
                     ("Provider not found: " ++ interpolate providerId), None)
                else if Request.stream request then
                  (handleOpenAIStreamingResponse env model providerId modelId, None)
                else
                  (handleOpenAINonStreamingResponse env model providerId modelId,
                   None)
            end
      end
  end.

(** The [try]/[catch] that [handleRequest] puts around the handler it
    dispatches to: whatever the handler throws becomes a 500 in the Anthropic
    envelope. *)
Definition handleRequestCatch (handled : list Action * option Thrown)
  : list Action :=
  match handled with
  | (actions, None) => actions
  | (actions, Some e) => actions ++ sendError 500 "api_error" (messageOf e)
  end.

(** The status codes a handler sent. *)
Definition statuses (actions : list Action) : list N :=
  flat_map (fun a => match a with
                     | writeHead status _ => [status]
                     | _ => []
                     end) actions.

(** Whether the response was opened as an event stream. *)
Definition upgradedToStream (actions : list Action) : bool :=
  existsb (fun a => match a with
                    | writeHead _ contentType => contentType =? "text/event-stream"
                    | _ => false
                    end) actions.

(** Whether a session was asked of the provider presenter. *)
Definition sessionCreated (actions : list Action) : bool :=
  existsb (fun a => match a with
                    | startStreamCompletion _ _ _ => true
                    | _ => false
                    end) actions.

(** The chunks written to the stream, in order. *)
Definition written (actions : list Action) : list string :=
  flat_map (fun a => match a with
                     | write chunk => [chunk]
                     | _ => []
                     end) actions.

End Presenter.

(* ------------------------------------------------------------------ *)
(** ** The slash-command session loop of [LLMProviderPresenter]
       (llmProviderPresenter/index.ts) *)

Module LLMProviderPresenter.

Record Usage := {
  prompt_tokens : N;
  completion_tokens : N;
  total_tokens : N
}.

Record Permission := {
  permissionType : option string;
  description : option string;
  p_tool_call_id : option string;
  p_tool_call_name : option string;
  p_tool_call_params : option string;
  server_name : option string;
  server_icons : option Shared.Opaque;
  server_description : option string;
  agentName : option string;
  providerName : option string;
  providerId : option string;
  requestId : option string;
  sessionId : option string;
  agentId : option string;
  conversationId : option string;
  options : option Shared.Opaque;
  metadata_rememberable : option bool     (* permission.metadata?.rememberable *)
}.

(** Modelled from the spec: what the ACP provider's [runSlashCommand] stream
    delivers (the provider-level stream event of [@shared/presenter], which
    the sources do not carry); one constructor per [chunk.type] the loop
    switches on, with the fields it reads, and [other] for any other type. *)
Inductive LLMCoreStreamEvent :=
| text (content : option string)
| reasoning (reasoning_content : option string)
| tool_call_start (tool_call_id tool_call_name : option string)
| tool_call_chunk (tool_call_id tool_call_arguments_chunk : option string)
| tool_call_end (tool_call_id tool_call_arguments_complete : option string)
| permission (p : Permission)
| usage (u : option Usage)
| image_data (d : option Shared.ImageData)
| rate_limit (r : option Shared.RateLimit)
| error (error_message : option string)
| stop
| other.

Record ChunkStream := {
  chunks : list LLMCoreStreamEvent;
  failure : option Shared.Thrown
}.

(** An entry of [activeStreams]; the abort controller and the provider it
    also holds are objects, the signal is read through [aborted] below. *)
Record StreamState := {
  isGenerating : bool;
  ss_providerId : string;
  ss_modelId : string
}.

(** What [getProviderInstance(providerId)] gives: it throws, or returns a
    provider that is not the ACP one, or the ACP provider, whose
    [runSlashCommand] stream is then the argument. *)
Inductive ProviderInstance :=
| unavailable (e : Shared.Thrown)
| notAcp
| acp (run : ChunkStream).

(** [a ?? b]. *)
Definition orElse {A : Type} (a b : option A) : option A :=
  match a with
  | Some _ => a
  | None => b
  end.

Definition orDefault (a : option string) (d : string) : string :=
  match a with
  | Some s => s
  | None => d
  end.

(** What [toolCallChunks[id]] can reach outside the variables of the loop:
    the functions every object inherits from [Object.prototype], and
    [Object.prototype] itself, which the accessor [__proto__] hands out.
    The loop writes one property on what it reaches, [arguments_chunk]; what
    an earlier session wrote there is still there when the next one starts,
    so the realm a session starts in is an argument. *)
Record Realm := {
  prototypeArguments : option string;  (* Object.prototype.arguments_chunk *)
  memberArguments : list (string * string)
    (* the own arguments_chunk of an inherited function, by the name it is
       inherited under *)
}.

(** The realm as the runtime creates it. *)
Definition pristine : Realm :=
  {| prototypeArguments := None; memberArguments := [] |}.

(** The own properties of [toolCallChunks], a plain object used as a
    dictionary by tool-call id. *)
Definition ToolCallChunks : Type := list (string * (string * string)).

(** [prototype] is the prototype of [toolCallChunks] when an assignment to
    [toolCallChunks['__proto__']] has replaced it: the entry assigned then,
    which itself inherits from [Object.prototype]. *)
Record LoopState := {
  totalUsage : Shared.TotalUsage;
  toolCallChunks : ToolCallChunks;
  prototype : option (string * string);
  realm : Realm
}.

(** What [toolCallChunks[id]] evaluates to. *)
Inductive Found :=
| entry (name arguments_chunk : string)             (* an own property *)
| replacedPrototype (name arguments_chunk : string) (* [__proto__], replaced *)
| objectPrototype                                   (* [__proto__] *)
| inheritedFunction (key : string)
| inheritedString (s : string)
| undefined.

(** The property lookup: own properties, then the accessor [__proto__],
    then the replaced prototype's [name] and [arguments_chunk], then
    [Object.prototype]. *)
Definition lookup (st : LoopState) (id : string) : Found :=
  match JsMap.get id (toolCallChunks st) with
  | Some (name, arguments_chunk) => entry name arguments_chunk
  | None =>
      if id =? "__proto__" then
        match prototype st with
        | Some (name, arguments_chunk) => replacedPrototype name arguments_chunk
        | None => objectPrototype
        end
      else
        match (match prototype st with
               | Some (name, arguments_chunk) =>
                   if id =? "name" then Some name
                   else if id =? "arguments_chunk" then Some arguments_chunk
                   else None
               | None => None
               end) with
        | Some s => inheritedString s
        | None =>
            if JS.one_of id JS.objectPrototypeKeys then inheritedFunction id
            else if id =? "arguments_chunk" then
              match prototypeArguments (realm st) with
              | Some s => inheritedString s
              | None => undefined
              end
            else undefined
        end
  end.

(** Truthiness of what was found: objects and functions, and the strings
    that are not empty. *)
Definition truthyFound (found : Found) : bool :=
  match found with
  | inheritedString s => JS.truthy s
  | undefined => false
  | _ => true
  end.

(** [F.name] of an inherited function: [constructor] is [Object]. *)
Definition memberName (key : string) : string :=
  if key =? "constructor" then "Object" else key.

(** [toolCallChunks[id].name]. *)
Definition nameOf (found : Found) : option string :=
  match found with
  | entry name _ => Some name
  | replacedPrototype name _ => Some name
  | inheritedFunction key => Some (memberName key)
  | _ => None
  end.

(** [toolCallChunks[id].arguments_chunk]: own, or inherited from
    [Object.prototype]. *)
Definition argumentsOf (st : LoopState) (found : Found) : option string :=
  match found with
  | entry _ arguments_chunk => Some arguments_chunk
  | replacedPrototype _ arguments_chunk => Some arguments_chunk
  | inheritedFunction key =>
      orElse (JsMap.get key (memberArguments (realm st)))
        (prototypeArguments (realm st))
  | objectPrototype => prototypeArguments (realm st)
  | inheritedString _ => prototypeArguments (realm st)
  | undefined => None
  end.

Definition setToolCallChunks (st : LoopState) (m : ToolCallChunks) : LoopState :=
  {| totalUsage := totalUsage st;
     toolCallChunks := m;
     prototype := prototype st;
     realm := realm st |}.

Definition setPrototype (st : LoopState) (p : string * string) : LoopState :=
  {| totalUsage := totalUsage st;
     toolCallChunks := toolCallChunks st;
     prototype := Some p;
     realm := realm st |}.

Definition setRealm (st : LoopState) (r : Realm) : LoopState :=
  {| totalUsage := totalUsage st;
     toolCallChunks := toolCallChunks st;
     prototype := prototype st;
     realm := r |}.

(** An agent event of a tool call whose name or parameters may be
    [undefined]. *)
Definition toolCallEvent (eventId tag id : string) (name params : option string)
  : Shared.LLMAgentEvent :=
  Shared.response
    {| Shared.eventId := Some eventId;
       Shared.content := None;
       Shared.reasoning_content := None;
       Shared.tool_call := Some tag;
       Shared.tool_call_id := Some id;
       Shared.tool_call_name := name;
       Shared.tool_call_params := params;
       Shared.tool_call_server_name := None;
       Shared.tool_call_server_icons := None;
       Shared.tool_call_server_description := None;
       Shared.tool_call_response := None;
       Shared.permission_request := None;
       Shared.totalUsage := None;
       Shared.image_data := None;
       Shared.rate_limit := None |}.

Definition toolCallData (eventId tag id name : string) (params : string)
  : Shared.LLMAgentEvent :=
  Shared.response
    {| Shared.eventId := Some eventId;
       Shared.content := None;
       Shared.reasoning_content := None;
       Shared.tool_call := Some tag;
       Shared.tool_call_id := Some id;
       Shared.tool_call_name := Some name;
       Shared.tool_call_params := Some params;
       Shared.tool_call_server_name := None;
       Shared.tool_call_server_icons := None;
       Shared.tool_call_server_description := None;
       Shared.tool_call_response := None;
       Shared.permission_request := None;
       Shared.totalUsage := None;
       Shared.image_data := None;
       Shared.rate_limit := None |}.

Definition permissionData (eventId : string) (p : Permission)
  : Shared.LLMAgentEvent :=
  let permissionType := orDefault (permissionType p) "read" in
  let description := orDefault (description p) "" in
  let toolName := orElse (p_tool_call_name p) (p_tool_call_id p) in
  let serverName :=
    orDefault (orElse (server_name p) (orElse (agentName p) (providerName p))) "" in
  Shared.response
    {| Shared.eventId := Some eventId;
       Shared.content := None;
       Shared.reasoning_content := None;
       Shared.tool_call := Some "permission-required";
       Shared.tool_call_id := p_tool_call_id p;
       Shared.tool_call_name := toolName;
       Shared.tool_call_params := p_tool_call_params p;
       Shared.tool_call_server_name := Some serverName;
       Shared.tool_call_server_icons := server_icons p;
       Shared.tool_call_server_description := orElse (server_description p) (agentName p);
       Shared.tool_call_response := Some description;
       Shared.permission_request :=
         Some {| Shared.toolName := toolName;
                 Shared.serverName := serverName;
                 Shared.permissionType := permissionType;
                 Shared.description := description;
                 Shared.pr_providerId := providerId p;
                 Shared.requestId := requestId p;
                 Shared.sessionId := sessionId p;
                 Shared.agentId := agentId p;
                 Shared.agentName := agentName p;
                 Shared.conversationId := conversationId p;
                 Shared.options := options p;
                 Shared.rememberable :=
                   match metadata_rememberable p with
                   | Some false => false
                   | _ => true
                   end |};
       Shared.totalUsage := None;
       Shared.image_data := None;
       Shared.rate_limit := None |}.

Definition simpleData (eventId : string) (content reasoning : option string)
    (u : option Shared.TotalUsage) (img : option Shared.ImageData)
    (rl : option Shared.RateLimit) : Shared.LLMAgentEvent :=
  Shared.response
    {| Shared.eventId := Some eventId;
       Shared.content := content;
       Shared.reasoning_content := reasoning;
       Shared.tool_call := None;
       Shared.tool_call_id := None;
       Shared.tool_call_name := None;
       Shared.tool_call_params := None;
       Shared.tool_call_server_name := None;
       Shared.tool_call_server_icons := None;
       Shared.tool_call_server_description := None;
       Shared.tool_call_response := None;
       Shared.permission_request := None;
       Shared.totalUsage := u;
       Shared.image_data := img;
       Shared.rate_limit := rl |}.

(** Assigning a property on a string throws in strict code; the message is
    the runtime's. *)
Definition cannotCreateProperty (s : string) : Shared.Thrown :=
  Shared.ErrorObject
    ("Cannot create property 'arguments_chunk' on string '" ++ s ++ "'").

(** The [switch (chunk.type)] of the loop body: the new loop state and the
    event it yields, if it yields one, or what it throws. *)
Definition onChunk (eventId : string) (st : LoopState) (chunk : LLMCoreStreamEvent)
  : LoopState * option Shared.LLMAgentEvent + Shared.Thrown :=
  match chunk with
  | text content =>
      match Presenter.present content with
      | Some c => inl (st, Some (simpleData eventId (Some c) None None None None))
      | None => inl (st, None)
      end
  | reasoning reasoning_content =>
      match Presenter.present reasoning_content with
      | Some c => inl (st, Some (simpleData eventId None (Some c) None None None))
      | None => inl (st, None)
      end
  | tool_call_start tool_call_id tool_call_name =>
      match Presenter.present tool_call_id, Presenter.present tool_call_name with
      | Some id, Some name =>
          inl (if id =? "__proto__"
               then setPrototype st (name, "")
               else setToolCallChunks st
                      (JsMap.set id (name, "") (toolCallChunks st)),
               Some (toolCallData eventId "start" id name ""))
      | _, _ => inl (st, None)
      end
  | tool_call_chunk tool_call_id tool_call_arguments_chunk =>
      match Presenter.present tool_call_id,
            Presenter.present tool_call_arguments_chunk with
      | Some id, Some fragment =>
          match lookup st id with
          | entry name arguments_chunk =>
              inl (setToolCallChunks st
                     (JsMap.set id (name, arguments_chunk ++ fragment)
                        (toolCallChunks st)),
                   Some (toolCallData eventId "update" id name
                           (arguments_chunk ++ fragment)))
          | replacedPrototype name arguments_chunk =>
              inl (setPrototype st (name, arguments_chunk ++ fragment),
                   Some (toolCallData eventId "update" id name
                           (arguments_chunk ++ fragment)))
          | objectPrototype =>
              let arguments_chunk :=
                Presenter.interpolate (prototypeArguments (realm st)) ++ fragment in
              inl (setRealm st
                     {| prototypeArguments := Some arguments_chunk;
                        memberArguments := memberArguments (realm st) |},
                   Some (toolCallEvent eventId "update" id None
                           (Some arguments_chunk)))
          | inheritedFunction key =>
              let arguments_chunk :=
                Presenter.interpolate (argumentsOf st (inheritedFunction key))
                ++ fragment in
              inl (setRealm st
                     {| prototypeArguments := prototypeArguments (realm st);
                        memberArguments :=
                          JsMap.set key arguments_chunk
                            (memberArguments (realm st)) |},
                   Some (toolCallEvent eventId "update" id
                           (Some (memberName key)) (Some arguments_chunk)))
          | inheritedString s =>
              if JS.truthy s then inr (cannotCreateProperty s) else inl (st, None)
          | undefined => inl (st, None)
          end
      | _, _ => inl (st, None)
      end
  | tool_call_end tool_call_id tool_call_arguments_complete =>
      match Presenter.present tool_call_id with
      | Some id =>
          match lookup st id with
          | entry name arguments_chunk =>
              inl (setToolCallChunks st (JsMap.delete id (toolCallChunks st)),
                   Some (toolCallData eventId "update" id name
                           (orDefault tool_call_arguments_complete arguments_chunk)))
          | found =>
              if truthyFound found then
                inl (setToolCallChunks st (JsMap.delete id (toolCallChunks st)),
                     Some (toolCallEvent eventId "update" id (nameOf found)
                             (orElse tool_call_arguments_complete
                                (argumentsOf st found))))
              else inl (st, None)
          end
      | None => inl (st, None)
      end
  | permission p => inl (st, Some (permissionData eventId p))
  | usage u =>
      match u with
      | Some u =>
          let total :=
            {| Shared.prompt_tokens :=
                 Shared.prompt_tokens (totalUsage st) + prompt_tokens u;
               Shared.completion_tokens :=
                 Shared.completion_tokens (totalUsage st) + completion_tokens u;
               Shared.total_tokens :=
                 Shared.total_tokens (totalUsage st) + total_tokens u;
               Shared.context_length := Shared.context_length (totalUsage st) |}%N in
          inl ({| totalUsage := total;
                  toolCallChunks := toolCallChunks st;
                  prototype := prototype st;
                  realm := realm st |},
               Some (simpleData eventId None None (Some total) None None))
      | None => inl (st, None)
      end
  | image_data d =>
      match d with
      | Some d => inl (st, Some (simpleData eventId None None None (Some d) None))
      | None => inl (st, None)
      end
  | rate_limit r =>
      match r with
      | Some r => inl (st, Some (simpleData eventId None None None None (Some r)))
      | None => inl (st, None)
      end
  | error error_message =>
      inl (st, Some (Shared.error (Some eventId)
                       (match Presenter.present error_message with
                        | Some m => m
                        | None => "Provider stream error"
                        end)))
  | stop => inl (st, None)
  | other => inl (st, None)
  end.

(** The abort signal: never set, or set from some read on.  Reads are
    counted from 0: the guard at the top of the loop body is one read per
    chunk, the [finally] block is one more. *)
Definition aborted (abortedFrom : option nat) (read : nat) : bool :=
  match abortedFrom with
  | Some k => (k <=? read)%nat
  | None => false
  end.

(** How the [try] block was left. *)
Inductive Exit :=
| exhausted                       (* the provider stream ended *)
| sawAbort                        (* [break] on the abort signal *)
| abandoned                       (* the consumer called [return()] at a yield *)
| failed (e : Shared.Thrown).     (* the provider stream, or the loop body, threw *)

Record LoopResult := {
  yielded : list Shared.LLMAgentEvent;
  exit : Exit;
  reads : nat
}.

(** The [for await] loop inside the [try] block.  [leaveAt = Some p]: the
    consumer stops iterating when it is handed yielded event number [p]
    (counting from 0), which makes the generator resume with a return at that
    [yield]; [taken] counts the events handed over so far. *)
Fixpoint sessionLoop (eventId : string) (abortedFrom leaveAt : option nat)
    (read taken : nat) (st : LoopState)
    (chunks : list LLMCoreStreamEvent) (failure : option Shared.Thrown)
  : LoopResult :=
  match chunks with
  | [] =>
      {| yielded := [];
         exit := match failure with
                 | Some e => failed e
                 | None => exhausted
                 end;
         reads := read |}
  | chunk :: rest =>
      if aborted abortedFrom read
      then {| yielded := []; exit := sawAbort; reads := S read |}
      else
        match onChunk eventId st chunk with
        | inl (st', None) =>
            sessionLoop eventId abortedFrom leaveAt (S read) taken st' rest failure
        | inl (st', Some event) =>
            if match leaveAt with
               | Some p => (p =? taken)%nat
               | None => false
               end
            then {| yielded := [event]; exit := abandoned; reads := S read |}
            else
              let r := sessionLoop eventId abortedFrom leaveAt
                         (S read) (S taken) st' rest failure in
              {| yielded := event :: yielded r; exit := exit r; reads := reads r |}
        | inr e => {| yielded := []; exit := failed e; reads := S read |}
        end
  end.

(** What running the generator does, in order. *)
Inductive Effect :=
| registrySet (eventId : string) (state : StreamState)
| registryDelete (eventId : string)
| yield (event : Shared.LLMAgentEvent)
| throw (e : Shared.Thrown).

Definition initialLoopState (realm : Realm) : LoopState :=
  {| totalUsage :=
       {| Shared.prompt_tokens := 0;
          Shared.completion_tokens := 0;
          Shared.total_tokens := 0;
          Shared.context_length := 0 |};
     toolCallChunks := [];
     prototype := None;
     realm := realm |}.

(** What follows the [yield] of the [finally] block: what the provider
    stream or the loop body threw is rethrown when the consumer asks for the event after the
    end event; a consumer that stops at the end event sees no throw. *)
Definition rethrown (leaveAt : option nat) (r : LoopResult) : list Effect :=
  match exit r with
  | failed e =>
      if match leaveAt with
         | Some p => (p =? List.length (yielded r))%nat
         | None => false
         end
      then []
      else [throw e]
  | _ => []
  end.

(** [runSlashCommand], once the consumer has asked for the first event, in
    the realm the process is in by then.  The [end] event of the [finally]
    block is yielded on every way out of the [try] block. *)
Definition runSlashCommand (realm : Realm) (provider : ProviderInstance)
    (providerId modelId eventId : string) (abortedFrom leaveAt : option nat)
  : list Effect :=
  match provider with
  | unavailable e => [throw e]
  | notAcp =>
      [throw (Shared.ErrorObject "Slash commands are only supported for ACP provider")]
  | acp run =>
      let r := sessionLoop eventId abortedFrom leaveAt 0 0
                 (initialLoopState realm) (chunks run) (failure run) in
      [registrySet eventId
         {| isGenerating := true;
            ss_providerId := providerId;
            ss_modelId := modelId |}]
      ++ map yield (yielded r)
      ++ [registryDelete eventId;
          yield (Shared.end_ (Some eventId) (aborted abortedFrom (reads r)))]
      ++ rethrown leaveAt r
  end.

(** [activeStreams] after the effects of a run. *)
Definition applyEffect (registry : list (string * StreamState)) (e : Effect)
  : list (string * StreamState) :=
  match e with
  | registrySet eventId state => JsMap.set eventId state registry
  | registryDelete eventId => JsMap.delete eventId registry
  | _ => registry
  end.

Definition activeStreamsAfter (registry : list (string * StreamState))
    (effects : list Effect) : list (string * StreamState) :=
  fold_left applyEffect effects registry.

(** The events a run hands to its consumer, in order. *)
Definition emitted (effects : list Effect) : list Shared.LLMAgentEvent :=
  flat_map (fun e => match e with
                     | yield event => [event]
                     | _ => []
                     end) effects.

(** How many times a run deletes [eventId] from [activeStreams]. *)
Definition deletions (eventId : string) (effects : list Effect) : nat :=
  List.length
    (filter (fun e => match e with
                      | registryDelete k => k =? eventId
                      | _ => false
                      end) effects).


End LLMProviderPresenter.

(* ------------------------------------------------------------------ *)
(** ** The session behind [startStreamCompletion] *)

Module AgentLoop.

Import LLMProviderPresenter.

(** Modelled from the spec: what the backend provider of a session emits.
    [startStreamCompletion] of llmProviderPresenter/index.ts only delegates
    to [agentLoopHandler.startStreamCompletion], which is not under src/.
    The spec (3, Canonical Agent Event) has the provider emit [response]
    events and at most one [error] event; the [end] event is the session's
    own. *)
Inductive ProviderEvent :=
| responded (d : Shared.ResponseData)
| errored (message : string).

(** Modelled from the spec: the provider's events in emission order, and the
    uncaught failure the producing loop ends with, if it ends with one
    (4.3 names that exit path). *)
Record ProviderStream := {
  produced : list ProviderEvent;
  uncaught : option Shared.Thrown
}.

(** Modelled from the spec: the producing loop of
    [agentLoopHandler.startStreamCompletion].  From 3, 4.3 and 5: events are
    handed out in emission order; the cancellation token is observed at each
    event boundary, and the loop is left when it is set; an [error] event
    also terminates the session.  [abortedFrom], [leaveAt], [read] and
    [taken] are as in [LLMProviderPresenter.sessionLoop]. *)
Fixpoint agentLoop (eventId : string) (abortedFrom leaveAt : option nat)
    (read taken : nat) (produced : list ProviderEvent)
    (uncaught : option Shared.Thrown) : LoopResult :=
  match produced with
  | [] =>
      {| yielded := [];
         exit := match uncaught with
                 | Some e => failed e
                 | None => exhausted
                 end;
         reads := read |}
  | item :: rest =>
      if aborted abortedFrom read
      then {| yielded := []; exit := sawAbort; reads := S read |}
      else
        let leaves := match leaveAt with
                      | Some p => (p =? taken)%nat
                      | None => false
                      end in
        match item with
        | responded d =>
            if leaves
            then {| yielded := [Shared.response d]; exit := abandoned;
                    reads := S read |}
            else
              let r := agentLoop eventId abortedFrom leaveAt
                         (S read) (S taken) rest uncaught in
              {| yielded := Shared.response d :: yielded r;
                 exit := exit r;
                 reads := reads r |}
        | errored message =>
            {| yielded := [Shared.error (Some eventId) message];
               exit := if leaves then abandoned else exhausted;
               reads := S read |}
        end
  end.

(** Modelled from the spec: the session [startStreamCompletion] hands to its
    consumer.  From 3 and 4.3: the session is registered under its event id
    when it starts; a guaranteed-cleanup block around the producing loop
    deregisters it and emits the terminal [end] event, with [userStop] as
    the cancellation token reads, on every exit path: exhaustion,
    cancellation, an uncaught failure, a consumer that stops iterating. *)
Definition startStreamCompletion (provider : ProviderStream)
    (providerId modelId eventId : string) (abortedFrom leaveAt : option nat)
  : list Effect :=
  let r := agentLoop eventId abortedFrom leaveAt 0 0
             (produced provider) (uncaught provider) in
  [registrySet eventId
     {| isGenerating := true;
        ss_providerId := providerId;
        ss_modelId := modelId |}]
  ++ map yield (yielded r)
  ++ [registryDelete eventId;
      yield (Shared.end_ (Some eventId) (aborted abortedFrom (reads r)))]
  ++ rethrown leaveAt r.

End AgentLoop.

(* ------------------------------------------------------------------ *)
(** ** Vocabulary of the properties *)

(** The two fragments of the gating example; together they spell the
    object with the one member a, of value 1. *)
Definition fragment1 : string := "{" ++ JSON.dq ++ "a" ++ JSON.dq ++ ":".
Definition fragment2 : string := "1}".

(** [chunk.choices[0].delta.tool_calls[0].function.arguments]. *)
Definition first (j : option json) : option json :=
  match j with
  | Some (JArr (x :: _)) => Some x
  | _ => None
  end.

Definition at_ (key : string) (j : option json) : option json :=
  match j with
  | Some j => field key j
  | None => None
  end.

Definition functionArguments (chunk : json) : option json :=
  at_ "arguments"
    (at_ "function"
       (first (at_ "tool_calls" (at_ "delta" (first (at_ "choices" (Some chunk))))))).

(** [delta.partial_json] of a content-block delta. *)
Definition partialJson (event : json) : option json :=
  at_ "partial_json" (at_ "delta" (Some event)).

(** No reason was set: [undefined], or the empty string, which [!reason]
    does not tell apart. *)
Definition unset (reason : option string) : Prop :=
  reason = None \/ reason = Some "".

(** The reasons the two tables name. *)
Definition namedReasons : list string :=
  ["complete"; "stop"; "end_turn"; "max_tokens"; "length";
   "tool_use"; "tool_calls"; "function_call"; "stop_sequence"].

(** A request is rejected: the response is a 400 whose body is the
    endpoint's envelope with the type invalid_request_error, and nothing
    else is done. *)
Definition rejected (envelope : string -> string -> json)
    (actions : list Presenter.Action) : Prop :=
  exists message : string,
    actions
    = [Presenter.writeHead 400 "application/json";
       Presenter.end_response
         (Some (Response.envelope (envelope "invalid_request_error" message)))].

(** A server with no defaults and no key, where every provider is known. *)
Definition plainConfig : Presenter.AnthropicApiServerConfig :=
  {| Presenter.port := 3456%N;
     Presenter.host := "0.0.0.0";
     Presenter.apiKey := None;
     Presenter.defaultProviderId := None;
     Presenter.defaultModelId := None |}.

Definition plainEnvironment (stream : Shared.EventStream) : Presenter.Environment :=
  {| Presenter.providerKnown := fun _ => true;
     Presenter.stream := stream;
     Presenter.freshId := "id-1";
     Presenter.eventId := "event-1";
     Presenter.now := 1700000000%N;
     Presenter.destroyed := fun _ => false |}.

(** The agent events used as inputs below. *)
Definition startEvent (id name : string) : Shared.LLMAgentEvent :=
  LLMProviderPresenter.toolCallData "event-1" "start" id name "".

Definition updateEvent (id name params : string) : Shared.LLMAgentEvent :=
  LLMProviderPresenter.toolCallData "event-1" "update" id name params.

Definition textEvent (content : string) : Shared.LLMAgentEvent :=
  LLMProviderPresenter.simpleData "event-1" (Some content) None None None None.

Definition endEvent : Shared.LLMAgentEvent := Shared.end_ (Some "event-1") false.

Definition errorEvent (message : string) : Shared.LLMAgentEvent :=
  Shared.error (Some "event-1") message.

Definition streamOf (events : list Shared.LLMAgentEvent) : Shared.EventStream :=
  {| Shared.events := events; Shared.failure := None |}.

(** A request that is well formed but for its empty [messages] array. *)
Definition emptyMessagesRequest : Request.t :=
  {| Request.model := Some "p/m";
     Request.messages := Request.array 0;
     Request.max_tokens := Some 1024%N;
     Request.stream := false |}.

(** The bodies a handler sent with [res.end]. *)
Definition bodies (actions : list Presenter.Action) : list Response.Body :=
  flat_map (fun a => match a with
                     | Presenter.end_response (Some body) => [body]
                     | _ => []
                     end) actions.

(** The text a stream of events adds up to: [content], then
    [reasoning_content], of every [response] event, in order. *)
Definition textOf (event : Shared.LLMAgentEvent) : string :=
  match event with
  | Shared.response d =>
      match Presenter.present (Shared.content d) with
      | Some c => c
      | None => ""
      end
      ++ match Presenter.present (Shared.reasoning_content d) with
         | Some c => c
         | None => ""
         end
  | _ => ""
  end.

Definition accumulatedText (events : list Shared.LLMAgentEvent) : string :=
  fold_right (fun event rest => textOf event ++ rest) "" events.

(** The id a tool-call start event starts. *)
Definition startedId (event : Shared.LLMAgentEvent) : option string :=
  match event with
  | Shared.response d =>
      match Presenter.toolCallStart d with
      | Some (id, _) => Some id
      | None => None
      end
  | _ => None
  end.

(** Ids in the order of their first start. *)
Definition addFirst (ids : list string) (id : string) : list string :=
  if existsb (String.eqb id) ids then ids else ids ++ [id].

Definition firstStartsFrom (ids : list string)
    (events : list Shared.LLMAgentEvent) : list string :=
  fold_left (fun ids event =>
               match startedId event with
               | Some id => addFirst ids id
               | None => ids
               end) events ids.

Definition firstStarts (events : list Shared.LLMAgentEvent) : list string :=
  firstStartsFrom [] events.

Definition isError (event : Shared.LLMAgentEvent) : bool :=
  match event with
  | Shared.error _ _ => true
  | _ => false
  end.

Definition toolUseId (block : Response.ContentBlock) : option string :=
  match block with
  | Response.tool_use_block id _ _ => Some id
  | Response.text _ => None
  end.

(** The [tool_use] block pushed for an entry of [toolCalls]. *)
Definition toolUseBlock (entry : string * (string * Response.ToolInput))
  : Response.ContentBlock :=
  match entry with
  | (id, (name, input)) => Response.tool_use_block id name input
  end.

Definition isWrite (a : Presenter.Action) : bool :=
  match a with
  | Presenter.write _ => true
  | _ => false
  end.

(** The same surroundings with another list of events from the provider. *)
Definition withEvents (env : Presenter.Environment)
    (events : list Shared.LLMAgentEvent) : Presenter.Environment :=
  {| Presenter.providerKnown := Presenter.providerKnown env;
     Presenter.stream :=
       {| Shared.events := events;
          Shared.failure := Shared.failure (Presenter.stream env) |};
     Presenter.freshId := Presenter.freshId env;
     Presenter.eventId := Presenter.eventId env;
     Presenter.now := Presenter.now env;
     Presenter.destroyed := Presenter.destroyed env |}.

(** The states an Anthropic encoder goes through in a session: the new
    builder, and what its state-changing methods make of a state. *)
Inductive reachable : ResponseConverter.StreamingResponseBuilder -> Prop :=
| reach_new (messageId model : string) :
    reachable (ResponseConverter.newBuilder messageId model)
| reach_start (b : ResponseConverter.StreamingResponseBuilder) (id name : string) :
    reachable b -> reachable (fst (ResponseConverter.handleToolCallStart b id name))
| reach_chunk (b : ResponseConverter.StreamingResponseBuilder) (id chunk : string) :
    reachable b -> reachable (fst (ResponseConverter.handleToolCallChunk b id chunk))
| reach_usage (b : ResponseConverter.StreamingResponseBuilder) (i o : N) :
    reachable b -> reachable (ResponseConverter.setUsage b i o)
| reach_stop (b : ResponseConverter.StreamingResponseBuilder) (reason : string) :
    reachable b -> reachable (ResponseConverter.setStopReason b reason).

(* ------------------------------------------------------------------ *)
(** ** Canonical chat messages *)

Module Chat.

(** A part of a multimodal content. *)
Inductive Part :=
| textPart (text : string)
| imageUrlPart (url : string).

(** [content] of a chat message: a string, an array of parts, or [null]. *)
Inductive Content :=
| plain (text : string)
| parts (items : list Part)
| null.

(** An entry of [tool_calls]; its [type] is always the string function. *)
Record ToolCall := {
  id : string;
  name : string;
  arguments : string
}.

(** Modelled from the spec: the canonical message both converters produce
    ([ChatMessage] of [@shared/presenter], which the sources do not carry):
    a role, a content, and the optional [tool_calls] and [tool_call_id]. *)
Record ChatMessage := {
  role : string;
  content : Content;
  tool_calls : option (list ToolCall);
  tool_call_id : option string
}.

(** An object literal with [role] and [content] only. *)
Definition message (role : string) (content : Content) : ChatMessage :=
  {| role := role; content := content; tool_calls := None; tool_call_id := None |}.

(** A converted tool definition; the schema is passed on unread. *)
Record Tool := {
  tool_name : string;
  tool_description : string;
  inputSchema : option Shared.Opaque
}.

End Chat.

(* ------------------------------------------------------------------ *)
(** ** The Anthropic message converter (messageConverter, in index.ts) *)

Module MessageConverter.

(** [source] of an image block. *)
Record ImageSource := {
  source_type : string;
  media_type : string;
  data : string
}.

(** [content] of a tool result: a string, or blocks, which the converter
    only hands to [JSON.stringify]; [serialized] is the text that gives. *)
Inductive ResultContent :=
| resultText (text : string)
| resultBlocks (serialized : string).

(** A content block of a request.  [input] of a [tool_use] block is an
    object the converter only hands to [JSON.stringify]; [serialized] is the
    text that gives.  [other] is a block of any other type. *)
Inductive Block :=
| text (text : string)
| image (source : option ImageSource)
| tool_use (id name serialized : string)
| tool_result (tool_use_id : string) (content : ResultContent)
| other.

Inductive MessageContent :=
| contentString (text : string)
| contentBlocks (blocks : list Block).

Record ClaudeMessage := {
  role : string;
  content : MessageContent
}.

(** [request.system]: absent, a string, or an array of blocks. *)
Inductive System :=
| noSystem
| systemString (text : string)
| systemBlocks (blocks : list Block).

Record ClaudeTool := {
  name : string;
  description : option string;
  input_schema : option Shared.Opaque
}.

(** The fields of a request the converter reads; [tools] is [None] when
    absent. *)
Record ClaudeMessagesRequest := {
  system : System;
  messages : list ClaudeMessage;
  tools : option (list ClaudeTool)
}.

(** [texts.join(sep)]. *)
Fixpoint join (sep : string) (texts : list string) : string :=
  match texts with
  | [] => ""
  | [t] => t
  | t :: rest => t ++ sep ++ join sep rest
  end.

Definition textOfBlock (b : Block) : list string :=
  match b with
  | text t => [t]
  | _ => []
  end.

(** [blocks.filter(b => b.type === 'text').map(b => b.text)]. *)
Definition texts (blocks : list Block) : list string :=
  flat_map textOfBlock blocks.

(** The loop of [convertUserMessage] over the blocks. *)
Definition userPart (b : Block) : list Chat.Part :=
  match b with
  | text t => [Chat.textPart t]
  | image (Some source) =>
      if source_type source =? "base64"
      then [Chat.imageUrlPart
              ("data:" ++ media_type source ++ ";base64," ++ data source)]
      else []
  | _ => []
  end.

Definition convertUserMessage (msg : ClaudeMessage) : Chat.ChatMessage :=
  match content msg with
  | contentString s => Chat.message "user" (Chat.plain s)
  | contentBlocks blocks =>
      let contentParts := flat_map userPart blocks in
      match contentParts with
      | [Chat.textPart t] => Chat.message "user" (Chat.plain t)
      | _ => Chat.message "user" (Chat.parts contentParts)
      end
  end.

Definition toolCallOfBlock (b : Block) : list Chat.ToolCall :=
  match b with
  | tool_use id name serialized =>
      [{| Chat.id := id; Chat.name := name; Chat.arguments := serialized |}]
  | _ => []
  end.

Definition convertAssistantMessage (msg : ClaudeMessage) : Chat.ChatMessage :=
  match content msg with
  | contentString s => Chat.message "assistant" (Chat.plain s)
  | contentBlocks blocks =>
      let textParts := texts blocks in
      let toolCalls := flat_map toolCallOfBlock blocks in
      {| Chat.role := "assistant";
         Chat.content :=
           if JS.truthy (join "" textParts)
           then Chat.plain (join "" textParts)
           else Chat.null;
         Chat.tool_calls :=
           if (0 <? List.length toolCalls)%nat then Some toolCalls else None;
         Chat.tool_call_id := None |}
  end.

(** The [tool] message pushed for a tool result of a user message. *)
Definition toolMessage (b : Block) : list Chat.ChatMessage :=
  match b with
  | tool_result tool_use_id content =>
      [{| Chat.role := "tool";
          Chat.content :=
            Chat.plain (match content with
                        | resultText s => s
                        | resultBlocks serialized => serialized
                        end);
          Chat.tool_calls := None;
          Chat.tool_call_id := Some tool_use_id |}]
  | _ => []
  end.

(** What one message of the request adds to the converted list. *)
Definition convertMessage (msg : ClaudeMessage) : list Chat.ChatMessage :=
  if role msg =? "user" then
    convertUserMessage msg
    :: match content msg with
       | contentString _ => []
       | contentBlocks blocks => flat_map toolMessage blocks
       end
  else if role msg =? "assistant" then [convertAssistantMessage msg]
  else [].

(** The text of the system prompt before it is trimmed. *)
Definition systemText (s : System) : string :=
  match s with
  | noSystem => ""
  | systemString t => t
  | systemBlocks blocks => join (LF ++ LF) (texts blocks)
  end.

Definition systemMessage (s : System) : list Chat.ChatMessage :=
  if JS.truthy (JS.trim (systemText s))
  then [Chat.message "system" (Chat.plain (JS.trim (systemText s)))]
  else [].

Definition convertTool (tool : ClaudeTool) : Chat.Tool :=
  {| Chat.tool_name := name tool;
     Chat.tool_description :=
       match Presenter.present (description tool) with
       | Some d => d
       | None => ""
       end;
     Chat.inputSchema := input_schema tool |}.

Definition convertClaudeToInternal (request : ClaudeMessagesRequest)
  : list Chat.ChatMessage * list Chat.Tool :=
  let converted := systemMessage (system request) in
  let converted :=
    fold_left (fun converted msg => (converted ++ convertMessage msg)%list)
      (messages request) converted in
  let convertedTools :=
    map convertTool (match tools request with
                     | Some declared => declared
                     | None => []
                     end) in
  (converted, convertedTools).

End MessageConverter.

(* ------------------------------------------------------------------ *)
(** ** The OpenAI message converter (openaiConverter.ts) *)

Module OpenAIConverter.

Inductive Part :=
| textPart (text : string)
| imageUrlPart (url : string)
| otherPart.

(** [content] of a message: a string, an array of parts, [null] or
    [undefined], or a value of any other kind. *)
Inductive MessageContent :=
| contentString (text : string)
| contentArray (items : list Part)
| contentNull
| contentOther.

Record OpenAIMessage := {
  role : string;
  content : MessageContent;
  tool_calls : option (list Chat.ToolCall);
  tool_call_id : option string
}.

Record OpenAITool := {
  name : string;
  description : option string;
  parameters : option Shared.Opaque
}.

Record OpenAIChatCompletionsRequest := {
  messages : list OpenAIMessage;
  tools : option (list OpenAITool)
}.

Definition textOfPart (p : Part) : list string :=
  match p with
  | textPart t => [t]
  | _ => []
  end.

Definition extractTextContent (c : MessageContent) : string :=
  match c with
  | contentNull => ""
  | contentString s => s
  | contentArray items => MessageConverter.join "" (flat_map textOfPart items)
  | contentOther => ""
  end.

Definition userPart (p : Part) : list Chat.Part :=
  match p with
  | textPart t => [Chat.textPart t]
  | imageUrlPart url => [Chat.imageUrlPart url]
  | otherPart => []
  end.

Definition convertUserMessage (msg : OpenAIMessage) : Chat.ChatMessage :=
  match content msg with
  | contentString s => Chat.message "user" (Chat.plain s)
  | contentArray items =>
      let contentParts := flat_map userPart items in
      match contentParts with
      | [Chat.textPart t] => Chat.message "user" (Chat.plain t)
      | _ => Chat.message "user" (Chat.parts contentParts)
      end
  | _ => Chat.message "user" (Chat.plain "")
  end.

Definition convertAssistantMessage (msg : OpenAIMessage) : Chat.ChatMessage :=
  {| Chat.role := "assistant";
     Chat.content := Chat.plain (extractTextContent (content msg));
     Chat.tool_calls :=
       match tool_calls msg with
       | Some calls =>
           if (0 <? List.length calls)%nat
           then Some (map (fun tc =>
                             {| Chat.id := Chat.id tc;
                                Chat.name := Chat.name tc;
                                Chat.arguments := Chat.arguments tc |}) calls)
           else None
       | None => None
       end;
     Chat.tool_call_id := None |}.

(** [convertOpenAIMessage]; [None] is [null]. *)
Definition convertOpenAIMessage (msg : OpenAIMessage) : option Chat.ChatMessage :=
  if role msg =? "system" then
    Some (Chat.message "system" (Chat.plain (extractTextContent (content msg))))
  else if role msg =? "user" then Some (convertUserMessage msg)
  else if role msg =? "assistant" then Some (convertAssistantMessage msg)
  else if role msg =? "tool" then
    Some {| Chat.role := "tool";
            Chat.content := Chat.plain (extractTextContent (content msg));
            Chat.tool_calls := None;
            Chat.tool_call_id := tool_call_id msg |}
  else None.

Definition convertTool (tool : OpenAITool) : Chat.Tool :=
  {| Chat.tool_name := name tool;
     Chat.tool_description :=
       match Presenter.present (description tool) with
       | Some d => d
       | None => ""
       end;
     Chat.inputSchema :=
       match parameters tool with
       | Some schema => Some schema
       | None => Some (Shared.opaque "{}")
       end |}.

Definition convertOpenAIToInternal (request : OpenAIChatCompletionsRequest)
  : list Chat.ChatMessage * list Chat.Tool :=
  let converted :=
    fold_left
      (fun converted msg =>
         match convertOpenAIMessage msg with
         | Some m => (converted ++ [m])%list
         | None => converted
         end)
      (messages request) [] in
  let convertedTools :=
    map convertTool (match tools request with
                     | Some declared => declared
                     | None => []
                     end) in
  (converted, convertedTools).

End OpenAIConverter.

(* ------------------------------------------------------------------ *)
(** ** The other handlers of [AnthropicApiPresenter] and its dispatcher *)

Module Server.

Import Presenter.

(** *** POST /v1/messages/count_tokens *)

(** The body as [handleCountTokens] reads it; [messages] is [None] when the
    property is missing, which makes the loop over it throw. *)
Record ClaudeTokenCountRequest := {
  system : MessageConverter.System;
  messages : option (list MessageConverter.ClaudeMessage)
}.

Inductive ParsedTokenCount :=
| invalidJson
| jsonNull
| value (request : ClaudeTokenCountRequest).

Definition blockChars (totalChars : nat) (b : MessageConverter.Block) : nat :=
  match b with
  | MessageConverter.text t => totalChars + String.length t
  | _ => totalChars
  end.

Definition systemChars (s : MessageConverter.System) : nat :=
  match s with
  | MessageConverter.noSystem => 0
  | MessageConverter.systemString t => String.length t
  | MessageConverter.systemBlocks blocks => fold_left blockChars blocks 0
  end.

Definition messageChars (totalChars : nat) (msg : MessageConverter.ClaudeMessage)
  : nat :=
  match MessageConverter.content msg with
  | MessageConverter.contentString s => totalChars + String.length s
  | MessageConverter.contentBlocks blocks => fold_left blockChars blocks totalChars
  end.

(** [Math.max(1, Math.floor(totalChars / 4))]. *)
Definition estimateTokens (totalChars : nat) : nat := Nat.max 1 (totalChars / 4).

Definition countChars (request : ClaudeTokenCountRequest)
    (msgs : list MessageConverter.ClaudeMessage) : nat :=
  fold_left messageChars msgs (systemChars (system request)).

Definition handleCountTokens (body : ParsedTokenCount)
  : list Action * option Shared.Thrown :=
  match body with
  | invalidJson => (sendError 400 "invalid_request_error" "Invalid JSON body", None)
  | jsonNull => ([], Some (nullPropertyRead "system"))
  | value request =>
      match messages request with
      | None => ([], Some (Shared.ErrorObject "request.messages is not iterable"))
      | Some msgs =>
          ([writeHead 200 "application/json";
            end_response
              (Some (Response.envelope
                       (JObj [("input_tokens",
                               JNum (N.of_nat (estimateTokens (countChars request msgs))))])))],
           None)
      end
  end.

(** *** GET /v1/models *)

(** A provider as [handleListModels] sees it: [models] is [None] when
    [getModelList] fails for it. *)
Record Provider := {
  id : string;
  name : option string;
  enable : bool;
  models : option (list string)
}.

Definition modelEntry (created : N) (provider : Provider) (modelId : string) : json :=
  JObj [("id", JStr (listedModelId (id provider) modelId));
        ("object", JStr "model");
        ("created", JNum created);
        ("owned_by", JStr (match present (name provider) with
                           | Some n => n
                           | None => id provider
                           end))].

(** The entries one provider adds to the list. *)
Definition providerEntries (created : N) (provider : Provider) : list json :=
  if negb (enable provider) then []
  else match models provider with
       | Some providerModels => map (modelEntry created provider) providerModels
       | None => []
       end.

(** [handleListModels]; [providers] is [inr] when [getProviders] throws. *)
Definition handleListModels (created : N)
    (providers : list Provider + Shared.Thrown) : list Action :=
  match providers with
  | inl providers =>
      let listed :=
        fold_left (fun listed provider =>
                     (listed ++ providerEntries created provider)%list)
          providers [] in
      [writeHead 200 "application/json";
       end_response
         (Some (Response.envelope
                  (JObj [("object", JStr "list"); ("data", JArr listed)])))]
  | inr e => sendError 500 "api_error" (Shared.messageOf e)
  end.

(** *** The dispatcher *)

(** The [x-api-key] header: absent, one value, or several. *)
Inductive HeaderValue :=
| missing
| single (value : string)
| several.

(** A request as [handleRequest] reads it.  [pathname] is what the URL
    constructor makes of [req.url] and the [Host] header; [None] when it
    throws. *)
Record IncomingMessage := {
  method : string;
  pathname : option string;
  authorization : option string;
  x_api_key : HeaderValue
}.

(** What [handleRequest] does to [res], in order. *)
Inductive ServerAction :=
| setHeader (name value : string)
| writeHeadBare (status : N)
| endBare
| handled (a : Action).

(** What each handler would do with the request; the dispatcher runs at
    most one of them. *)
Record Handlers := {
  onMessages : list Action * option Shared.Thrown;
  onCountTokens : list Action * option Shared.Thrown;
  onChatCompletions : list Action * option Shared.Thrown;
  onListModels : list Action;
  onHealth : list Action;
  onRoot : list Action
}.

(** [s.startsWith(prefix)]. *)
Fixpoint startsWith (prefix s : string) : bool :=
  match prefix, s with
  | EmptyString, _ => true
  | String a p, String b r => Ascii.eqb a b && startsWith p r
  | String _ _, EmptyString => false
  end.

(** [s.slice(n)]. *)
Fixpoint slice (n : nat) (s : string) : string :=
  match n, s with
  | O, _ => s
  | S n', String _ r => slice n' r
  | S _, EmptyString => EmptyString
  end.

(** The key a request presents; [None] is [null]. *)
Definition providedKey (req : IncomingMessage) : option string :=
  match present (match authorization req with
                 | Some authHeader =>
                     if startsWith "Bearer " authHeader
                     then Some (slice 7 authHeader)
                     else None
                 | None => None
                 end) with
  | Some key => Some key
  | None =>
      match x_api_key req with
      | single apiKeyHeader => Some apiKeyHeader
      | _ => None
      end
  end.

Definition corsHeaders : list ServerAction :=
  [setHeader "Access-Control-Allow-Origin" "*";
   setHeader "Access-Control-Allow-Methods" "GET, POST, OPTIONS";
   setHeader "Access-Control-Allow-Headers"
     "Content-Type, Authorization, X-Api-Key, anthropic-version"].

(** The [if]/[else if] chain on method and path. *)
Definition route (method path : string) (h : Handlers)
  : list Action * option Shared.Thrown :=
  if (method =? "POST") && (path =? "/v1/messages") then onMessages h
  else if (method =? "POST") && (path =? "/v1/messages/count_tokens")
  then onCountTokens h
  else if (method =? "POST") && (path =? "/v1/chat/completions")
  then onChatCompletions h
  else if (method =? "GET") && (path =? "/v1/models") then (onListModels h, None)
  else if (method =? "GET") && (path =? "/health") then (onHealth h, None)
  else if (method =? "GET") && (path =? "/") then (onRoot h, None)
  else (sendError 404 "not_found" ("Endpoint not found: " ++ path), None).

(** [handleRequest]: what it does to [res], and what it throws if it does
    (the URL constructor is called outside the [try]). *)
Definition handleRequest (config : AnthropicApiServerConfig)
    (req : IncomingMessage) (h : Handlers)
  : list ServerAction * option Shared.Thrown :=
  if method req =? "OPTIONS" then
    ((corsHeaders ++ [writeHeadBare 204; endBare])%list, None)
  else
    match pathname req with
    | None => (corsHeaders, Some (Shared.ErrorObject "Invalid URL"))
    | Some path =>
        let dispatched :=
          map handled (handleRequestCatch (route (method req) path h)) in
        match present (apiKey config) with
        | Some key =>
            if match providedKey req with
               | Some provided => negb (provided =? key)
               | None => true
               end
            then
              ((corsHeaders
                ++ map handled
                     (sendError 401 "authentication_error" "Invalid API key"))%list,
               None)
            else ((corsHeaders ++ dispatched)%list, None)
        | None => ((corsHeaders ++ dispatched)%list, None)
        end
    end.

End Server.

(* ------------------------------------------------------------------ *)
(** ** The registry of active streams (llmProviderPresenter/index.ts) *)

Module StreamRegistry.

(** An entry of [activeStreams] with the state of its abort controller's
    signal. *)
Record Entry := {
  state : LLMProviderPresenter.StreamState;
  signalAborted : bool
}.

Definition ActiveStreams : Type := list (string * Entry).

Definition isGenerating (activeStreams : ActiveStreams) (eventId : string) : bool :=
  JsMap.has eventId activeStreams.

(** [this.activeStreams.get(eventId) || null]. *)
Definition getStreamState (activeStreams : ActiveStreams) (eventId : string)
  : option Entry :=
  JsMap.get eventId activeStreams.

(** [stream.abortController.abort()] on the entry the map holds. *)
Definition abort (stream : Entry) : Entry :=
  {| state := state stream; signalAborted := true |}.

Definition stopStream (activeStreams : ActiveStreams) (eventId : string)
  : ActiveStreams :=
  match JsMap.get eventId activeStreams with
  | Some stream => JsMap.set eventId (abort stream) activeStreams
  | None => activeStreams
  end.

(** [stopStream] on each key the map held when [stopAllStreams] was
    called. *)
Definition stopAllStreams (activeStreams : ActiveStreams) : ActiveStreams :=
  fold_left stopStream (JsMap.keys activeStreams) activeStreams.

Definition canStartNewStream (activeStreams : ActiveStreams)
    (maxConcurrentStreams : nat) : bool :=
  (JsMap.size activeStreams <? maxConcurrentStreams)%nat.

End StreamRegistry.

(* ------------------------------------------------------------------ *)
(** ** The slash-command store of the renderer (stores/slashCommands.ts) *)

Module SlashCommandsStore.

(** Modelled from the spec: the payload of the session-commands event, of
    which the store reads these four fields; a command is kept as it comes. *)
Record AgentSessionCommandsPayload := {
  conversationId : option string;
  sessionId : option string;
  agentId : string;
  commands : list Shared.Opaque
}.

Record SlashCommandState := {
  st_sessionId : string;
  st_agentId : string;
  st_commands : list Shared.Opaque
}.

Definition CommandsByThread : Type := list (string * SlashCommandState).

Definition setCommands (commandsByThread : CommandsByThread)
    (payload : AgentSessionCommandsPayload) : CommandsByThread :=
  match Presenter.present (conversationId payload) with
  | None => commandsByThread
  | Some thread =>
      match (List.length (commands payload) =? 0)%nat,
            Presenter.present (sessionId payload) with
      | false, Some session =>
          JsMap.set thread
            {| st_sessionId := session;
               st_agentId := agentId payload;
               st_commands := commands payload |}
            commandsByThread
      | _, _ => JsMap.delete thread commandsByThread
      end
  end.

(** [commandsByThread.value.get(threadId) ?? null]. *)
Definition getCommands (commandsByThread : CommandsByThread) (threadId : string)
  : option SlashCommandState :=
  JsMap.get threadId commandsByThread.

Definition clearThread (commandsByThread : CommandsByThread) (threadId : string)
  : CommandsByThread :=
  JsMap.delete threadId commandsByThread.

End SlashCommandsStore.

(* ------------------------------------------------------------------ *)
(** ** Vocabulary of the further properties *)

(** The states an OpenAI chunk builder goes through in a session. *)
Inductive reachableOpenAI : OpenAIResponseBuilder.OpenAIStreamingBuilder -> Prop :=
| reachO_new (id model : string) (created : N) :
    reachableOpenAI (OpenAIResponseBuilder.newBuilder id model created)
| reachO_start (b : OpenAIResponseBuilder.OpenAIStreamingBuilder)
    (toolId toolName : string) :
    reachableOpenAI b ->
    reachableOpenAI (fst (OpenAIResponseBuilder.buildToolCallStartChunk b toolId toolName))
| reachO_args (b : OpenAIResponseBuilder.OpenAIStreamingBuilder)
    (toolId args : string) :
    reachableOpenAI b ->
    reachableOpenAI (fst (OpenAIResponseBuilder.buildToolCallArgsChunk b toolId args))
| reachO_usage (b : OpenAIResponseBuilder.OpenAIStreamingBuilder) (p c : N) :
    reachableOpenAI b -> reachableOpenAI (OpenAIResponseBuilder.setUsage b p c).

(** The builder after the fragments of a tool call are fed to it in order. *)
Definition feed (b : ResponseConverter.StreamingResponseBuilder) (toolId : string)
    (fragments : list string) : ResponseConverter.StreamingResponseBuilder :=
  fold_left (fun b fragment =>
               fst (ResponseConverter.handleToolCallChunk b toolId fragment))
    fragments b.

(** How many times a handler ended the response. *)
Definition ends (actions : list Presenter.Action) : nat :=
  List.length (filter (fun a => match a with
                                | Presenter.end_response _ => true
                                | _ => false
                                end) actions).

(** The event id an agent event carries. *)
Definition eventIdOf (event : Shared.LLMAgentEvent) : option string :=
  match event with
  | Shared.response d => Shared.eventId d
  | Shared.end_ evId _ => evId
  | Shared.error evId _ => evId
  end.

(** A response that was given one status line and was ended once, by its
    last action. *)
Definition answeredOnce (actions : list Presenter.Action) : Prop :=
  exists (status : N) (before : list Presenter.Action) (body : option Response.Body),
    Presenter.statuses actions = [status]
    /\ actions = (before ++ [Presenter.end_response body])%list
    /\ ends before = 0.

(** A provider whose models [handleListModels] lists: enabled, and
    [getModelList] returns for it. *)
Definition listable (provider : Server.Provider) : bool :=
  Server.enable provider
  && match Server.models provider with
     | Some _ => true
     | None => false
     end.

(** The [data] array of a model list, when the response is one. *)
Definition listedData (actions : list Presenter.Action) : option (list json) :=
  match actions with
  | [Presenter.writeHead 200 _;
     Presenter.end_response (Some (Response.envelope body))] =>
      match field "data" body with
      | Some (JArr data) => Some data
      | _ => None
      end
  | _ => None
  end.

(** The [id] of an entry of a model list. *)
Definition entryId (entry : json) : option string :=
  match field "id" entry with
  | Some (JStr id) => Some id
  | _ => None
  end.

(** The number of characters of the text blocks of a content. *)
Definition textChars (blocks : list MessageConverter.Block) : nat :=
  list_sum (map String.length (MessageConverter.texts blocks)).

(** The number of characters of the text a message holds: its string, or its
    text blocks. *)
Definition messageTextChars (msg : MessageConverter.ClaudeMessage) : nat :=
  match MessageConverter.content msg with
  | MessageConverter.contentString s => String.length s
  | MessageConverter.contentBlocks blocks => textChars blocks
  end.

Definition systemTextChars (s : MessageConverter.System) : nat :=
  match s with
  | MessageConverter.noSystem => 0
  | MessageConverter.systemString t => String.length t
  | MessageConverter.systemBlocks blocks => textChars blocks
  end.

(** The [input_tokens] of a token count, when the response is one. *)
Definition countedTokens (actions : list Presenter.Action) : option N :=
  match actions with
  | [Presenter.writeHead 200 _;
     Presenter.end_response (Some (Response.envelope body))] =>
      match field "input_tokens" body with
      | Some (JNum n) => Some n
      | _ => None
      end
  | _ => None
  end.

(** The ids of the tool results a request message carries where the
    converter looks for them: in the blocks of a user message. *)
Definition toolResultIds (msg : MessageConverter.ClaudeMessage) : list string :=
  if MessageConverter.role msg =? "user" then
    match MessageConverter.content msg with
    | MessageConverter.contentString _ => []
    | MessageConverter.contentBlocks blocks =>
        flat_map (fun block => match block with
                               | MessageConverter.tool_result id _ => [id]
                               | _ => []
                               end) blocks
    end
  else [].

(** The [tool_call_id] of each tool message of a converted list. *)
Definition toolMessageIds (converted : list Chat.ChatMessage) : list (option string) :=
  flat_map (fun m => if Chat.role m =? "tool" then [Chat.tool_call_id m] else [])
    converted.

(** The roles an OpenAI message is converted for. *)
Definition knownRole (role : string) : bool :=
  JS.one_of role ["system"; "user"; "assistant"; "tool"].

(** The states of the recogniser in which a value has just been read under
    the containers of [stack]: after a string, literal, array or object, or
    at the end of the digits of an integer. *)
Definition valueRead (st : JSON.State) (stack : list JSON.Container) : Prop :=
  st = (JSON.After, stack) \/ st = (JSON.Zero, stack) \/ st = (JSON.Int, stack).

(** Whether every code unit of a string is at or above the space, that is,
    none is a control character. *)
Fixpoint printable (s : string) : bool :=
  match s with
  | EmptyString => true
  | String a r => (32 <=? JSON.code a)%N && printable r
  end.

(** What [stringify] writes between the brackets of an array and between
    the braces of an object. *)
Fixpoint elements (first : bool) (items : list json) : string :=
  match items with
  | [] => ""
  | x :: r => (if first then "" else ",") ++ stringify x ++ elements false r
  end.

Fixpoint members (first : bool) (fields : list (string * json)) : string :=
  match fields with
  | [] => ""
  | (k, v) :: r =>
      (if first then "" else ",") ++ quote k ++ ":" ++ stringify v ++ members false r
  end.

(** The usage an agent event reports, if it reports one. *)
Definition usageOf (event : Shared.LLMAgentEvent) : option Shared.TotalUsage :=
  match event with
  | Shared.response d => Shared.totalUsage d
  | _ => None
  end.

(** The prompt and completion token counts of the last event that reported
    a usage, or the counts given when none did. *)
Definition lastUsageFrom (counts : N * N) (events : list Shared.LLMAgentEvent)
  : N * N :=
  fold_left (fun counts event =>
               match usageOf event with
               | Some u => (Shared.prompt_tokens u, Shared.completion_tokens u)
               | None => counts
               end) events counts.

(** The same surroundings with another provider stream. *)
Definition withStream (env : Presenter.Environment) (stream : Shared.EventStream)
  : Presenter.Environment :=
  {| Presenter.providerKnown := Presenter.providerKnown env;
     Presenter.stream := stream;
     Presenter.freshId := Presenter.freshId env;
     Presenter.eventId := Presenter.eventId env;
     Presenter.now := Presenter.now env;
     Presenter.destroyed := Presenter.destroyed env |}.

(** The arguments accumulated after each fragment of a tool call, starting
    from what was accumulated before. *)
Fixpoint runningArguments (accumulated : string) (fragments : list string)
  : list string :=
  match fragments with
  | [] => []
  | fragment :: rest =>
      (accumulated ++ fragment) :: runningArguments (accumulated ++ fragment) rest
  end.

(* ================================================================== *)
(** * Properties *)

(** ** JavaScript maps *)

Section JsMapFacts.

Context {V : Type}.

Lemma get_set_same (k : string) (v : V) (m : list (string * V)) :
  JsMap.get k (JsMap.set k v m) = Some v.
Proof.
  induction m as [|[k' v'] m IH]; simpl.
  - now rewrite String.eqb_refl.
  - destruct (k =? k') eqn:E; simpl; rewrite E; [reflexivity | exact IH].
Qed.

Lemma get_set_other (k k' : string) (v : V) (m : list (string * V)) :
  k <> k' -> JsMap.get k' (JsMap.set k v m) = JsMap.get k' m.
Proof.
  intros Hne. induction m as [|[k0 v0] m IH]; simpl.
  - destruct (k' =? k) eqn:E; [|reflexivity].
    apply String.eqb_eq in E. congruence.
  - destruct (k =? k0) eqn:E; simpl.
    + apply String.eqb_eq in E. subst k0.
      destruct (k' =? k) eqn:E'; [|reflexivity].
      apply String.eqb_eq in E'. congruence.
    + now rewrite IH.
Qed.

Lemma keys_set_present (k : string) (v v0 : V) (m : list (string * V)) :
  JsMap.get k m = Some v0 -> JsMap.keys (JsMap.set k v m) = JsMap.keys m.
Proof.
  unfold JsMap.keys. induction m as [|[k' v'] m IH]; simpl; [discriminate|].
  destruct (k =? k') eqn:E; simpl; intros H; [reflexivity|].
  now rewrite IH.
Qed.

Lemma keys_set_absent (k : string) (v : V) (m : list (string * V)) :
  JsMap.get k m = None -> (JsMap.keys (JsMap.set k v m) = JsMap.keys m ++ [k])%list.
Proof.
  unfold JsMap.keys. induction m as [|[k' v'] m IH]; simpl; [reflexivity|].
  destruct (k =? k') eqn:E; simpl; intros H; [discriminate|].
  now rewrite IH.
Qed.

Lemma size_set_pos (k : string) (v : V) (m : list (string * V)) :
  (0 <? JsMap.size (JsMap.set k v m))%nat = true.
Proof.
  destruct m as [|[k' v'] m]; simpl; [reflexivity|].
  now destruct (k =? k').
Qed.

End JsMapFacts.

(** ** Frames are never empty *)

Lemma formatSSE_not_empty (event : json) : ResponseConverter.formatSSE event <> "".
Proof. unfold ResponseConverter.formatSSE. simpl. discriminate. Qed.

Lemma formatOpenAISSE_not_empty (chunk : json) :
  OpenAIResponseBuilder.formatOpenAISSE chunk <> "".
Proof. unfold OpenAIResponseBuilder.formatOpenAISSE. simpl. discriminate. Qed.

(** ** The Anthropic encoder gates argument deltas on complete JSON *)

Section ToolArgumentDeltas.

Import ResponseConverter.

(** After [handleToolCallStart] the id is registered with an empty buffer and
    the next block index. *)
Lemma handleToolCallStart_registers (b : StreamingResponseBuilder)
    (toolId toolName : string) :
  JsMap.get toolId (currentToolCalls (fst (handleToolCallStart b toolId toolName)))
  = Some {| index := textBlockIndex b + (toolBlockCounter b + 1);
            name := toolName;
            argsBuffer := "";
            started := true |}.
Proof. simpl. apply get_set_same. Qed.

(** C1.  For a registered tool call id, [handleToolCallChunk] appends the
    fragment to the buffer of that id and returns one [input_json_delta]
    frame carrying the whole buffer exactly when the buffer parses as JSON,
    and the empty string otherwise.  Fed to a freshly started id, the first
    fragment of the example gives no output and the second gives one delta
    that carries both fragments joined. *)
Theorem handleToolCallChunk_gating :
  (forall (b : StreamingResponseBuilder) (toolId chunk : string) (toolCall : ToolCall),
      JsMap.get toolId (currentToolCalls b) = Some toolCall ->
      let buffer := argsBuffer toolCall ++ chunk in
      let b' := fst (handleToolCallChunk b toolId chunk) in
      let output := snd (handleToolCallChunk b toolId chunk) in
      JsMap.get toolId (currentToolCalls b')
      = Some {| index := index toolCall;
                name := name toolCall;
                argsBuffer := buffer;
                started := started toolCall |}
      /\ (JSON.parses buffer = true ->
          output = formatSSE (buildInputJsonDeltaEvent (index toolCall) buffer)
          /\ partialJson (buildInputJsonDeltaEvent (index toolCall) buffer)
             = Some (JStr buffer))
      /\ (JSON.parses buffer = false -> output = "")
      /\ (output <> "" <-> JSON.parses buffer = true))
  /\
  (forall (b : StreamingResponseBuilder) (toolId toolName : string),
      let b1 := fst (handleToolCallStart b toolId toolName) in
      let after1 := handleToolCallChunk b1 toolId fragment1 in
      let after2 := handleToolCallChunk (fst after1) toolId fragment2 in
      snd after1 = ""
      /\ snd after2
         = formatSSE
             (buildInputJsonDeltaEvent
                (textBlockIndex b + (toolBlockCounter b + 1))
                (fragment1 ++ fragment2))).
Proof.
  assert (General :
    forall (b : StreamingResponseBuilder) (toolId chunk : string) (toolCall : ToolCall),
      JsMap.get toolId (currentToolCalls b) = Some toolCall ->
      JsMap.get toolId (currentToolCalls (fst (handleToolCallChunk b toolId chunk)))
      = Some {| index := index toolCall;
                name := name toolCall;
                argsBuffer := argsBuffer toolCall ++ chunk;
                started := started toolCall |}
      /\ snd (handleToolCallChunk b toolId chunk)
         = if JSON.parses (argsBuffer toolCall ++ chunk)
           then formatSSE (buildInputJsonDeltaEvent (index toolCall)
                             (argsBuffer toolCall ++ chunk))
           else "").
  { intros b toolId chunk toolCall Hget.
    unfold handleToolCallChunk. rewrite Hget.
    destruct (JSON.parses (argsBuffer toolCall ++ chunk)); simpl;
      (split; [apply get_set_same | reflexivity]). }
  split.
  - intros b toolId chunk toolCall Hget buffer b' output.
    destruct (General b toolId chunk toolCall Hget) as [Hstate Hout].
    subst b' output buffer. rewrite Hout.
    split; [exact Hstate|].
    destruct (JSON.parses (argsBuffer toolCall ++ chunk)).
    + split; [intros _; split; reflexivity|].
      split; [discriminate|].
      split; [reflexivity | intros _; apply formatSSE_not_empty].
    + split; [discriminate|].
      split; [reflexivity|].
      split; [intros H; now contradiction H | discriminate].
  - intros b toolId toolName b1 after1 after2.
    pose proof (handleToolCallStart_registers b toolId toolName) as Hreg.
    fold b1 in Hreg.
    destruct (General b1 toolId fragment1 _ Hreg) as [Hstate1 Hout1].
    fold after1 in Hstate1, Hout1. cbn [argsBuffer index append] in Hstate1, Hout1.
    destruct (General (fst after1) toolId fragment2 _ Hstate1) as [_ Hout2].
    fold after2 in Hout2. cbn [argsBuffer index] in Hout2.
    split; [exact Hout1 | exact Hout2].
Qed.

End ToolArgumentDeltas.

(** ** The OpenAI encoder forwards every fragment *)

Section ToolArgumentForwarding.

Import OpenAIResponseBuilder.

Lemma buildToolCallStartChunk_registers (b : OpenAIStreamingBuilder)
    (toolId toolName : string) :
  JsMap.get toolId (currentToolCalls (fst (buildToolCallStartChunk b toolId toolName)))
  = Some {| index := toolCallIndex b; name := toolName; argsBuffer := "" |}.
Proof. simpl. apply get_set_same. Qed.

Lemma functionArguments_toolCallArgsChunk (b : OpenAIStreamingBuilder)
    (index : N) (args : string) :
  functionArguments (toolCallArgsChunk b index args) = Some (JStr args).
Proof. reflexivity. Qed.

(** C2.  For a started tool call id, [buildToolCallArgsChunk] returns one
    delta chunk whose [function.arguments] is the fragment as given, whatever
    the fragment is, and leaves the builder as it was (nothing is buffered);
    two fragments in a row give two chunks, each with its own fragment. *)
Theorem buildToolCallArgsChunk_forwards :
  forall (b : OpenAIStreamingBuilder) (toolId : string) (toolCall : ToolCall),
    JsMap.get toolId (currentToolCalls b) = Some toolCall ->
    (forall args : string,
        buildToolCallArgsChunk b toolId args
        = (b, formatOpenAISSE (toolCallArgsChunk b (index toolCall) args))
        /\ functionArguments (toolCallArgsChunk b (index toolCall) args)
           = Some (JStr args)
        /\ snd (buildToolCallArgsChunk b toolId args) <> "")
    /\
    (forall first second : string,
        let after1 := buildToolCallArgsChunk b toolId first in
        let after2 := buildToolCallArgsChunk (fst after1) toolId second in
        snd after1 = formatOpenAISSE (toolCallArgsChunk b (index toolCall) first)
        /\ snd after2 = formatOpenAISSE (toolCallArgsChunk b (index toolCall) second)).
Proof.
  intros b toolId toolCall Hget.
  assert (General : forall args,
             buildToolCallArgsChunk b toolId args
             = (b, formatOpenAISSE (toolCallArgsChunk b (index toolCall) args))).
  { intros args. unfold buildToolCallArgsChunk. now rewrite Hget. }
  split.
  - intros args. rewrite General. simpl snd.
    split; [reflexivity|].
    split; [apply functionArguments_toolCallArgsChunk|].
    apply formatOpenAISSE_not_empty.
  - intros first second after1 after2.
    subst after2 after1. rewrite (General first). simpl fst.
    rewrite (General second). split; reflexivity.
Qed.

End ToolArgumentForwarding.

(** ** Updates for an id that was never started *)

Section UnknownToolCallId.

Import Presenter.

Lemma toolCallUpdate_not_start (d : Shared.ResponseData) (id params : string) :
  toolCallUpdate d = Some (id, params) -> toolCallStart d = None.
Proof.
  unfold toolCallUpdate, toolCallStart.
  destruct (Shared.tool_call d) as [tag|]; [|discriminate].
  destruct (present (Shared.tool_call_id d)); [|discriminate].
  destruct (present (Shared.tool_call_params d)); [|discriminate].
  destruct (tag =? "update") eqn:E; [|discriminate].
  apply String.eqb_eq in E. subst tag. intros _.
  destruct (present (Shared.tool_call_name d)); reflexivity.
Qed.

(** C10.  An argument update for an id no start registered changes nothing:
    both encoders return the empty string and the builder they were given,
    and the non-streaming loops keep their tool calls as they were, with no
    entry for that id. *)
Theorem unknown_tool_call_id_is_ignored :
  (forall (b : ResponseConverter.StreamingResponseBuilder) (toolId chunk : string),
      JsMap.get toolId (ResponseConverter.currentToolCalls b) = None ->
      ResponseConverter.handleToolCallChunk b toolId chunk = (b, ""))
  /\
  (forall (b : OpenAIResponseBuilder.OpenAIStreamingBuilder) (toolId args : string),
      JsMap.get toolId (OpenAIResponseBuilder.currentToolCalls b) = None ->
      OpenAIResponseBuilder.buildToolCallArgsChunk b toolId args = (b, ""))
  /\
  (forall (s : Aggregate) (d : Shared.ResponseData) (id params : string),
      toolCallUpdate d = Some (id, params) ->
      JsMap.get id (toolCalls s) = None ->
      exists s', nonStreamingBody s (Shared.response d) = inl s'
                 /\ toolCalls s' = toolCalls s
                 /\ JsMap.get id (toolCalls s') = None)
  /\
  (forall (s : OpenAIAggregate) (d : Shared.ResponseData) (id params : string),
      toolCallUpdate d = Some (id, params) ->
      JsMap.get id (oa_toolCallBuffers s) = None ->
      exists s', openAINonStreamingBody s (Shared.response d) = inl s'
                 /\ oa_toolCallBuffers s' = oa_toolCallBuffers s
                 /\ oa_toolCalls s' = oa_toolCalls s).
Proof.
  repeat split.
  - intros b toolId chunk Hget.
    unfold ResponseConverter.handleToolCallChunk. now rewrite Hget.
  - intros b toolId args Hget.
    unfold OpenAIResponseBuilder.buildToolCallArgsChunk. now rewrite Hget.
  - intros s d id params Hupd Hget.
    pose proof (toolCallUpdate_not_start d id params Hupd) as Hstart.
    unfold nonStreamingBody. rewrite Hstart, Hupd.
    eexists. split; [reflexivity|].
    destruct (present (Shared.content d)), (present (Shared.reasoning_content d)),
      (Shared.totalUsage d); cbn; rewrite Hget; cbn; auto.
  - intros s d id params Hupd Hget.
    pose proof (toolCallUpdate_not_start d id params Hupd) as Hstart.
    unfold openAINonStreamingBody. rewrite Hstart, Hupd, Hget.
    destruct (Shared.totalUsage d); eexists; (split; [reflexivity|]); cbn; auto.
Qed.

End UnknownToolCallId.

(** ** Stop-reason tables *)

Lemma one_of_In (s : string) (l : list string) :
  JS.one_of s l = true <-> In s l.
Proof.
  unfold JS.one_of. rewrite existsb_exists. split.
  - intros [x [Hin Heq]]. apply String.eqb_eq in Heq. now subst.
  - intros Hin. exists s. split; [exact Hin | apply String.eqb_refl].
Qed.

Lemma one_of_not_In (s : string) (l : list string) :
  ~ In s l -> JS.one_of s l = false.
Proof.
  intros H. destruct (JS.one_of s l) eqn:E; [|reflexivity].
  apply one_of_In in E. contradiction.
Qed.

Lemma truthy_nonempty (s : string) : s <> "" -> JS.truthy s = true.
Proof.
  intros H. unfold JS.truthy. destruct (s =? "") eqn:E; [|reflexivity].
  apply String.eqb_eq in E. contradiction.
Qed.

Lemma truthy_opt_unset (reason : option string) :
  JS.truthy_opt reason = false <-> unset reason.
Proof.
  unfold unset. destruct reason as [s|]; simpl.
  - unfold JS.truthy. destruct (s =? "") eqn:E; simpl.
    + apply String.eqb_eq in E. subst. split; auto.
    + apply String.eqb_neq in E.
      split; [discriminate|]. intros [H|H]; [discriminate | congruence].
  - split; auto.
Qed.

Lemma one_of_outside (r : string) (l named : list string) :
  ~ In r named -> incl l named -> JS.one_of r l = false.
Proof.
  intros Hn Hincl. apply one_of_not_In. intros Hin. apply Hn, Hincl, Hin.
Qed.

Ltac named_reason :=
  match goal with
  | H : In _ _ |- _ => simpl in H; decompose [or] H; subst; try contradiction; reflexivity
  end.

(** C6.  [mapStopReason] and [mapToOpenAIFinishReason] are functions of their
    arguments alone, defined on every reason.  [mapStopReason] sends
    complete, stop and end_turn to end_turn, max_tokens and length to
    max_tokens, the three tool reasons to tool_use, stop_sequence to
    stop_sequence, any other non-empty reason to end_turn, and gives [null]
    exactly when no reason is set.  [mapToOpenAIFinishReason] gives
    tool_calls whenever [hasToolCalls] holds; otherwise it sends complete,
    stop and end_turn to stop, max_tokens and length to length, the three
    tool reasons to tool_calls, any other non-empty reason to stop; it gives
    [null] exactly when no reason is set and there were no tool calls. *)
Theorem stop_reason_tables :
  (forall r, In r ["complete"; "stop"; "end_turn"] ->
             mapStopReason (Some r) = Some end_turn)
  /\ (forall r, In r ["max_tokens"; "length"] ->
                mapStopReason (Some r) = Some max_tokens)
  /\ (forall r, In r ["tool_use"; "tool_calls"; "function_call"] ->
                mapStopReason (Some r) = Some tool_use)
  /\ mapStopReason (Some "stop_sequence") = Some stop_sequence
  /\ (forall r, r <> "" -> ~ In r namedReasons ->
                mapStopReason (Some r) = Some end_turn)
  /\ (forall reason, mapStopReason reason = None <-> unset reason)
  /\ (forall reason, mapToOpenAIFinishReason reason true = Some finish_tool_calls)
  /\ (forall r, In r ["complete"; "stop"; "end_turn"] ->
                mapToOpenAIFinishReason (Some r) false = Some finish_stop)
  /\ (forall r, In r ["max_tokens"; "length"] ->
                mapToOpenAIFinishReason (Some r) false = Some finish_length)
  /\ (forall r, In r ["tool_use"; "tool_calls"; "function_call"] ->
                mapToOpenAIFinishReason (Some r) false = Some finish_tool_calls)
  /\ (forall r, r <> "" ->
                ~ In r ["complete"; "stop"; "end_turn"; "max_tokens"; "length";
                        "tool_use"; "tool_calls"; "function_call"] ->
                mapToOpenAIFinishReason (Some r) false = Some finish_stop)
  /\ (forall reason hasToolCalls,
         mapToOpenAIFinishReason reason hasToolCalls = None
         <-> unset reason /\ hasToolCalls = false).
Proof.
  pose proof one_of_outside as Other.
  repeat match goal with |- _ /\ _ => split end;
    try (intros r Hin; named_reason); try reflexivity.
  - intros r Hne Hnot. unfold mapStopReason. simpl JS.truthy_opt.
    rewrite (truthy_nonempty r Hne). simpl negb. cbv iota.
    rewrite !(Other r _ namedReasons Hnot);
      try (intros x Hx; simpl in Hx |- *; tauto).
    reflexivity.
  - intros reason. rewrite <- truthy_opt_unset. unfold mapStopReason.
    destruct (JS.truthy_opt reason) eqn:E; simpl.
    + split; [|intros H; discriminate H].
      destruct reason as [r|]; [|simpl in E; discriminate E].
      cbv iota.
      repeat match goal with
             | |- context [if ?c then _ else _] => destruct c
             end; intros H; discriminate H.
    + split; reflexivity.
  - intros r Hne Hnot. unfold mapToOpenAIFinishReason. simpl JS.truthy_opt.
    rewrite (truthy_nonempty r Hne). simpl negb. cbv iota.
    rewrite !(Other r _ _ Hnot);
      try (intros x Hx; simpl in Hx |- *; tauto).
    reflexivity.
  - intros reason hasToolCalls. rewrite <- truthy_opt_unset.
    unfold mapToOpenAIFinishReason.
    destruct hasToolCalls;
      [split; [intros H; discriminate H | intros [_ H]; discriminate H]|].
    destruct (JS.truthy_opt reason) eqn:E; simpl.
    + split; [|intros [H _]; discriminate H].
      destruct reason as [r|]; [|simpl in E; discriminate E].
      cbv iota.
      repeat match goal with
             | |- context [if ?c then _ else _] => destruct c
             end; intros H; discriminate H.
    + split; auto.
Qed.

(** The hypotheses of the tables can be met: a reason outside both tables. *)
Lemma stop_reason_tables_witness :
  mapStopReason (Some "content_filter") = Some end_turn
  /\ mapToOpenAIFinishReason (Some "content_filter") false = Some finish_stop
  /\ mapStopReason (Some "length") = Some max_tokens.
Proof.
  pose proof stop_reason_tables as T.
  destruct T as (_ & Hlen & _ & _ & Hother & _ & _ & _ & _ & _ & Hother' & _).
  split; [|split].
  - apply Hother; [discriminate|].
    simpl. intros H. decompose [or] H; try discriminate; contradiction.
  - apply Hother'; [discriminate|].
    simpl. intros H. decompose [or] H; try discriminate; contradiction.
  - apply Hlen. simpl. auto.
Defined.

(** ** Model router *)

Lemma split_without_separator (c : ascii) (s : string) :
  JS.includes c s = false -> JS.split c s = [s].
Proof.
  induction s as [|a r IH]; simpl; [reflexivity|].
  destruct (Ascii.eqb a c); simpl; [discriminate|].
  intros H. now rewrite (IH H).
Qed.

Lemma split_at_first (c : ascii) (s before after : string) :
  spec_split_first c s = Some (before, after) ->
  JS.split c s = before :: JS.split c after.
Proof.
  revert before. induction s as [|a r IH]; simpl; intros before; [discriminate|].
  destruct (Ascii.eqb a c).
  - intros H. now inversion H.
  - destruct (spec_split_first c r) as [[b' a']|]; [|discriminate].
    intros H. inversion H; subst. now rewrite (IH b' eq_refl).
Qed.

Lemma includes_at_first (c : ascii) (s before after : string) :
  spec_split_first c s = Some (before, after) -> JS.includes c s = true.
Proof.
  revert before. induction s as [|a r IH]; simpl; intros before; [discriminate|].
  destruct (Ascii.eqb a c); [reflexivity|]. simpl.
  destruct (spec_split_first c r) as [[b' a']|]; [|discriminate].
  intros H. inversion H; subst. now apply (IH b').
Qed.

(** Rule 1: two configured defaults win over whatever the string says. *)
Lemma mapClaudeModel_defaults_win (model p m : string) :
  p <> "" -> m <> "" ->
  mapClaudeModel model (Some p) (Some m) = Some (Mapping p m).
Proof.
  intros Hp Hm. unfold mapClaudeModel. simpl JS.truthy_opt.
  now rewrite (truthy_nonempty p Hp), (truthy_nonempty m Hm).
Qed.

Example mapClaudeModel_defaults_beat_slash :
  mapClaudeModel "other/thing" (Some "p") (Some "m") = Some (Mapping "p" "m").
Proof. reflexivity. Qed.

(** Rule 2 on a string with a single slash: the router and a cut at the
    first slash agree. *)
Lemma mapClaudeModel_single_slash (model providerId modelId : string) :
  spec_split_first "/" model = Some (providerId, modelId) ->
  JS.includes "/" modelId = false ->
  providerId <> "" -> modelId <> "" ->
  mapClaudeModel model None None = Some (Mapping providerId modelId).
Proof.
  intros Hcut Hrest Hp Hm. unfold mapClaudeModel. simpl JS.truthy_opt. cbv iota.
  rewrite (includes_at_first _ _ _ _ Hcut).
  unfold splitPair, JS.split_limit.
  rewrite (split_at_first _ _ _ _ Hcut), (split_without_separator _ _ Hrest).
  cbn [firstn].
  now rewrite (truthy_nonempty _ Hp), (truthy_nonempty _ Hm).
Qed.

(** A model id advertised by [handleListModels] comes back as it was when
    neither part holds a slash. *)
Lemma listedModelId_cut (providerId modelId : string) :
  JS.includes "/" providerId = false ->
  spec_split_first "/" (listedModelId providerId modelId) = Some (providerId, modelId).
Proof.
  unfold listedModelId. change ("/" ++ modelId) with (String "/" modelId).
  induction providerId as [|a r IH]; simpl; [reflexivity|].
  destruct (Ascii.eqb a "/"); simpl; [discriminate|].
  intros H. now rewrite (IH H).
Qed.

(** A name inherited from [Object.prototype] is found by the table lookup:
    the router returns that member instead of going on to rules 5 and 6. *)
Example mapClaudeModel_inherited_name :
  mapClaudeModel "toString" (Some "p") None = Some (Inherited "toString")
  /\ mapClaudeModel "constructor" None None = Some (Inherited "constructor").
Proof. split; reflexivity. Qed.

(** The comma rule tests the parts before it trims them. *)
Example mapClaudeModel_comma_blank :
  mapClaudeModel " , " None None = Some (Mapping "" "").
Proof. reflexivity. Qed.

(** C3, at the input on which the router departs from its contract.  The id
    [handleListModels] advertises for the model anthropic/claude-3-opus of
    the provider openrouter holds two slashes.  Cut at the first slash it is
    the pair (openrouter, anthropic/claude-3-opus); [mapClaudeModel] returns
    (openrouter, anthropic) and drops the rest. *)
Theorem mapClaudeModel_drops_after_second_slash :
  let model := listedModelId "openrouter" "anthropic/claude-3-opus" in
  spec_split_first "/" model = Some ("openrouter", "anthropic/claude-3-opus")
  /\ mapClaudeModel model None None = Some (Mapping "openrouter" "anthropic")
  /\ mapClaudeModel model (Some "fallback") None
     = Some (Mapping "openrouter" "anthropic").
Proof. repeat split; reflexivity. Qed.

(** ** Required fields *)

Section RequiredFields.

Import Presenter.

Lemma rejected_closes (envelope : string -> string -> json) (actions : list Action) :
  rejected envelope actions ->
  statuses actions = [400%N]
  /\ upgradedToStream actions = false
  /\ sessionCreated actions = false.
Proof. intros [message ->]. repeat split. Qed.

(** C4 as stated fails: a request whose [messages] is an empty array, and
    which is otherwise in order, is not rejected.  It is answered with 200
    and a session is asked of the provider. *)
Lemma empty_messages_array_is_accepted :
  let actions :=
    handleRequestCatch
      (handleMessages plainConfig (plainEnvironment (streamOf [endEvent]))
         (Request.value emptyMessagesRequest)) in
  Request.messages emptyMessagesRequest = Request.array 0
  /\ statuses actions = [200%N]
  /\ sessionCreated actions = true
  /\ ~ rejected anthropicError actions.
Proof.
  cbv zeta. repeat split.
  intros [message H]. vm_compute in H. discriminate H.
Qed.

(** C4, amended.  A body that parses to a value other than [null] and in
    which [model] is absent or empty, or [messages] is absent or not an
    array, or (for /v1/messages) [max_tokens] is absent or zero, is answered
    with 400 and the invalid_request_error envelope of the endpoint; the
    response is not opened as an event stream and no session is asked of
    the provider.  A body that is not JSON is answered the same way. *)
Theorem missing_required_field_is_rejected :
  forall (config : AnthropicApiServerConfig) (env : Environment),
    (forall request : Request.t,
        (Request.model request = None \/ Request.model request = Some "")
        \/ (Request.messages request = Request.absent
            \/ exists truthy, Request.messages request = Request.notArray truthy)
        \/ (Request.max_tokens request = None
            \/ Request.max_tokens request = Some 0%N) ->
        let actions :=
          handleRequestCatch (handleMessages config env (Request.value request)) in
        rejected anthropicError actions
        /\ upgradedToStream actions = false
        /\ sessionCreated actions = false)
    /\
    (forall request : Request.t,
        (Request.model request = None \/ Request.model request = Some "")
        \/ (Request.messages request = Request.absent
            \/ exists truthy, Request.messages request = Request.notArray truthy) ->
        let actions :=
          handleRequestCatch
            (handleChatCompletions config env (Request.value request)) in
        rejected openAIError actions
        /\ upgradedToStream actions = false
        /\ sessionCreated actions = false)
    /\ rejected anthropicError
         (handleRequestCatch (handleMessages config env Request.invalidJson))
    /\ rejected openAIError
         (handleRequestCatch (handleChatCompletions config env Request.invalidJson)).
Proof.
  intros config env.
  assert (Close : forall envelope actions,
             rejected envelope actions ->
             rejected envelope actions
             /\ upgradedToStream actions = false
             /\ sessionCreated actions = false).
  { intros envelope actions H. split; [exact H|].
    now destruct (rejected_closes envelope actions H) as (_ & ? & ?). }
  split; [|split; [|split]].
  - intros request H. cbv zeta. apply Close.
    unfold handleMessages.
    destruct (present (Request.model request)) as [model|] eqn:Em.
    + destruct H as [[H|H]|H];
        [rewrite H in Em; discriminate Em | rewrite H in Em; discriminate Em |].
      destruct (messagesMissing (Request.messages request)) eqn:Emsg;
        [eexists; reflexivity|].
      destruct H as [[H|[t H]]|H];
        [rewrite H in Emsg; discriminate Emsg
        |rewrite H in Emsg; discriminate Emsg|].
      assert (Emax : maxTokensMissing (Request.max_tokens request) = true)
        by (destruct H as [H|H]; rewrite H; reflexivity).
      rewrite Emax. eexists; reflexivity.
    + eexists; reflexivity.
  - intros request H. cbv zeta. apply Close.
    unfold handleChatCompletions.
    destruct (present (Request.model request)) as [model|] eqn:Em.
    + destruct H as [[H|H]|H];
        [rewrite H in Em; discriminate Em | rewrite H in Em; discriminate Em |].
      assert (Emsg : messagesMissing (Request.messages request) = true)
        by (destruct H as [H|[t H]]; rewrite H; reflexivity).
      rewrite Emsg. eexists; reflexivity.
    + eexists; reflexivity.
  - eexists; reflexivity.
  - eexists; reflexivity.
Qed.

(** The theorem at a body without [max_tokens], on both endpoints. *)
Lemma missing_required_field_is_rejected_witness :
  let request :=
    {| Request.model := Some "p/m";
       Request.messages := Request.absent;
       Request.max_tokens := None;
       Request.stream := true |} in
  rejected anthropicError
    (handleRequestCatch
       (handleMessages plainConfig (plainEnvironment (streamOf [endEvent]))
          (Request.value request)))
  /\ rejected openAIError
       (handleRequestCatch
          (handleChatCompletions plainConfig (plainEnvironment (streamOf [endEvent]))
             (Request.value request))).
Proof.
  intros request.
  destruct (missing_required_field_is_rejected plainConfig
              (plainEnvironment (streamOf [endEvent]))) as (HM & HC & _).
  split.
  - apply (HM request). right. right. left. reflexivity.
  - apply (HC request). right. left. reflexivity.
Defined.

(** A body that is the JSON value [null] makes either handler throw; the
    dispatcher answers 500 in the Anthropic envelope. *)
Lemma null_body_is_an_internal_error (config : AnthropicApiServerConfig)
    (env : Environment) :
  statuses (handleRequestCatch (handleMessages config env Request.jsonNull))
  = [500%N]
  /\ handleRequestCatch (handleChatCompletions config env Request.jsonNull)
     = sendError 500 "api_error" (Shared.messageOf (nullPropertyRead "model")).
Proof. split; reflexivity. Qed.

End RequiredFields.

(** ** Final events and the tool-use stop reason *)

Lemma append_assoc (a b c : string) : (a ++ b) ++ c = a ++ (b ++ c).
Proof. induction a as [|x a IH]; simpl; [reflexivity | now rewrite IH]. Qed.

Lemma append_nil_r (a : string) : a ++ "" = a.
Proof. induction a as [|x a IH]; simpl; [reflexivity | now rewrite IH]. Qed.

Section FinalEvents.

Import ResponseConverter.

Lemma frames_app (l1 l2 : list StreamEvent) :
  frames (l1 ++ l2) = frames l1 ++ frames l2.
Proof.
  unfold frames.
  induction l1 as [|e l1 IH]; cbn [fold_right List.app]; [reflexivity|].
  now rewrite IH, append_assoc.
Qed.

Lemma close_tool_blocks (calls : list ToolCall) (output : string) :
  fold_left
    (fun output toolCall =>
       output ++ formatSSE (buildContentBlockStopEvent (index toolCall)))
    calls output
  = output
    ++ frames (map (fun toolCall => buildContentBlockStopEvent (index toolCall)) calls).
Proof.
  unfold frames.
  revert output.
  induction calls as [|c calls IH]; intros output; cbn [fold_left fold_right map].
  - now rewrite append_nil_r.
  - now rewrite IH, append_assoc.
Qed.

(** [getFinalEvents] writes, in this order: the stop of the text block, one
    stop per entry of [currentToolCalls] in the order of the map, one
    [message_delta] with the final stop reason and the usage, and
    [message_stop]. *)
Lemma getFinalEvents_frames (b : StreamingResponseBuilder) :
  getFinalEvents b
  = frames
      ([buildContentBlockStopEvent (textBlockIndex b)]
       ++ map (fun toolCall => buildContentBlockStopEvent (index toolCall))
            (JsMap.values (currentToolCalls b))
       ++ [buildMessageDeltaEvent (Some (finalStopReason b)) (usage b);
           buildMessageStopEvent]).
Proof.
  unfold getFinalEvents. rewrite close_tool_blocks.
  rewrite !frames_app. unfold frames. cbn [fold_right append].
  rewrite !append_nil_r, !append_assoc. reflexivity.
Qed.

(** The text block keeps index 0 through a session. *)
Lemma reachable_textBlockIndex (b : StreamingResponseBuilder) :
  reachable b -> textBlockIndex b = 0%N.
Proof.
  induction 1 as [messageId model | b id name _ IH | b id chunk _ IH
                 | b i o _ IH | b reason _ IH]; try exact IH.
  - reflexivity.
  - unfold handleToolCallChunk.
    destruct (JsMap.get id (currentToolCalls b)) as [toolCall|]; [|exact IH].
    destruct (JSON.parses (argsBuffer toolCall ++ chunk)); exact IH.
Qed.

Lemma reachable_getFinalEvents (b : StreamingResponseBuilder) :
  reachable b ->
  getFinalEvents b
  = frames
      (buildContentBlockStopEvent 0
       :: map (fun toolCall => buildContentBlockStopEvent (index toolCall))
            (JsMap.values (currentToolCalls b))
       ++ [buildMessageDeltaEvent (Some (finalStopReason b)) (usage b);
           buildMessageStopEvent]).
Proof.
  intros H. rewrite getFinalEvents_frames, (reachable_textBlockIndex b H).
  reflexivity.
Qed.

(** With a registered tool call the final stop reason is tool_use, whatever
    [setStopReason] was given. *)
Lemma finalStopReason_tool_use (b : StreamingResponseBuilder) :
  currentToolCalls b <> [] -> finalStopReason b = tool_use.
Proof.
  unfold finalStopReason, JsMap.size.
  destruct (currentToolCalls b); [congruence | reflexivity].
Qed.

Lemma finalStopReason_after_start (b : StreamingResponseBuilder)
    (toolId toolName reason : string) :
  finalStopReason (setStopReason (fst (handleToolCallStart b toolId toolName)) reason)
  = tool_use.
Proof.
  apply finalStopReason_tool_use. simpl.
  destruct (currentToolCalls b) as [|[k v] m]; simpl; [discriminate|].
  destruct (toolId =? k); discriminate.
Qed.

End FinalEvents.

Section ToolUseReason.

Import Presenter.

(** C5, at the input on which the handlers disagree.  The provider
    starts the tool call t1 and ends the session without sending arguments.
    The non-streaming chat-completions handler answers with no tool calls
    and the finish reason stop; on the same events the streaming
    chat-completions handler finishes with tool_calls and both /v1/messages
    handlers stop with tool_use. *)
Theorem openai_non_streaming_loses_started_tool_call :
  let env := plainEnvironment (streamOf [startEvent "t1" "lookup"; endEvent]) in
  let builder := OpenAIResponseBuilder.newBuilder "id-1" "m" 1700000000 in
  let started :=
    fst (OpenAIResponseBuilder.buildToolCallStartChunk builder "t1" "lookup") in
  bodies (handleOpenAINonStreamingResponse env "m" (Some "p") (Some "m"))
  = [Response.chatCompletion
       (buildOpenAIResponse "id-1" 1700000000 "m" None None (Some finish_stop) 0 0)]
  /\ In (write (OpenAIResponseBuilder.buildFinalChunk started (Some finish_tool_calls)))
        (handleOpenAIStreamingResponse env "m" (Some "p") (Some "m"))
  /\ bodies (handleNonStreamingResponse env "m" (Some "p") (Some "m"))
     = [Response.claudeMessages
          (buildNonStreamingResponse "id-1" "m"
             [Response.tool_use_block "t1" "lookup" Response.emptyObject]
             (Some tool_use)
             {| ResponseConverter.input_tokens := 0;
                ResponseConverter.output_tokens := 0 |})]
  /\ exists before,
       written (handleStreamingResponse env "m" (Some "p") (Some "m"))
       = (before
          ++ [ResponseConverter.frames
                [ResponseConverter.buildContentBlockStopEvent 0;
                 ResponseConverter.buildContentBlockStopEvent 1;
                 ResponseConverter.buildMessageDeltaEvent (Some tool_use)
                   {| ResponseConverter.input_tokens := 0;
                      ResponseConverter.output_tokens := 0 |};
                 ResponseConverter.buildMessageStopEvent]])%list.
Proof.
  cbv zeta. split; [reflexivity|]. split; [|split; [reflexivity|]].
  - vm_compute. auto 10.
  - eexists [_; _]. vm_compute. reflexivity.
Qed.

End ToolUseReason.

(** ** Content of a non-streaming /v1/messages response *)

Section NonStreamingContent.

Import Presenter.

Lemma existsb_keys (V : Type) (k : string) (m : list (string * V)) :
  existsb (String.eqb k) (JsMap.keys m) = JsMap.has k m.
Proof.
  unfold JsMap.has, JsMap.keys.
  induction m as [|[k' v] m IH]; simpl; [reflexivity|].
  destruct (k =? k'); simpl; [reflexivity | exact IH].
Qed.

Lemma keys_set_addFirst (V : Type) (k : string) (v : V) (m : list (string * V)) :
  JsMap.keys (JsMap.set k v m) = addFirst (JsMap.keys m) k.
Proof.
  unfold addFirst. rewrite existsb_keys. unfold JsMap.has.
  destruct (JsMap.get k m) as [v0|] eqn:E.
  - exact (keys_set_present k v v0 m E).
  - exact (keys_set_absent k v m E).
Qed.

Lemma keys_set_known (V : Type) (k : string) (v : V) (m : list (string * V)) :
  JsMap.get k m <> None -> JsMap.keys (JsMap.set k v m) = JsMap.keys m.
Proof.
  destruct (JsMap.get k m) as [v0|] eqn:E; [|congruence].
  intros _. exact (keys_set_present k v v0 m E).
Qed.

(** One turn of the loop on an event that is not an error. *)
Lemma nonStreamingBody_step (s : Aggregate) (event : Shared.LLMAgentEvent) :
  isError event = false ->
  exists s',
    nonStreamingBody s event = inl s'
    /\ textContent s' = textContent s ++ textOf event
    /\ JsMap.keys (toolCalls s')
       = match startedId event with
         | Some id => addFirst (JsMap.keys (toolCalls s)) id
         | None => JsMap.keys (toolCalls s)
         end.
Proof.
  destruct event as [d | evId userStop | evId message]; intros Herr;
    [| | discriminate Herr].
  - unfold nonStreamingBody, textOf, startedId.
    eexists. split; [reflexivity|].
    destruct (present (Shared.content d)) as [c|];
      destruct (present (Shared.reasoning_content d)) as [rc|];
      destruct (toolCallStart d) as [[sid sname]|];
      destruct (toolCallUpdate d) as [[uid uparams]|];
      destruct (Shared.totalUsage d) as [u|];
      cbn [textContent toolCalls ag_setText ag_setToolCalls ag_setTokens];
      repeat match goal with
             | |- context [JsMap.get ?k ?m] =>
                 let E := fresh "E" in
                 destruct (JsMap.get k m) as [[? ?]|] eqn:E
             end;
      cbn [textContent toolCalls ag_setText ag_setToolCalls ag_setTokens];
      (split;
       [ rewrite ?append_assoc, ?append_nil_r; reflexivity
       | rewrite ?keys_set_known by congruence;
         rewrite ?keys_set_addFirst; reflexivity ]).
  - eexists. split; [reflexivity|]. simpl. now rewrite append_nil_r.
Qed.

(** The loop on a stream that neither throws nor carries an error event. *)
Lemma nonStreaming_loop (events : list Shared.LLMAgentEvent) :
  forall (i : nat) (s : Aggregate),
    forallb (fun event => negb (isError event)) events = true ->
    exists s',
      Shared.forAwait (fun _ => false) nonStreamingBody i s events None = (s', None)
      /\ textContent s' = textContent s ++ accumulatedText events
      /\ JsMap.keys (toolCalls s') = firstStartsFrom (JsMap.keys (toolCalls s)) events.
Proof.
  induction events as [|event events IH]; intros i s Hok.
  - exists s. simpl. now rewrite append_nil_r.
  - simpl in Hok. apply andb_true_iff in Hok. destruct Hok as [Hev Hrest].
    apply negb_true_iff in Hev.
    destruct (nonStreamingBody_step s event Hev) as (s1 & Hstep & Htext & Hkeys).
    destruct (IH (S i) s1 Hrest) as (s' & Hloop & Htext' & Hkeys').
    exists s'. cbn [Shared.forAwait]. rewrite Hstep, Hloop.
    split; [reflexivity|]. split.
    + rewrite Htext', Htext. cbn [accumulatedText fold_right].
      now rewrite append_assoc.
    + rewrite Hkeys', Hkeys. unfold firstStartsFrom. cbn [fold_left]. reflexivity.
Qed.

Lemma push_tool_use_blocks (calls : list (string * (string * Response.ToolInput)))
    (blocks : list Response.ContentBlock) :
  fold_left
    (fun blocks entry =>
       match entry with
       | (id, (name, input)) =>
           (blocks ++ [Response.tool_use_block id name input])%list
       end) calls blocks
  = (blocks ++ map toolUseBlock calls)%list.
Proof.
  revert blocks. induction calls as [|[id [name input]] calls IH]; intros blocks.
  - simpl. now rewrite app_nil_r.
  - cbn [fold_left map toolUseBlock]. rewrite IH, <- app_assoc. reflexivity.
Qed.

Lemma toolUseId_blocks (calls : list (string * (string * Response.ToolInput))) :
  map toolUseId (map toolUseBlock calls) = map Some (JsMap.keys calls).
Proof.
  unfold JsMap.keys.
  induction calls as [|[id [name input]] calls IH]; simpl; [reflexivity|].
  now rewrite IH.
Qed.

Lemma buildContentBlocks_shape (s : Aggregate) :
  (textContent s <> "" ->
   buildContentBlocks s
   = Response.text (textContent s) :: map toolUseBlock (toolCalls s))
  /\ (textContent s = "" -> toolCalls s <> [] ->
      buildContentBlocks s = map toolUseBlock (toolCalls s))
  /\ (textContent s = "" -> toolCalls s = [] ->
      buildContentBlocks s = [Response.text ""]).
Proof.
  unfold buildContentBlocks. rewrite push_tool_use_blocks.
  repeat split.
  - intros Ht. rewrite (truthy_nonempty _ Ht). reflexivity.
  - intros Ht Hc. rewrite Ht. simpl.
    destruct (toolCalls s) as [|[id [name input]] calls]; [congruence | reflexivity].
  - intros Ht Hc. rewrite Ht, Hc. reflexivity.
Qed.

(** [firstStarts] lists each started id once, and only started ids. *)
Lemma addFirst_In (ids : list string) (id x : string) :
  In x (addFirst ids id) <-> In x ids \/ x = id.
Proof.
  unfold addFirst. destruct (existsb (String.eqb id) ids) eqn:E.
  - split; [tauto|]. intros [H|H]; [exact H|]. subst x.
    apply existsb_exists in E. destruct E as [y [Hy Heq]].
    apply String.eqb_eq in Heq. now subst y.
  - rewrite in_app_iff. simpl. split.
    + intros [H|[H|[]]]; [now left | now right].
    + intros [H|H]; [now left | right; now left].
Qed.

Lemma addFirst_NoDup (ids : list string) (id : string) :
  NoDup ids -> NoDup (addFirst ids id).
Proof.
  unfold addFirst. destruct (existsb (String.eqb id) ids) eqn:E; [tauto|].
  intros H. assert (Hnot : ~ In id ids).
  { intros Hin. assert (existsb (String.eqb id) ids = true); [|congruence].
    apply existsb_exists. exists id. split; [exact Hin | apply String.eqb_refl]. }
  clear E. induction H as [|x l Hx Hl IH]; simpl.
  - constructor; [tauto | constructor].
  - constructor.
    + rewrite in_app_iff. simpl. intros [Hin|[Heq|[]]]; [tauto|].
      subst x. apply Hnot. now left.
    + apply IH. intros Hin. apply Hnot. now right.
Qed.

Lemma firstStartsFrom_spec (events : list Shared.LLMAgentEvent) :
  forall ids : list string,
    (NoDup ids -> NoDup (firstStartsFrom ids events))
    /\ (forall id,
           In id (firstStartsFrom ids events)
           <-> In id ids
               \/ exists event, In event events /\ startedId event = Some id).
Proof.
  induction events as [|event events IH]; intros ids; cbn [firstStartsFrom fold_left].
  - split; [tauto|]. intros id. split; [tauto|].
    intros [H|[event [[] _]]]. exact H.
  - fold (firstStartsFrom
            (match startedId event with
             | Some id => addFirst ids id
             | None => ids
             end) events).
    destruct (IH (match startedId event with
                  | Some id => addFirst ids id
                  | None => ids
                  end)) as [Hnd Hin].
    split.
    + intros H. apply Hnd. destruct (startedId event); [now apply addFirst_NoDup | exact H].
    + intros id. rewrite Hin. destruct (startedId event) as [sid|] eqn:Es.
      * rewrite addFirst_In. split.
        -- intros [[H|H]|[ev [Hev Hs]]].
           ++ now left.
           ++ subst id. right. exists event. split; [now left | exact Es].
           ++ right. exists ev. split; [now right | exact Hs].
        -- intros [H|[ev [[Hev|Hev] Hs]]].
           ++ left. now left.
           ++ subst ev. left. right. congruence.
           ++ right. exists ev. split; assumption.
      * split.
        -- intros [H|[ev [Hev Hs]]]; [now left|].
           right. exists ev. split; [now right | exact Hs].
        -- intros [H|[ev [[Hev|Hev] Hs]]]; [now left | subst ev; congruence |].
           right. exists ev. split; assumption.
Qed.

Lemma firstStarts_spec (events : list Shared.LLMAgentEvent) :
  NoDup (firstStarts events)
  /\ forall id,
       In id (firstStarts events)
       <-> exists event, In event events /\ startedId event = Some id.
Proof.
  destruct (firstStartsFrom_spec events []) as [Hnd Hin].
  split; [apply Hnd; constructor|].
  intros id. unfold firstStarts. rewrite Hin. split; [|tauto].
  intros [[]|H]. exact H.
Qed.

(** C9.  When the provider's stream ends without an error, the handler
    answers 200 with a content array that is never empty.  If any text or
    reasoning content was accumulated, the array starts with one text block
    holding all of it, joined in order, followed by one tool_use block per
    started tool call id, in the order of their first start.  If there was
    no text but a started tool call, the array is those tool_use blocks
    alone.  If there was neither text nor a started tool call, the array is
    one text block with the empty string. *)
Theorem non_streaming_content_blocks :
  forall (env : Environment) (requestModel : string)
         (providerId modelId : option string),
    Shared.failure (stream env) = None ->
    forallb (fun event => negb (isError event)) (Shared.events (stream env)) = true ->
    let text := accumulatedText (Shared.events (stream env)) in
    let ids := firstStarts (Shared.events (stream env)) in
    exists response : Response.ClaudeMessagesResponse,
      handleNonStreamingResponse env requestModel providerId modelId
      = [startStreamCompletion providerId modelId (eventId env);
         writeHead 200 "application/json";
         end_response (Some (Response.claudeMessages response))]
      /\ Response.content response <> []
      /\ (text <> "" ->
          exists blocks,
            Response.content response = Response.text text :: blocks
            /\ map toolUseId blocks = map Some ids)
      /\ (text = "" -> ids <> [] ->
          map toolUseId (Response.content response) = map Some ids)
      /\ (text = "" -> ids = [] ->
          Response.content response = [Response.text ""]).
Proof.
  intros env requestModel providerId modelId Hfail Hok text ids.
  unfold handleNonStreamingResponse. rewrite Hfail.
  match goal with
  | |- context [Shared.forAwait _ _ 0 ?start _ None] =>
      destruct (nonStreaming_loop (Shared.events (stream env)) 0 start Hok)
        as (s & Hloop & Htext & Hkeys)
  end.
  rewrite Hloop. cbn [textContent toolCalls JsMap.keys map append] in Htext, Hkeys.
  fold (firstStarts (Shared.events (stream env))) in Hkeys.
  fold text in Htext. fold ids in Hkeys.
  exists (nonStreamingResponse env requestModel s).
  split; [reflexivity|].
  cbn [nonStreamingResponse buildNonStreamingResponse Response.content].
  destruct (buildContentBlocks_shape s) as (Hfull & Htools & Hnone).
  rewrite Htext in Hfull, Htools, Hnone.
  split; [|split; [|split]].
  - destruct (string_dec text "") as [Ht|Ht].
    + destruct (toolCalls s) as [|entry calls] eqn:Ec.
      * rewrite (Hnone Ht eq_refl). discriminate.
      * rewrite (Htools Ht ltac:(discriminate)). discriminate.
    + rewrite (Hfull Ht). discriminate.
  - intros Ht. exists (map toolUseBlock (toolCalls s)).
    split; [exact (Hfull Ht)|].
    rewrite toolUseId_blocks. now rewrite Hkeys.
  - intros Ht Hids. rewrite (Htools Ht).
    + rewrite toolUseId_blocks. now rewrite Hkeys.
    + intros Hnil. apply Hids. rewrite <- Hkeys, Hnil. reflexivity.
  - intros Ht Hids. apply (Hnone Ht).
    rewrite Hids in Hkeys. unfold JsMap.keys in Hkeys.
    destruct (toolCalls s); [reflexivity | discriminate Hkeys].
Qed.

(** The theorem on a stream with text, reasoning and two tool calls, the
    first of them started twice, and on a stream with two tool calls and no
    text. *)
Lemma non_streaming_content_blocks_witness :
  let env :=
    plainEnvironment
      (streamOf [textEvent "Hel"; startEvent "a" "f"; textEvent "lo";
                 startEvent "b" "g"; updateEvent "b" "g" "{}";
                 startEvent "a" "h"; endEvent]) in
  let toolsOnly :=
    plainEnvironment (streamOf [startEvent "a" "f"; startEvent "b" "g"; endEvent]) in
  (exists response : Response.ClaudeMessagesResponse,
     bodies (handleNonStreamingResponse env "m" (Some "p") (Some "m"))
     = [Response.claudeMessages response]
     /\ exists blocks,
          Response.content response = Response.text "Hello" :: blocks
          /\ map toolUseId blocks = [Some "a"; Some "b"])
  /\ exists response : Response.ClaudeMessagesResponse,
       bodies (handleNonStreamingResponse toolsOnly "m" (Some "p") (Some "m"))
       = [Response.claudeMessages response]
       /\ map toolUseId (Response.content response) = [Some "a"; Some "b"].
Proof.
  intros env toolsOnly. split.
  - destruct (non_streaming_content_blocks env "m" (Some "p") (Some "m")
                eq_refl eq_refl) as (response & Hrun & _ & Htext & _ & _).
    exists response. split.
    + rewrite Hrun. reflexivity.
    + apply Htext. discriminate.
  - destruct (non_streaming_content_blocks toolsOnly "m" (Some "p") (Some "m")
                eq_refl eq_refl) as (response & Hrun & _ & _ & Htools & _).
    exists response. split.
    + rewrite Hrun. reflexivity.
    + apply Htools; [reflexivity | discriminate].
Defined.

(** The stop reason of the same response is tool_use as soon as one tool
    call was started, whatever the end event says. *)
Lemma non_streaming_tool_use_reason (env : Environment) (requestModel : string)
    (providerId modelId : option string) (event : Shared.LLMAgentEvent)
    (id : string) :
  Shared.failure (stream env) = None ->
  forallb (fun event => negb (isError event)) (Shared.events (stream env)) = true ->
  In event (Shared.events (stream env)) ->
  startedId event = Some id ->
  exists response : Response.ClaudeMessagesResponse,
    bodies (handleNonStreamingResponse env requestModel providerId modelId)
    = [Response.claudeMessages response]
    /\ Response.stop_reason response = Some tool_use.
Proof.
  intros Hfail Hok Hin Hstart.
  unfold handleNonStreamingResponse. rewrite Hfail.
  match goal with
  | |- context [Shared.forAwait _ _ 0 ?start _ None] =>
      destruct (nonStreaming_loop (Shared.events (stream env)) 0 start Hok)
        as (s & Hloop & _ & Hkeys)
  end.
  rewrite Hloop. cbn [toolCalls JsMap.keys map] in Hkeys.
  fold (firstStarts (Shared.events (stream env))) in Hkeys.
  exists (nonStreamingResponse env requestModel s).
  split; [reflexivity|].
  cbn [nonStreamingResponse buildNonStreamingResponse Response.stop_reason].
  assert (Hid : In id (JsMap.keys (toolCalls s))).
  { rewrite Hkeys. apply (proj2 (firstStarts_spec _)). now exists event. }
  unfold JsMap.keys, JsMap.size in *.
  destruct (toolCalls s); [destruct Hid | reflexivity].
Qed.

End NonStreamingContent.

(** ** The session loop ends once *)

Section SessionLoop.

Import LLMProviderPresenter.



Lemma aborted_monotone (abortedFrom : option nat) (read read' : nat) :
  read <= read' -> aborted abortedFrom read = true -> aborted abortedFrom read' = true.
Proof.
  unfold aborted. destruct abortedFrom as [k|]; [|discriminate].
  rewrite !Nat.leb_le. lia.
Qed.


Lemma emitted_app (l1 l2 : list Effect) : emitted (l1 ++ l2) = (emitted l1 ++ emitted l2)%list.
Proof. unfold emitted. apply flat_map_app. Qed.

Lemma emitted_yields (events : list Shared.LLMAgentEvent) :
  emitted (map yield events) = events.
Proof.
  unfold emitted. induction events as [|e events IH]; simpl; [reflexivity|].
  now rewrite IH.
Qed.

Lemma deletions_app (eventId : string) (l1 l2 : list Effect) :
  deletions eventId (l1 ++ l2) = deletions eventId l1 + deletions eventId l2.
Proof. unfold deletions. now rewrite filter_app, length_app. Qed.

Lemma deletions_yields (eventId : string) (events : list Shared.LLMAgentEvent) :
  deletions eventId (map yield events) = 0.
Proof.
  unfold deletions. induction events as [|e events IH]; simpl; [reflexivity | exact IH].
Qed.

Lemma activeStreamsAfter_app (registry : list (string * StreamState))
    (l1 l2 : list Effect) :
  activeStreamsAfter registry (l1 ++ l2)
  = activeStreamsAfter (activeStreamsAfter registry l1) l2.
Proof. unfold activeStreamsAfter. apply fold_left_app. Qed.

Lemma activeStreamsAfter_yields (registry : list (string * StreamState))
    (events : list Shared.LLMAgentEvent) :
  activeStreamsAfter registry (map yield events) = registry.
Proof.
  unfold activeStreamsAfter.
  induction events as [|e events IH]; simpl; [reflexivity | exact IH].
Qed.

Lemma get_outside_keys (V : Type) (k : string) (m : list (string * V)) :
  ~ In k (JsMap.keys m) -> JsMap.get k m = None.
Proof.
  unfold JsMap.keys. induction m as [|[k' v] m IH]; simpl; [reflexivity|].
  intros H. destruct (k =? k') eqn:E.
  - apply String.eqb_eq in E. subst. tauto.
  - apply IH. tauto.
Qed.

Lemma get_delete_same (V : Type) (k : string) (m : list (string * V)) :
  NoDup (JsMap.keys m) -> JsMap.get k (JsMap.delete k m) = None.
Proof.
  unfold JsMap.keys. induction m as [|[k' v] m IH]; simpl; [reflexivity|].
  intros H. inversion H as [|? ? Hnotin Hnodup]; subst.
  destruct (k =? k') eqn:E.
  - apply String.eqb_eq in E. subst. now apply get_outside_keys.
  - simpl. rewrite E. now apply IH.
Qed.

Lemma NoDup_keys_set (V : Type) (k : string) (v : V) (m : list (string * V)) :
  NoDup (JsMap.keys m) -> NoDup (JsMap.keys (JsMap.set k v m)).
Proof.
  unfold JsMap.keys. induction m as [|[k' v'] m IH]; simpl.
  - intros _. constructor; [tauto | constructor].
  - intros H. inversion H as [|? ? Hnotin Hnodup]; subst.
    destruct (k =? k') eqn:E; simpl; [exact H|].
    constructor; [|now apply IH].
    fold (JsMap.keys (JsMap.set k v m)). rewrite keys_set_addFirst.
    unfold addFirst. destruct (existsb (String.eqb k) (JsMap.keys m)); [exact Hnotin|].
    rewrite in_app_iff. simpl. apply String.eqb_neq in E. intros [Hin|[Heq|[]]];
      [now apply Hnotin | congruence].
Qed.

(** Another provider than the ACP one: the generator throws before it
    registers anything. *)
Lemma runSlashCommand_refuses_other_providers (realm : Realm)
    (providerId modelId eventId : string) (abortedFrom leaveAt : option nat) :
  runSlashCommand realm notAcp providerId modelId eventId abortedFrom leaveAt
  = [throw (Shared.ErrorObject "Slash commands are only supported for ACP provider")].
Proof. reflexivity. Qed.

(** What a run on the ACP provider does to the registry and hands out. *)
Lemma runSlashCommand_acp_effects (realm : Realm) (run : ChunkStream)
    (providerId modelId eventId : string) (abortedFrom leaveAt : option nat)
    (registry : list (string * StreamState)) :
  NoDup (JsMap.keys registry) ->
  let effects :=
    runSlashCommand realm (acp run) providerId modelId eventId abortedFrom leaveAt in
  let r :=
    sessionLoop eventId abortedFrom leaveAt 0 0 (initialLoopState realm)
      (chunks run) (failure run) in
  deletions eventId effects = 1
  /\ JsMap.has eventId (activeStreamsAfter registry effects) = false
  /\ emitted effects
     = (yielded r
        ++ [Shared.end_ (Some eventId) (aborted abortedFrom (reads r))])%list.
Proof.
  intros Hnodup effects r.
  assert (Htail : emitted (rethrown leaveAt r) = []
                  /\ deletions eventId (rethrown leaveAt r) = 0
                  /\ forall reg, activeStreamsAfter reg (rethrown leaveAt r) = reg).
  { unfold rethrown. destruct (exit r); try (repeat split; fail).
    destruct (match leaveAt with
              | Some p => (p =? List.length (yielded r))%nat
              | None => false
              end); repeat split. }
  destruct Htail as (Hem & Hdel & Hreg).
  subst effects. unfold runSlashCommand. fold r.
  split; [|split].
  - rewrite !deletions_app, deletions_yields, Hdel.
    unfold deletions. simpl. rewrite String.eqb_refl. reflexivity.
  - rewrite !activeStreamsAfter_app, activeStreamsAfter_yields, Hreg.
    unfold activeStreamsAfter, JsMap.has. simpl.
    rewrite get_delete_same; [reflexivity|].
    now apply NoDup_keys_set.
  - rewrite !emitted_app, emitted_yields, Hem. simpl. rewrite ?app_nil_r. reflexivity.
Qed.


End SessionLoop.


(** ** Provider errors *)

Section ForAwait.

Import Shared.

Context {St : Type} (body : St -> LLMAgentEvent -> St + Thrown).

Lemma forAwait_ext (stop stop' : nat -> bool) :
  (forall i, stop i = stop' i) ->
  forall evs i s failure,
    forAwait stop body i s evs failure = forAwait stop' body i s evs failure.
Proof.
  intros Hext. induction evs as [|event evs IH]; intros i s failure;
    cbn [forAwait]; [reflexivity|].
  rewrite <- Hext. destruct (stop i); [reflexivity|].
  destruct (body s event); [apply IH | reflexivity].
Qed.

Lemma forAwait_index (evs : list LLMAgentEvent) :
  forall i j s failure,
    forAwait (fun _ => false) body i s evs failure
    = forAwait (fun _ => false) body j s evs failure.
Proof.
  induction evs as [|event evs IH]; intros i j s failure;
    cbn [forAwait]; [reflexivity|].
  destruct (body s event); [apply IH | reflexivity].
Qed.

(** A loop whose body throws on an error event and on nothing else stops at
    the first error event with the message of that event. *)
Lemma forAwait_throws_at_error :
  (forall s event, isError event = false -> exists s', body s event = inl s') ->
  (forall s evId message, body s (error evId message) = inr (ErrorObject message)) ->
  forall (pre post : list LLMAgentEvent) (evId : option string) (message : string)
         (i : nat) (s : St) (failure : option Thrown),
    forallb (fun event => negb (isError event)) pre = true ->
    exists s1,
      forAwait (fun _ => false) body i s (pre ++ error evId message :: post) failure
      = (s1, Some (ErrorObject message)).
Proof.
  intros Hok Herr pre post evId message.
  induction pre as [|event pre IH]; intros i s failure Hpre.
  - exists s. cbn [List.app forAwait]. now rewrite Herr.
  - simpl in Hpre. apply andb_true_iff in Hpre. destruct Hpre as [Hev Hpre].
    apply negb_true_iff in Hev. destruct (Hok s event Hev) as [s' Hs'].
    destruct (IH (S i) s' failure Hpre) as [s1 Hs1].
    exists s1. cbn [List.app forAwait]. now rewrite Hs', Hs1.
Qed.

End ForAwait.

Section ProviderErrors.

Import Presenter.

Lemma statuses_app (l1 l2 : list Action) :
  statuses (l1 ++ l2) = (statuses l1 ++ statuses l2)%list.
Proof. unfold statuses. apply flat_map_app. Qed.

Lemma statuses_writes (w : list Action) :
  forallb isWrite w = true -> statuses w = [].
Proof.
  induction w as [|a w IH]; simpl; [reflexivity|].
  destruct a; simpl; try discriminate. exact IH.
Qed.

(** A response opened with one status and followed by writes, by the call
    to the provider and by the end of the response has that one status. *)
Lemma statuses_of_stream (status : N) (contentType : string) (w : list Action)
    (first last : string) (providerId modelId : option string) (eventId : string) :
  forallb isWrite w = true ->
  statuses (writeHead status contentType
              :: write first
              :: startStreamCompletion providerId modelId eventId
              :: w ++ [write last; end_response None])%list
  = [status].
Proof.
  intros Hall.
  change (writeHead status contentType
            :: write first
            :: startStreamCompletion providerId modelId eventId
            :: w ++ [write last; end_response None])%list
    with ([writeHead status contentType; write first;
           startStreamCompletion providerId modelId eventId]
          ++ w ++ [write last; end_response None])%list.
  rewrite !statuses_app, (statuses_writes w Hall). reflexivity.
Qed.

(** The body of the streaming /v1/messages loop never throws and only adds
    writes. *)
Lemma streamingBody_writes (s : StreamingLoop) (event : Shared.LLMAgentEvent) :
  exists s' w,
    streamingBody s event = inl s'
    /\ sl_written s' = (sl_written s ++ w)%list
    /\ forallb isWrite w = true.
Proof.
  destruct event as [d | evId userStop | evId message].
  - unfold streamingBody.
    destruct (present (Shared.content d)) as [c|];
      destruct (present (Shared.reasoning_content d)) as [rc|];
      destruct (toolCallStart d) as [[sid sname]|];
      destruct (toolCallUpdate d) as [[uid uparams]|];
      destruct (Shared.totalUsage d) as [u|];
      unfold ResponseConverter.handleToolCallStart;
      cbn [sl_written sl_builder sl_write sl_setBuilder sl_setTokens];
      repeat match goal with
             | |- context [ResponseConverter.handleToolCallChunk ?b ?i ?p] =>
                 destruct (ResponseConverter.handleToolCallChunk b i p) as [? ?]
             | |- context [JS.truthy ?o] => destruct (JS.truthy o)
             end;
      do 2 eexists; (split; [reflexivity|]);
      cbn [sl_written sl_builder sl_write sl_setBuilder sl_setTokens];
      rewrite <- ?app_assoc;
      (split; [first [reflexivity | symmetry; apply app_nil_r] | reflexivity]).
  - do 2 eexists. split; [reflexivity|]. simpl.
    split; [symmetry; apply app_nil_r | reflexivity].
  - do 2 eexists. split; [reflexivity|]. simpl. split; reflexivity.
Qed.

Lemma streaming_loop_writes (stop : nat -> bool) (evs : list Shared.LLMAgentEvent)
    (failure : option Shared.Thrown) :
  forall (i : nat) (s : StreamingLoop),
    exists w,
      sl_written (fst (Shared.forAwait stop streamingBody i s evs failure))
      = (sl_written s ++ w)%list
      /\ forallb isWrite w = true.
Proof.
  induction evs as [|event evs IH]; intros i s; cbn [Shared.forAwait].
  - exists []. split; [symmetry; apply app_nil_r | reflexivity].
  - destruct (stop i).
    + exists []. split; [symmetry; apply app_nil_r | reflexivity].
    + destruct (streamingBody_writes s event) as (s' & w & Hbody & Hw & Hall).
      rewrite Hbody. destruct (IH (S i) s') as (w' & Hw' & Hall').
      exists (w ++ w')%list. rewrite Hw', Hw, app_assoc. split; [reflexivity|].
      rewrite forallb_app, Hall, Hall'. reflexivity.
Qed.

(** The events before the first point at which the connection is seen
    destroyed are all handled. *)
Lemma streaming_loop_prefix (stop : nat -> bool)
    (pre rest : list Shared.LLMAgentEvent) (failure : option Shared.Thrown) :
  forall (i : nat) (s : StreamingLoop),
    (forall j, j < length pre -> stop (i + j) = false) ->
    exists s1 w,
      sl_written s1 = (sl_written s ++ w)%list
      /\ forallb isWrite w = true
      /\ Shared.forAwait stop streamingBody i s (pre ++ rest) failure
         = Shared.forAwait stop streamingBody (i + length pre) s1 rest failure.
Proof.
  induction pre as [|event pre IH]; intros i s Hstop.
  - exists s, []. rewrite Nat.add_0_r.
    split; [symmetry; apply app_nil_r | split; reflexivity].
  - cbn [List.app Shared.forAwait].
    assert (Hi : stop i = false)
      by (rewrite <- (Nat.add_0_r i); apply Hstop; simpl; lia).
    rewrite Hi.
    destruct (streamingBody_writes s event) as (s' & w & Hbody & Hw & Hall).
    rewrite Hbody.
    destruct (IH (S i) s') as (s1 & w' & Hw' & Hall' & Hrun).
    { intros j Hj. replace (S i + j) with (i + S j) by lia.
      apply Hstop. simpl. lia. }
    exists s1, (w ++ w')%list. rewrite Hw', Hw, app_assoc.
    split; [reflexivity|]. split.
    + rewrite forallb_app, Hall, Hall'. reflexivity.
    + rewrite Hrun. simpl length. now replace (i + S (length pre)) with (S i + length pre) by lia.
Qed.

(** An error event changes nothing in the streaming chat-completions loop. *)
Lemma openAIStreamingBody_error (s : OpenAIStreamingLoop) (evId : option string)
    (message : string) :
  openAIStreamingBody s (Shared.error evId message) = inl s.
Proof. reflexivity. Qed.

Lemma openAI_streaming_skips_error (pre post : list Shared.LLMAgentEvent)
    (evId : option string) (message : string) (failure : option Shared.Thrown) :
  forall (i j : nat) (s : OpenAIStreamingLoop),
    Shared.forAwait (fun _ => false) openAIStreamingBody i s
      (pre ++ Shared.error evId message :: post) failure
    = Shared.forAwait (fun _ => false) openAIStreamingBody j s (pre ++ post) failure.
Proof.
  induction pre as [|event pre IH]; intros i j s; cbn [List.app Shared.forAwait].
  - rewrite openAIStreamingBody_error. apply forAwait_index.
  - destruct (openAIStreamingBody s event); [apply IH | reflexivity].
Qed.

Lemma nonStreamingBody_total (s : Aggregate) (event : Shared.LLMAgentEvent) :
  isError event = false -> exists s', nonStreamingBody s event = inl s'.
Proof.
  intros H. destruct (nonStreamingBody_step s event H) as (s' & Hs' & _).
  now exists s'.
Qed.

Lemma openAINonStreamingBody_total (s : OpenAIAggregate)
    (event : Shared.LLMAgentEvent) :
  isError event = false -> exists s', openAINonStreamingBody s event = inl s'.
Proof.
  destruct event as [d | evId userStop | evId message]; intros H;
    [| | discriminate H]; unfold openAINonStreamingBody.
  - destruct (toolCallStart d) as [[sid sname]|];
      destruct (toolCallUpdate d) as [[uid uparams]|];
      repeat match goal with
             | |- context [JsMap.get ?k ?m] => destruct (JsMap.get k m) as [[? ?]|]
             end;
      destruct (Shared.totalUsage d); eexists; reflexivity.
  - eexists; reflexivity.
Qed.

End ProviderErrors.

Section AgentLoopSession.

Import LLMProviderPresenter AgentLoop.

Lemma aborted_before (abortedFrom : option nat) (read read' : nat) :
  read <= read' -> aborted abortedFrom read' = false ->
  aborted abortedFrom read = false.
Proof.
  intros Hle Hlater. destruct (aborted abortedFrom read) eqn:E; [|reflexivity].
  rewrite (aborted_monotone abortedFrom read read' Hle E) in Hlater.
  discriminate Hlater.
Qed.

(** A session that is not cancelled before its provider reports an error,
    and whose consumer is still iterating then, hands out the responses
    before the error and the error event, and produces no more. *)
Lemma agentLoop_reaches_error (eventId : string) (abortedFrom leaveAt : option nat)
    (pre : list Shared.ResponseData) (message : string)
    (post : list ProviderEvent) (uncaught : option Shared.Thrown) :
  forall read taken : nat,
    aborted abortedFrom (read + List.length pre) = false ->
    (forall p, leaveAt = Some p -> taken + List.length pre <= p) ->
    let r := agentLoop eventId abortedFrom leaveAt read taken
               (map responded pre ++ errored message :: post) uncaught in
    yielded r = (map Shared.response pre ++ [Shared.error (Some eventId) message])%list
    /\ reads r = S (read + List.length pre)
    /\ (exit r = exhausted \/ exit r = abandoned).
Proof.
  induction pre as [|d pre IH]; intros read taken Habort Hleave;
    cbn [map List.app agentLoop List.length] in *.
  - rewrite Nat.add_0_r in Habort. rewrite Habort. cbv zeta.
    cbn [yielded reads exit]. rewrite Nat.add_0_r.
    split; [reflexivity|]. split; [reflexivity|].
    destruct (match leaveAt with Some p => (p =? taken)%nat | None => false end);
      [now right | now left].
  - rewrite (aborted_before abortedFrom read (read + S (List.length pre)))
      by (lia || exact Habort).
    assert (Hstay : match leaveAt with
                    | Some p => (p =? taken)%nat
                    | None => false
                    end = false).
    { destruct leaveAt as [p|]; [|reflexivity].
      apply Nat.eqb_neq. specialize (Hleave p eq_refl). lia. }
    rewrite Hstay.
    destruct (IH (S read) (S taken)) as (Hyielded & Hreads & Hexit).
    + now rewrite Nat.add_succ_comm.
    + intros p Hp. specialize (Hleave p Hp). lia.
    + cbv zeta in *. cbn [yielded reads exit].
      rewrite Hyielded, Hreads.
      split; [reflexivity|]. split; [f_equal; lia | exact Hexit].
Qed.

(** What the registration, the events of a loop and the cleanup block do to
    the registry and hand out. *)
Lemma cleanup_effects (r : LoopResult) (eventId : string) (state : StreamState)
    (userStop : bool) (leaveAt : option nat)
    (registry : list (string * StreamState)) :
  NoDup (JsMap.keys registry) ->
  let effects :=
    ([registrySet eventId state]
     ++ map yield (yielded r)
     ++ [registryDelete eventId; yield (Shared.end_ (Some eventId) userStop)]
     ++ rethrown leaveAt r)%list in
  deletions eventId effects = 1
  /\ JsMap.has eventId (activeStreamsAfter registry effects) = false
  /\ emitted effects
     = (yielded r ++ [Shared.end_ (Some eventId) userStop])%list.
Proof.
  intros Hnodup effects.
  assert (Htail : emitted (rethrown leaveAt r) = []
                  /\ deletions eventId (rethrown leaveAt r) = 0
                  /\ forall reg, activeStreamsAfter reg (rethrown leaveAt r) = reg).
  { unfold rethrown. destruct (exit r); try (repeat split; fail).
    destruct (match leaveAt with
              | Some p => (p =? List.length (yielded r))%nat
              | None => false
              end); repeat split. }
  destruct Htail as (Hem & Hdel & Hreg).
  subst effects. split; [|split].
  - rewrite !deletions_app, deletions_yields, Hdel.
    unfold deletions. simpl. rewrite String.eqb_refl. reflexivity.
  - rewrite !activeStreamsAfter_app, activeStreamsAfter_yields, Hreg.
    unfold activeStreamsAfter, JsMap.has. simpl.
    rewrite get_delete_same; [reflexivity|].
    now apply NoDup_keys_set.
  - rewrite !emitted_app, emitted_yields, Hem. simpl. rewrite ?app_nil_r. reflexivity.
Qed.

End AgentLoopSession.

Section ProviderErrorOutcome.

Import Presenter.

(** C8 as stated fails for the streaming chat-completions endpoint: a
    provider error event leaves no trace in what is written.  The stream
    with the error event and the stream without it give the same actions,
    and the chunks written are the initial chunk, the final chunk and the
    done marker. *)
Lemma openai_stream_drops_provider_error :
  let withError := plainEnvironment (streamOf [errorEvent "boom"; endEvent]) in
  let without := plainEnvironment (streamOf [endEvent]) in
  let builder := OpenAIResponseBuilder.newBuilder "id-1" "m" 1700000000 in
  handleOpenAIStreamingResponse withError "m" (Some "p") (Some "m")
  = handleOpenAIStreamingResponse without "m" (Some "p") (Some "m")
  /\ written (handleOpenAIStreamingResponse withError "m" (Some "p") (Some "m"))
     = [OpenAIResponseBuilder.buildInitialChunk builder;
        OpenAIResponseBuilder.buildFinalChunk builder (Some finish_stop);
        OpenAIResponseBuilder.buildDone].
Proof. split; reflexivity. Qed.

(** C8, amended.  A provider error event that arrives mid-stream is written
    to a /v1/messages stream as an in-band error frame, under the status 200
    already sent, and the response is then ended.  In a /v1/chat/completions
    stream the error event is not encoded: the handler does what it does on
    the same events without it.  Without streaming, the error turns into a
    500 in the envelope of the endpoint.  In both cases the session is torn
    down and the terminal event is still emitted: the session behind
    [startStreamCompletion] hands out the error event, deregisters itself
    once and emits the end event last, both when its consumer keeps
    iterating, as the streaming handlers do, and when its consumer stops at
    the error event, as the non-streaming handlers do by throwing in the
    loop body. *)
Theorem provider_error_is_reported :
  (forall (env : Environment) (requestModel : string)
          (providerId modelId : option string)
          (pre post : list Shared.LLMAgentEvent)
          (evId : option string) (message : string),
      Shared.events (stream env) = (pre ++ Shared.error evId message :: post)%list ->
      ((forall i, i <= length pre -> destroyed env i = false) ->
       exists before after,
         handleStreamingResponse env requestModel providerId modelId
         = (writeHead 200 "text/event-stream" :: before
            ++ write (ResponseConverter.getErrorEvent "api_error" message) :: after
            ++ [end_response None])%list
         /\ statuses (handleStreamingResponse env requestModel providerId modelId)
            = [200%N])
      /\ ((forall i, destroyed env i = false) ->
          handleOpenAIStreamingResponse env requestModel providerId modelId
          = handleOpenAIStreamingResponse (withEvents env (pre ++ post))
              requestModel providerId modelId)
      /\ (forallb (fun event => negb (isError event)) pre = true ->
          handleNonStreamingResponse env requestModel providerId modelId
          = startStreamCompletion providerId modelId (eventId env)
            :: sendError 500 "api_error" message
          /\ handleOpenAINonStreamingResponse env requestModel providerId modelId
             = startStreamCompletion providerId modelId (eventId env)
               :: sendOpenAIError 500 "api_error" message))
  /\
  (forall (provider : AgentLoop.ProviderStream)
          (providerId modelId eventId : string)
          (abortedFrom leaveAt : option nat)
          (pre : list Shared.ResponseData) (message : string)
          (post : list AgentLoop.ProviderEvent)
          (registry : list (string * LLMProviderPresenter.StreamState)),
      AgentLoop.produced provider
      = (map AgentLoop.responded pre ++ AgentLoop.errored message :: post)%list ->
      NoDup (JsMap.keys registry) ->
      LLMProviderPresenter.aborted abortedFrom (List.length pre) = false ->
      (leaveAt = None \/ exists p, leaveAt = Some p /\ List.length pre <= p) ->
      let effects :=
        AgentLoop.startStreamCompletion provider providerId modelId eventId
          abortedFrom leaveAt in
      let handedOut :=
        (map Shared.response pre
         ++ [Shared.error (Some eventId) message;
             Shared.end_ (Some eventId)
               (LLMProviderPresenter.aborted abortedFrom (S (List.length pre)))])%list in
      LLMProviderPresenter.emitted effects = handedOut
      /\ LLMProviderPresenter.deletions eventId effects = 1
      /\ JsMap.has eventId (LLMProviderPresenter.activeStreamsAfter registry effects)
         = false
      /\ (forall e, ~ In (LLMProviderPresenter.throw e) effects)
      /\ forall (env : Environment) (requestModel : string)
                (providerId' modelId' : option string),
           Shared.events (stream env) = handedOut ->
           handleNonStreamingResponse env requestModel providerId' modelId'
           = startStreamCompletion providerId' modelId' (Presenter.eventId env)
             :: sendError 500 "api_error" message
           /\ handleOpenAINonStreamingResponse env requestModel providerId' modelId'
              = startStreamCompletion providerId' modelId' (Presenter.eventId env)
                :: sendOpenAIError 500 "api_error" message
           /\ ((forall i, i <= List.length pre -> destroyed env i = false) ->
               In (write (ResponseConverter.getErrorEvent "api_error" message))
                  (handleStreamingResponse env requestModel providerId' modelId'))).
Proof.
  match goal with |- ?onHandlers /\ _ => assert (Hhandlers : onHandlers) end.
  { intros env requestModel providerId modelId pre post evId message Hev.
    split; [|split].
    + intros Halive. unfold handleStreamingResponse. rewrite Hev.
      match goal with
      | |- context [Shared.forAwait _ _ 0 ?start _ _] => set (s0 := start)
      end.
      destruct (streaming_loop_prefix (destroyed env) pre
                  (Shared.error evId message :: post)
                  (Shared.failure (stream env)) 0 s0) as (s1 & w & Hw & Hall & Hrun).
      { intros j Hj. apply Halive. simpl. lia. }
      rewrite Hrun. cbn [Shared.forAwait]. rewrite (Halive (0 + length pre)) by (simpl; lia).
      cbn [streamingBody].
      match goal with
      | |- context [Shared.forAwait ?stop streamingBody ?i ?s ?evs ?f] =>
          destruct (streaming_loop_writes stop evs f i s) as (w' & Hw' & Hall');
          destruct (Shared.forAwait stop streamingBody i s evs f) as [s2 failed]
      end.
      cbn [fst sl_written sl_write] in Hw'. rewrite Hw in Hw'.
      subst s0. cbn [sl_written List.app] in Hw'.
      destruct failed as [e|]; rewrite Hw'.
      * exists ([write (ResponseConverter.getInitialEvents
                         (ResponseConverter.newBuilder (freshId env) requestModel));
                 startStreamCompletion providerId modelId (eventId env)] ++ w)%list,
               (w' ++ [write (ResponseConverter.getErrorEvent "api_error"
                                (Shared.messageOf e))])%list.
        split.
        -- cbn [List.app]. rewrite <- !app_assoc. cbn [List.app]. reflexivity.
        -- cbn [List.app]. apply statuses_of_stream.
           rewrite !forallb_app, Hall, Hall'. reflexivity.
      * exists ([write (ResponseConverter.getInitialEvents
                         (ResponseConverter.newBuilder (freshId env) requestModel));
                 startStreamCompletion providerId modelId (eventId env)] ++ w)%list,
               (w' ++ [write (ResponseConverter.getFinalEvents
                                (ResponseConverter.setUsage (sl_builder s2)
                                   (sl_inputTokens s2) (sl_outputTokens s2)))])%list.
        split.
        -- cbn [List.app]. rewrite <- !app_assoc. cbn [List.app]. reflexivity.
        -- cbn [List.app]. apply statuses_of_stream.
           rewrite !forallb_app, Hall, Hall'. reflexivity.
    + intros Halive. unfold handleOpenAIStreamingResponse.
      cbn [withEvents stream freshId now eventId destroyed Shared.events Shared.failure].
      rewrite Hev.
      rewrite !(forAwait_ext openAIStreamingBody (destroyed env) (fun _ => false) Halive).
      rewrite (openAI_streaming_skips_error pre post evId message _ 0 0).
      reflexivity.
    + intros Hpre. split.
      * unfold handleNonStreamingResponse. rewrite Hev.
        match goal with
        | |- context [Shared.forAwait _ _ 0 ?start _ ?f] =>
            destruct (forAwait_throws_at_error nonStreamingBody
                        nonStreamingBody_total (fun _ _ _ => eq_refl)
                        pre post evId message 0 start f Hpre) as (s1 & Hs1)
        end.
        rewrite Hs1. reflexivity.
      * unfold handleOpenAINonStreamingResponse. rewrite Hev.
        match goal with
        | |- context [Shared.forAwait _ _ 0 ?start _ ?f] =>
            destruct (forAwait_throws_at_error openAINonStreamingBody
                        openAINonStreamingBody_total (fun _ _ _ => eq_refl)
                        pre post evId message 0 start f Hpre) as (s1 & Hs1)
        end.
        rewrite Hs1. reflexivity.
  }
  split; [exact Hhandlers|].
  intros provider providerId modelId eventId abortedFrom leaveAt pre message
         post registry Hproduced Hnodup Habort Hleave effects handedOut.
  set (r := AgentLoop.agentLoop eventId abortedFrom leaveAt 0 0
              (AgentLoop.produced provider) (AgentLoop.uncaught provider)).
  destruct (agentLoop_reaches_error eventId abortedFrom leaveAt pre message post
              (AgentLoop.uncaught provider) 0 0 Habort) as (Hyielded & Hreads & Hexit).
  { intros p Hp. destruct Hleave as [Hnone | (q & Hq & Hle)]; [congruence|].
    rewrite Hq in Hp. inversion Hp; subst. exact Hle. }
  cbv zeta in Hyielded, Hreads, Hexit.
  rewrite <- Hproduced in Hyielded, Hreads, Hexit.
  fold r in Hyielded, Hreads, Hexit. cbn [Nat.add] in Hreads.
  destruct (cleanup_effects r eventId
              {| LLMProviderPresenter.isGenerating := true;
                 LLMProviderPresenter.ss_providerId := providerId;
                 LLMProviderPresenter.ss_modelId := modelId |}
              (LLMProviderPresenter.aborted abortedFrom
                 (LLMProviderPresenter.reads r))
              leaveAt registry Hnodup) as (Hdel & Hreg & Hem).
  cbv zeta in Hdel, Hreg, Hem.
  change (AgentLoop.startStreamCompletion provider providerId modelId eventId
            abortedFrom leaveAt)
    with ([LLMProviderPresenter.registrySet eventId
             {| LLMProviderPresenter.isGenerating := true;
                LLMProviderPresenter.ss_providerId := providerId;
                LLMProviderPresenter.ss_modelId := modelId |}]
          ++ map LLMProviderPresenter.yield (LLMProviderPresenter.yielded r)
          ++ [LLMProviderPresenter.registryDelete eventId;
              LLMProviderPresenter.yield
                (Shared.end_ (Some eventId)
                   (LLMProviderPresenter.aborted abortedFrom
                      (LLMProviderPresenter.reads r)))]
          ++ LLMProviderPresenter.rethrown leaveAt r)%list in (value of effects).
  split; [|split; [exact Hdel | split; [exact Hreg | split]]].
  - subst effects handedOut. rewrite Hem, Hyielded, Hreads, <- app_assoc.
    reflexivity.
  - intros e Hin. subst effects.
    assert (Hnothing : LLMProviderPresenter.rethrown leaveAt r = []).
    { unfold LLMProviderPresenter.rethrown.
      destruct Hexit as [Hexit | Hexit]; now rewrite Hexit. }
    rewrite Hnothing in Hin.
    apply in_app_or in Hin. destruct Hin as [[H | []] | Hin]; [discriminate H|].
    apply in_app_or in Hin. destruct Hin as [Hin | Hin].
    + apply in_map_iff in Hin. destruct Hin as (event & H & _). discriminate H.
    + apply in_app_or in Hin.
      destruct Hin as [[H | [H | []]] | []]; discriminate H.
  - intros env requestModel providerId' modelId' Hevents.
    assert (Hresponses :
              forallb (fun event => negb (isError event)) (map Shared.response pre)
              = true).
    { clear. induction pre as [|d pre IH]; [reflexivity | exact IH]. }
    destruct (Hhandlers env requestModel providerId' modelId'
                (map Shared.response pre)
                [Shared.end_ (Some eventId)
                   (LLMProviderPresenter.aborted abortedFrom (S (List.length pre)))]
                (Some eventId) message) as (Hstream & _ & Hplain).
    { rewrite Hevents. subst handedOut. reflexivity. }
    destruct (Hplain Hresponses) as (Hclaude & Hopenai).
    split; [exact Hclaude|]. split; [exact Hopenai|].
    intros Halive.
    destruct Hstream as (before & after & Hshape & _).
    { intros i Hi. apply Halive. now rewrite length_map in Hi. }
    rewrite Hshape. right. apply in_or_app. right. now left.
Qed.

End ProviderErrorOutcome.

(** ** The theorems at concrete inputs *)

(** Gating on a builder in which t1 was started. *)
Lemma handleToolCallChunk_gating_witness :
  let b :=
    fst (ResponseConverter.handleToolCallStart
           (ResponseConverter.newBuilder "msg_1" "m") "t1" "lookup") in
  let toolCall :=
    {| ResponseConverter.index := 1;
       ResponseConverter.name := "lookup";
       ResponseConverter.argsBuffer := "";
       ResponseConverter.started := true |} in
  JsMap.get "t1" (ResponseConverter.currentToolCalls b) = Some toolCall
  /\ snd (ResponseConverter.handleToolCallChunk b "t1" fragment1) = ""
  /\ snd (ResponseConverter.handleToolCallChunk b "t1" "{}")
     = ResponseConverter.formatSSE (ResponseConverter.buildInputJsonDeltaEvent 1 "{}").
Proof.
  intros b toolCall.
  assert (Hget : JsMap.get "t1" (ResponseConverter.currentToolCalls b) = Some toolCall)
    by reflexivity.
  split; [exact Hget|]. split.
  - destruct (proj1 handleToolCallChunk_gating b "t1" fragment1 toolCall Hget)
      as (_ & _ & Hno & _).
    apply Hno. reflexivity.
  - destruct (proj1 handleToolCallChunk_gating b "t1" "{}" toolCall Hget)
      as (_ & Hyes & _).
    apply Hyes. reflexivity.
Defined.

(** Forwarding on a builder in which t1 was started. *)
Lemma buildToolCallArgsChunk_forwards_witness :
  let b :=
    fst (OpenAIResponseBuilder.buildToolCallStartChunk
           (OpenAIResponseBuilder.newBuilder "chatcmpl-1" "m" 1700000000)
           "t1" "lookup") in
  let after1 := OpenAIResponseBuilder.buildToolCallArgsChunk b "t1" fragment1 in
  let after2 := OpenAIResponseBuilder.buildToolCallArgsChunk (fst after1) "t1" fragment2 in
  snd after1
  = OpenAIResponseBuilder.formatOpenAISSE
      (OpenAIResponseBuilder.toolCallArgsChunk b 0 fragment1)
  /\ snd after2
     = OpenAIResponseBuilder.formatOpenAISSE
         (OpenAIResponseBuilder.toolCallArgsChunk b 0 fragment2).
Proof.
  intros b after1 after2.
  exact (proj2 (buildToolCallArgsChunk_forwards b "t1"
                  {| OpenAIResponseBuilder.index := 0;
                     OpenAIResponseBuilder.name := "lookup";
                     OpenAIResponseBuilder.argsBuffer := "" |}
                  eq_refl) fragment1 fragment2).
Defined.

(** An update for t2 when only t1 was started. *)
Lemma unknown_tool_call_id_is_ignored_witness :
  let b :=
    fst (ResponseConverter.handleToolCallStart
           (ResponseConverter.newBuilder "msg_1" "m") "t1" "lookup") in
  let o :=
    fst (OpenAIResponseBuilder.buildToolCallStartChunk
           (OpenAIResponseBuilder.newBuilder "chatcmpl-1" "m" 1700000000)
           "t1" "lookup") in
  ResponseConverter.handleToolCallChunk b "t2" "{}" = (b, "")
  /\ OpenAIResponseBuilder.buildToolCallArgsChunk o "t2" "{}" = (o, "").
Proof.
  intros b o.
  destruct unknown_tool_call_id_is_ignored as (Ha & Ho & _).
  split; [apply Ha | apply Ho]; reflexivity.
Defined.

(** A provider error after some text, on the four handlers, and in a
    session whose consumer stops at the error event. *)
Lemma provider_error_is_reported_witness :
  let env :=
    plainEnvironment (streamOf [textEvent "x"; errorEvent "boom"; endEvent]) in
  let provider :=
    {| AgentLoop.produced :=
         [AgentLoop.responded (Shared.onlyEventId "event-1");
          AgentLoop.errored "boom";
          AgentLoop.responded (Shared.onlyEventId "event-1")];
       AgentLoop.uncaught := None |} in
  let effects :=
    AgentLoop.startStreamCompletion provider "p" "m" "event-1" None (Some 1) in
  Presenter.statuses
    (Presenter.handleStreamingResponse env "m" (Some "p") (Some "m")) = [200%N]
  /\ In (Presenter.write (ResponseConverter.getErrorEvent "api_error" "boom"))
        (Presenter.handleStreamingResponse env "m" (Some "p") (Some "m"))
  /\ Presenter.handleNonStreamingResponse env "m" (Some "p") (Some "m")
     = Presenter.startStreamCompletion (Some "p") (Some "m") "event-1"
       :: Presenter.sendError 500 "api_error" "boom"
  /\ Presenter.handleOpenAINonStreamingResponse env "m" (Some "p") (Some "m")
     = Presenter.startStreamCompletion (Some "p") (Some "m") "event-1"
       :: Presenter.sendOpenAIError 500 "api_error" "boom"
  /\ LLMProviderPresenter.emitted effects
     = [Shared.response (Shared.onlyEventId "event-1");
        Shared.error (Some "event-1") "boom";
        Shared.end_ (Some "event-1") false]
  /\ LLMProviderPresenter.deletions "event-1" effects = 1.
Proof.
  intros env provider effects.
  destruct provider_error_is_reported as [Hgateway Hsession].
  destruct (Hgateway env "m" (Some "p") (Some "m")
              [textEvent "x"] [endEvent] (Some "event-1") "boom" eq_refl)
    as (Hstream & _ & Hplain).
  destruct (Hstream (fun _ _ => eq_refl)) as (before & after & Hshape & Hstatus).
  destruct (Hplain eq_refl) as (Hclaude & Hopenai).
  destruct (Hsession provider "p" "m" "event-1" None (Some 1)
              [Shared.onlyEventId "event-1"] "boom"
              [AgentLoop.responded (Shared.onlyEventId "event-1")] []
              eq_refl (NoDup_nil _) eq_refl
              (or_intror (ex_intro _ 1 (conj eq_refl (le_n 1)))))
    as (Hemitted & Hdel & _).
  split; [exact Hstatus|]. split.
  - rewrite Hshape. right. apply in_or_app. right. now left.
  - split; [exact Hclaude|]. split; [exact Hopenai|].
    split; [exact Hemitted | exact Hdel].
Defined.

(* ------------------------------------------------------------------ *)
(** ** Block indices of the streaming encoders *)

Section MapValues.

Context {V A : Type}.
Variable f : V -> A.

Lemma values_set_Forall (P : V -> Prop) (k : string) (v : V) (m : list (string * V)) :
  Forall P (JsMap.values m) -> P v -> Forall P (JsMap.values (JsMap.set k v m)).
Proof.
  unfold JsMap.values. intros Hall Hv.
  induction m as [|[k' v'] m IH]; cbn [JsMap.set map].
  - constructor; [exact Hv | constructor].
  - inversion Hall as [|? ? Hhead Htail]; subst.
    destruct (k =? k'); cbn [map fst snd]; constructor; auto.
Qed.

Lemma values_set_In (k : string) (v : V) (m : list (string * V)) (a : A) :
  In a (map f (JsMap.values (JsMap.set k v m))) ->
  a = f v \/ In a (map f (JsMap.values m)).
Proof.
  unfold JsMap.values.
  induction m as [|[k' v'] m IH]; cbn [JsMap.set map fst snd In].
  - intros [H | []]. now left.
  - destruct (k =? k'); cbn [map fst snd In].
    + intros [H | H]; [now left | right; now right].
    + intros [H | H]; [right; now left|].
      destruct (IH H) as [H' | H']; [now left | right; now right].
Qed.

Lemma values_set_NoDup (k : string) (v : V) (m : list (string * V)) :
  NoDup (map f (JsMap.values m)) ->
  ~ In (f v) (map f (JsMap.values m)) ->
  NoDup (map f (JsMap.values (JsMap.set k v m))).
Proof.
  unfold JsMap.values.
  induction m as [|[k' v'] m IH]; cbn [JsMap.set map fst snd In]; intros Hnd Hnew.
  - constructor; [tauto | constructor].
  - inversion Hnd as [|? ? Hnotin Htail]; subst.
    destruct (k =? k'); cbn [map fst snd].
    + constructor; [tauto | exact Htail].
    + constructor.
      * intros Hin. destruct (values_set_In k v m _ Hin) as [H | H]; tauto.
      * apply IH; tauto.
Qed.

(** Replacing the value of a present key by one with the same image keeps
    the images of the values, in order. *)
Lemma values_set_same_image (k : string) (v v0 : V) (m : list (string * V)) :
  JsMap.get k m = Some v0 -> f v = f v0 ->
  map f (JsMap.values (JsMap.set k v m)) = map f (JsMap.values m).
Proof.
  unfold JsMap.values. intros Hget Himage.
  induction m as [|[k' v'] m IH]; cbn [JsMap.get JsMap.set map fst snd] in *;
    [discriminate|].
  destruct (k =? k'); cbn [map fst snd].
  - inversion Hget; subst. now rewrite Himage.
  - now rewrite IH.
Qed.

End MapValues.

Section AnthropicBlockIndices.

Import ResponseConverter.

Lemma handleToolCallChunk_indices (b : StreamingResponseBuilder) (id chunk : string) :
  let b' := fst (handleToolCallChunk b id chunk) in
  map index (JsMap.values (currentToolCalls b'))
  = map index (JsMap.values (currentToolCalls b))
  /\ toolBlockCounter b' = toolBlockCounter b.
Proof.
  unfold handleToolCallChunk.
  destruct (JsMap.get id (currentToolCalls b)) as [toolCall|] eqn:Hget;
    [|split; reflexivity].
  assert (Hsame :
    map index (JsMap.values (currentToolCalls (appendArgs b id toolCall chunk)))
    = map index (JsMap.values (currentToolCalls b))).
  { unfold appendArgs. cbn [currentToolCalls].
    now apply (values_set_same_image index id _ toolCall). }
  destruct (JSON.parses (argsBuffer toolCall ++ chunk)); cbn [fst];
    (split; [exact Hsame | reflexivity]).
Qed.

(** X1.  In every state of a streaming /v1/messages session the content-block
    indices of the registered tool calls are pairwise distinct, none is the
    text block's index 0, and none exceeds the number of tool calls started
    so far: [getFinalEvents] closes each open tool block once and never the
    text block twice. *)
Theorem tool_block_indices_distinct (b : StreamingResponseBuilder) :
  reachable b ->
  NoDup (map index (JsMap.values (currentToolCalls b)))
  /\ Forall (fun toolCall => (1 <= index toolCall <= toolBlockCounter b)%N)
       (JsMap.values (currentToolCalls b)).
Proof.
  intros Hreach.
  assert (Htext := reachable_textBlockIndex).
  induction Hreach as [messageId model | b id name Hb IH | b id chunk Hb IH
                      | b i o Hb IH | b reason Hb IH]; try exact IH.
  - split; constructor.
  - destruct IH as [Hnd Hall].
    cbn [handleToolCallStart fst currentToolCalls toolBlockCounter].
    rewrite (Htext b Hb). split.
    + apply values_set_NoDup; [exact Hnd|].
      cbn [index]. intros Hin. apply in_map_iff in Hin.
      destruct Hin as (toolCall & Hindex & Hin).
      rewrite Forall_forall in Hall. specialize (Hall toolCall Hin). lia.
    + apply values_set_Forall; [|cbn [index]; lia].
      eapply Forall_impl; [|exact Hall]. cbn beta. intros toolCall H. lia.
  - destruct IH as [Hnd Hall].
    destruct (handleToolCallChunk_indices b id chunk) as [Hindices Hcounter].
    cbn zeta in Hindices, Hcounter. split.
    + now rewrite Hindices.
    + rewrite Hcounter.
      apply Forall_forall. intros toolCall Hin.
      assert (Hidx : In (index toolCall)
                       (map index (JsMap.values (currentToolCalls b)))).
      { rewrite <- Hindices. now apply in_map. }
      apply in_map_iff in Hidx. destruct Hidx as (old & Heq & Hold).
      rewrite Forall_forall in Hall. specialize (Hall old Hold). lia.
Qed.

End AnthropicBlockIndices.

Section OpenAIToolCallIndices.

Import OpenAIResponseBuilder.

(** X2.  In every state of a streaming /v1/chat/completions session the
    indices of the registered tool calls are pairwise distinct and below the
    number of tool calls started so far, which is the index the next one
    gets. *)
Theorem tool_call_indices_distinct (b : OpenAIStreamingBuilder) :
  reachableOpenAI b ->
  NoDup (map index (JsMap.values (currentToolCalls b)))
  /\ Forall (fun toolCall => (index toolCall < toolCallIndex b)%N)
       (JsMap.values (currentToolCalls b)).
Proof.
  induction 1 as [id model created | b toolId toolName Hb IH
                 | b toolId args Hb IH | b p c Hb IH]; try exact IH.
  - split; constructor.
  - destruct IH as [Hnd Hall].
    cbn [buildToolCallStartChunk fst currentToolCalls toolCallIndex]. split.
    + apply values_set_NoDup; [exact Hnd|].
      cbn [index]. intros Hin. apply in_map_iff in Hin.
      destruct Hin as (toolCall & Hindex & Hin).
      rewrite Forall_forall in Hall. specialize (Hall toolCall Hin). lia.
    + apply values_set_Forall; [|cbn [index]; lia].
      eapply Forall_impl; [|exact Hall]. cbn beta. intros toolCall H. lia.
  - unfold buildToolCallArgsChunk.
    destruct (JsMap.get toolId (currentToolCalls b)); exact IH.
Qed.

End OpenAIToolCallIndices.

(** The invariant on a session that starts t1, feeds it, starts t2 and
    starts t1 again. *)
Lemma tool_block_indices_distinct_witness :
  let b0 := ResponseConverter.newBuilder "msg_1" "m" in
  let b1 := fst (ResponseConverter.handleToolCallStart b0 "t1" "lookup") in
  let b2 := fst (ResponseConverter.handleToolCallChunk b1 "t1" "{}") in
  let b3 := fst (ResponseConverter.handleToolCallStart b2 "t2" "search") in
  let b4 := fst (ResponseConverter.handleToolCallStart b3 "t1" "lookup") in
  map ResponseConverter.index (JsMap.values (ResponseConverter.currentToolCalls b4))
  = [3; 2]%N
  /\ NoDup (map ResponseConverter.index
              (JsMap.values (ResponseConverter.currentToolCalls b4))).
Proof.
  intros b0 b1 b2 b3 b4. split; [reflexivity|].
  apply (tool_block_indices_distinct b4).
  apply reach_start, reach_start, reach_chunk, reach_start, reach_new.
Defined.

(** The invariant on a session that starts t1 twice and t2 once. *)
Lemma tool_call_indices_distinct_witness :
  let b0 := OpenAIResponseBuilder.newBuilder "chatcmpl-1" "m" 1700000000 in
  let b1 := fst (OpenAIResponseBuilder.buildToolCallStartChunk b0 "t1" "lookup") in
  let b2 := fst (OpenAIResponseBuilder.buildToolCallStartChunk b1 "t2" "search") in
  let b3 := fst (OpenAIResponseBuilder.buildToolCallStartChunk b2 "t1" "lookup") in
  map OpenAIResponseBuilder.index
    (JsMap.values (OpenAIResponseBuilder.currentToolCalls b3)) = [2; 1]%N
  /\ NoDup (map OpenAIResponseBuilder.index
              (JsMap.values (OpenAIResponseBuilder.currentToolCalls b3))).
Proof.
  intros b0 b1 b2 b3. split; [reflexivity|].
  apply (tool_call_indices_distinct b3).
  apply reachO_start, reachO_start, reachO_start, reachO_new.
Defined.

(* ------------------------------------------------------------------ *)
(** ** Fragments of tool arguments, from start to end *)

Section ArgumentBuffer.

Import ResponseConverter.

Lemma feed_buffer (fragments : list string) :
  forall (b : StreamingResponseBuilder) (id : string) (toolCall : ToolCall),
    JsMap.get id (currentToolCalls b) = Some toolCall ->
    JsMap.get id (currentToolCalls (feed b id fragments))
    = Some {| index := index toolCall;
              name := name toolCall;
              argsBuffer := argsBuffer toolCall ++ fold_right append "" fragments;
              started := started toolCall |}.
Proof.
  induction fragments as [|fragment fragments IH]; intros b id toolCall Hget.
  - cbn [feed fold_left fold_right]. rewrite append_nil_r, Hget.
    now destruct toolCall.
  - unfold feed. cbn [fold_left fold_right]. fold (feed
      (fst (handleToolCallChunk b id fragment)) id fragments).
    rewrite (IH _ id
               {| index := index toolCall;
                  name := name toolCall;
                  argsBuffer := argsBuffer toolCall ++ fragment;
                  started := started toolCall |}).
    + cbn [index name argsBuffer started]. now rewrite append_assoc.
    + unfold handleToolCallChunk. rewrite Hget.
      destruct (JSON.parses (argsBuffer toolCall ++ fragment)); cbn [fst];
        unfold appendArgs; cbn [currentToolCalls]; apply get_set_same.
Qed.

(** X3.  After a tool call is started and its argument fragments are fed in
    order, [handleToolCallEnd] writes nothing when the complete arguments it
    is given are the concatenation of the fragments, and otherwise writes one
    [input_json_delta] for the block of the call that carries the complete
    arguments; whether the fragments parsed on the way plays no part. *)
Theorem handleToolCallEnd_after_fragments (b : StreamingResponseBuilder)
    (id toolName : string) (fragments : list string) (args : string) :
  handleToolCallEnd (feed (fst (handleToolCallStart b id toolName)) id fragments)
    id args
  = if fold_right append "" fragments =? args then ""
    else formatSSE
           (buildInputJsonDeltaEvent
              (textBlockIndex b + (toolBlockCounter b + 1)) args).
Proof.
  unfold handleToolCallEnd.
  rewrite (feed_buffer fragments _ id
             {| index := (textBlockIndex b + (toolBlockCounter b + 1))%N;
                name := toolName; argsBuffer := ""; started := true |}).
  - cbn [argsBuffer index append].
    now destruct (fold_right append "" fragments =? args).
  - cbn [handleToolCallStart fst currentToolCalls]. apply get_set_same.
Qed.

End ArgumentBuffer.

(* ------------------------------------------------------------------ *)
(** ** Every request is answered once *)

Section AnsweredOnce.

Import Presenter.

Lemma ends_app (l1 l2 : list Action) : ends (l1 ++ l2) = ends l1 + ends l2.
Proof. unfold ends. now rewrite filter_app, length_app. Qed.

Lemma ends_writes (w : list Action) : forallb isWrite w = true -> ends w = 0.
Proof.
  induction w as [|a w IH]; [reflexivity|].
  destruct a; cbn [forallb isWrite andb]; try discriminate. exact IH.
Qed.

Lemma answeredOnce_envelope (status : N) (contentType : string)
    (pre : list Action) (body : option Response.Body) :
  statuses pre = [] -> ends pre = 0 ->
  answeredOnce (pre ++ [writeHead status contentType; end_response body]).
Proof.
  intros Hstatus Hends.
  exists status, (pre ++ [writeHead status contentType])%list, body.
  split; [|split].
  - rewrite statuses_app, Hstatus. reflexivity.
  - now rewrite <- app_assoc.
  - rewrite ends_app, Hends. reflexivity.
Qed.

Lemma answeredOnce_stream (status : N) (contentType first : string)
    (providerId modelId : option string) (eventId : string) (w : list Action) :
  forallb isWrite w = true ->
  answeredOnce
    ([writeHead status contentType; write first;
      startStreamCompletion providerId modelId eventId]
     ++ w ++ [end_response None]).
Proof.
  intros Hall.
  exists status,
    ([writeHead status contentType; write first;
      startStreamCompletion providerId modelId eventId] ++ w)%list, None.
  split; [|split].
  - rewrite !statuses_app, (statuses_writes w Hall). reflexivity.
  - now rewrite <- app_assoc.
  - rewrite ends_app, (ends_writes w Hall). reflexivity.
Qed.

Lemma forallb_isWrite_app (w1 w2 : list Action) :
  forallb isWrite w1 = true -> forallb isWrite w2 = true ->
  forallb isWrite (w1 ++ w2) = true.
Proof. intros H1 H2. now rewrite forallb_app, H1, H2. Qed.

Lemma handleStreamingResponse_once (env : Environment) (requestModel : string)
    (providerId modelId : option string) :
  answeredOnce (handleStreamingResponse env requestModel providerId modelId).
Proof.
  unfold handleStreamingResponse.
  set (start := {| sl_builder := ResponseConverter.newBuilder (freshId env) requestModel;
                   sl_inputTokens := 0; sl_outputTokens := 0; sl_written := [] |}).
  destruct (streaming_loop_writes (destroyed env) (Shared.events (stream env))
              (Shared.failure (stream env)) 0 start) as (w & Hw & Hall).
  destruct (Shared.forAwait (destroyed env) streamingBody 0 start
              (Shared.events (stream env)) (Shared.failure (stream env)))
    as [s [e|]]; cbn [fst] in Hw; rewrite Hw; cbn [sl_written start List.app].
  - change (w ++ [write (ResponseConverter.getErrorEvent "api_error" (Shared.messageOf e));
                  end_response None])%list
      with (w ++ [write (ResponseConverter.getErrorEvent "api_error" (Shared.messageOf e))]
              ++ [end_response None])%list.
    rewrite app_assoc.
    apply (answeredOnce_stream 200 "text/event-stream").
    now apply forallb_isWrite_app.
  - match goal with
    | |- answeredOnce (_ :: _ :: _ :: w ++ [write ?final; end_response None])%list =>
        change (w ++ [write final; end_response None])%list
          with (w ++ [write final] ++ [end_response None])%list
    end.
    rewrite app_assoc.
    apply (answeredOnce_stream 200 "text/event-stream").
    now apply forallb_isWrite_app.
Qed.

Lemma handleNonStreamingResponse_once (env : Environment) (requestModel : string)
    (providerId modelId : option string) :
  answeredOnce (handleNonStreamingResponse env requestModel providerId modelId).
Proof.
  unfold handleNonStreamingResponse.
  destruct (Shared.forAwait (fun _ => false) nonStreamingBody 0 _
              (Shared.events (stream env)) (Shared.failure (stream env)))
    as [s [e|]]; unfold sendError;
    now apply (answeredOnce_envelope _ _ [startStreamCompletion _ _ _]).
Qed.

Lemma openAIStreamingBody_writes (s : OpenAIStreamingLoop)
    (event : Shared.LLMAgentEvent) :
  exists s' w,
    openAIStreamingBody s event = inl s'
    /\ ol_written s' = (ol_written s ++ w)%list
    /\ forallb isWrite w = true.
Proof.
  destruct event as [d | evId userStop | evId message].
  - unfold openAIStreamingBody.
    destruct (present (Shared.content d)) as [c|];
      destruct (present (Shared.reasoning_content d)) as [rc|];
      destruct (toolCallStart d) as [[sid sname]|];
      destruct (toolCallUpdate d) as [[uid uparams]|];
      destruct (Shared.totalUsage d) as [u|];
      cbn [OpenAIResponseBuilder.buildToolCallStartChunk];
      repeat match goal with
             | |- context [OpenAIResponseBuilder.buildToolCallArgsChunk ?b ?i ?p] =>
                 let E := fresh "E" in
                 destruct (OpenAIResponseBuilder.buildToolCallArgsChunk b i p)
                   as [? ?] eqn:E
             end;
      eexists; eexists; (split; [reflexivity|]);
      cbn [ol_written ol_write ol_setBuilder ol_setTokens];
      rewrite <- ?app_assoc;
      (split; [try reflexivity; symmetry; apply app_nil_r | reflexivity]).
  - exists (ol_setStopReason s (if userStop then "stop" else "stop")), [].
    split; [reflexivity|]. split; [symmetry; apply app_nil_r | reflexivity].
  - exists s, []. split; [reflexivity|].
    split; [symmetry; apply app_nil_r | reflexivity].
Qed.

Lemma openAI_loop_writes (stop : nat -> bool) (evs : list Shared.LLMAgentEvent)
    (failure : option Shared.Thrown) :
  forall (i : nat) (s : OpenAIStreamingLoop),
    exists w,
      ol_written (fst (Shared.forAwait stop openAIStreamingBody i s evs failure))
      = (ol_written s ++ w)%list
      /\ forallb isWrite w = true.
Proof.
  induction evs as [|event evs IH]; intros i s; cbn [Shared.forAwait].
  - exists []. split; [symmetry; apply app_nil_r | reflexivity].
  - destruct (stop i).
    + exists []. split; [symmetry; apply app_nil_r | reflexivity].
    + destruct (openAIStreamingBody_writes s event) as (s' & w & Hbody & Hw & Hall).
      rewrite Hbody. destruct (IH (S i) s') as (w' & Hw' & Hall').
      exists (w ++ w')%list. split.
      * rewrite Hw', Hw. now rewrite app_assoc.
      * now apply forallb_isWrite_app.
Qed.

Lemma handleOpenAIStreamingResponse_once (env : Environment) (requestModel : string)
    (providerId modelId : option string) :
  answeredOnce (handleOpenAIStreamingResponse env requestModel providerId modelId).
Proof.
  unfold handleOpenAIStreamingResponse.
  set (start := {| ol_builder :=
                     OpenAIResponseBuilder.newBuilder (freshId env) requestModel (now env);
                   ol_inputTokens := 0; ol_outputTokens := 0;
                   ol_stopReason := None; ol_written := [] |}).
  destruct (openAI_loop_writes (destroyed env) (Shared.events (stream env))
              (Shared.failure (stream env)) 0 start) as (w & Hw & Hall).
  destruct (Shared.forAwait (destroyed env) openAIStreamingBody 0 start
              (Shared.events (stream env)) (Shared.failure (stream env)))
    as [s [e|]]; cbn [fst] in Hw; rewrite Hw; cbn [ol_written start List.app].
  - change (w ++ [write OpenAIResponseBuilder.buildDone; end_response None])%list
      with (w ++ [write OpenAIResponseBuilder.buildDone] ++ [end_response None])%list.
    rewrite app_assoc.
    apply (answeredOnce_stream 200 "text/event-stream").
    now apply forallb_isWrite_app.
  - match goal with
    | |- answeredOnce (_ :: _ :: _ :: w ++ [write ?final; write ?done; end_response None])%list =>
        change (w ++ [write final; write done; end_response None])%list
          with (w ++ [write final; write done] ++ [end_response None])%list
    end.
    rewrite app_assoc.
    apply (answeredOnce_stream 200 "text/event-stream").
    now apply forallb_isWrite_app.
Qed.

Lemma handleOpenAINonStreamingResponse_once (env : Environment)
    (requestModel : string) (providerId modelId : option string) :
  answeredOnce (handleOpenAINonStreamingResponse env requestModel providerId modelId).
Proof.
  unfold handleOpenAINonStreamingResponse.
  destruct (Shared.forAwait (fun _ => false) openAINonStreamingBody 0 _
              (Shared.events (stream env)) (Shared.failure (stream env)))
    as [s [e|]]; unfold sendOpenAIError;
    now apply (answeredOnce_envelope _ _ [startStreamCompletion _ _ _]).
Qed.

(** X4.  Whatever the body of a POST /v1/messages request, the configuration,
    the provider's events and the moment the client goes away, the handler
    under the dispatcher's catch sends one status line and ends the response
    once, as its last action: no request is left open and none is answered
    twice, also when the provider stream throws mid-way. *)
Theorem messages_request_answered_once (config : AnthropicApiServerConfig)
    (env : Environment) (body : Request.Parsed) :
  answeredOnce (handleRequestCatch (handleMessages config env body)).
Proof.
  unfold handleMessages.
  destruct body as [| |request]; cbn [handleRequestCatch];
    try (unfold sendError; now apply (answeredOnce_envelope _ _ [])).
  destruct (present (Request.model request)) as [model|];
    [|unfold sendError; now apply (answeredOnce_envelope _ _ [])].
  destruct (messagesMissing (Request.messages request));
    [unfold sendError; now apply (answeredOnce_envelope _ _ [])|].
  destruct (maxTokensMissing (Request.max_tokens request));
    [unfold sendError; now apply (answeredOnce_envelope _ _ [])|].
  destruct (mapClaudeModel model (defaultProviderId config) (defaultModelId config))
    as [modelMapping|];
    [|unfold sendError; now apply (answeredOnce_envelope _ _ [])].
  destruct (destructure modelMapping) as [providerId modelId].
  destruct (negb (providerKnown env providerId));
    [unfold sendError; now apply (answeredOnce_envelope _ _ [])|].
  destruct (Request.stream request); cbn [handleRequestCatch].
  - apply handleStreamingResponse_once.
  - apply handleNonStreamingResponse_once.
Qed.

(** X5.  The same for POST /v1/chat/completions: one status line and one end
    of the response, which is the last action, for every body, configuration
    and provider stream. *)
Theorem chat_completions_request_answered_once (config : AnthropicApiServerConfig)
    (env : Environment) (body : Request.Parsed) :
  answeredOnce (handleRequestCatch (handleChatCompletions config env body)).
Proof.
  unfold handleChatCompletions.
  destruct body as [| |request]; cbn [handleRequestCatch];
    try (unfold sendOpenAIError, sendError; now apply (answeredOnce_envelope _ _ [])).
  destruct (present (Request.model request)) as [model|];
    [|unfold sendOpenAIError; now apply (answeredOnce_envelope _ _ [])].
  destruct (messagesMissing (Request.messages request));
    [unfold sendOpenAIError; now apply (answeredOnce_envelope _ _ [])|].
  destruct (mapClaudeModel model (defaultProviderId config) (defaultModelId config))
    as [modelMapping|];
    [|unfold sendOpenAIError; now apply (answeredOnce_envelope _ _ [])].
  destruct (destructure modelMapping) as [providerId modelId].
  destruct (negb (providerKnown env providerId));
    [unfold sendOpenAIError; now apply (answeredOnce_envelope _ _ [])|].
  destruct (Request.stream request); cbn [handleRequestCatch].
  - apply handleOpenAIStreamingResponse_once.
  - apply handleOpenAINonStreamingResponse_once.
Qed.

End AnsweredOnce.

(* ------------------------------------------------------------------ *)
(** ** The model list and the model router *)

Section ModelList.

Import Server.

Lemma listed_flat_map (created : N) (providers : list Provider) :
  forall listed : list json,
    fold_left (fun listed provider =>
                 (listed ++ providerEntries created provider)%list)
      providers listed
    = (listed ++ flat_map (providerEntries created) providers)%list.
Proof.
  induction providers as [|provider providers IH]; intros listed; cbn [fold_left flat_map].
  - now rewrite app_nil_r.
  - now rewrite IH, app_assoc.
Qed.

Lemma listedData_handleListModels (created : N) (providers : list Provider) :
  listedData (handleListModels created (inl providers))
  = Some (flat_map (providerEntries created) providers).
Proof.
  unfold handleListModels. rewrite listed_flat_map. reflexivity.
Qed.

Lemma providerEntries_unlistable (created : N) (provider : Provider) :
  listable provider = false -> providerEntries created provider = [].
Proof.
  unfold listable, providerEntries.
  destruct (enable provider); cbn [negb andb]; [|reflexivity].
  now destruct (models provider).
Qed.

(** X6.  GET /v1/models answers 200 with exactly the models of the enabled
    providers whose model list can be fetched, provider by provider in the
    order of [getProviders]: a disabled provider and one whose [getModelList]
    fails change nothing in the response, wherever they stand in the list. *)
Theorem handleListModels_skips_unlistable (created : N) (providers : list Provider) :
  handleListModels created (inl providers)
  = handleListModels created (inl (filter listable providers))
  /\ listedData (handleListModels created (inl providers))
     = Some (flat_map (providerEntries created) (filter listable providers)).
Proof.
  assert (Hsame : flat_map (providerEntries created) providers
                  = flat_map (providerEntries created) (filter listable providers)).
  { induction providers as [|provider providers IH]; [reflexivity|].
    cbn [flat_map filter].
    destruct (listable provider) eqn:E; cbn [flat_map].
    - now rewrite IH.
    - now rewrite (providerEntries_unlistable created provider E). }
  split.
  - unfold handleListModels. now rewrite !listed_flat_map, Hsame.
  - now rewrite listedData_handleListModels, Hsame.
Qed.

(** X7.  Round trip between GET /v1/models and the model router: for an
    enabled provider whose list is fetched, every model of it is listed under
    an id that, sent back as the model of a request when no defaults are
    configured, resolves to that provider and that model, provided the
    provider id and the model id are not empty and hold no slash. *)
Theorem listed_model_resolves (created : N) (providers : list Provider)
    (provider : Provider) (providerModels : list string) (modelId : string) :
  In provider providers ->
  enable provider = true ->
  models provider = Some providerModels ->
  In modelId providerModels ->
  id provider <> "" -> modelId <> "" ->
  JS.includes "/" (id provider) = false ->
  JS.includes "/" modelId = false ->
  exists (data : list json) (entry : json) (listedId : string),
    listedData (handleListModels created (inl providers)) = Some data
    /\ In entry data
    /\ entryId entry = Some listedId
    /\ mapClaudeModel listedId None None = Some (Mapping (id provider) modelId).
Proof.
  intros Hprovider Henabled Hmodels Hmodel Hp Hm Hpslash Hmslash.
  exists (flat_map (providerEntries created) providers),
         (modelEntry created provider modelId),
         (listedModelId (id provider) modelId).
  split; [apply listedData_handleListModels|]. split; [|split].
  - apply in_flat_map. exists provider. split; [exact Hprovider|].
    unfold providerEntries. rewrite Henabled, Hmodels. cbn [negb].
    now apply in_map.
  - reflexivity.
  - apply mapClaudeModel_single_slash; try assumption.
    now apply listedModelId_cut.
Qed.

(** The round trip on two providers, the first of them disabled. *)
Lemma listed_model_resolves_witness :
  let off := {| id := "openai"; name := None; enable := false;
                models := Some ["gpt-4o"] |} in
  let on := {| id := "deepseek"; name := Some "DeepSeek"; enable := true;
               models := Some ["deepseek-chat"; "deepseek-reasoner"] |} in
  exists (data : list json) (entry : json) (listedId : string),
    listedData (handleListModels 1700000000 (inl [off; on])) = Some data
    /\ In entry data
    /\ entryId entry = Some listedId
    /\ mapClaudeModel listedId None None
       = Some (Mapping "deepseek" "deepseek-reasoner").
Proof.
  intros off on.
  apply (listed_model_resolves 1700000000 [off; on] on
           ["deepseek-chat"; "deepseek-reasoner"] "deepseek-reasoner").
  - right. left. reflexivity.
  - reflexivity.
  - reflexivity.
  - right. left. reflexivity.
  - discriminate.
  - discriminate.
  - reflexivity.
  - reflexivity.
Defined.

End ModelList.

(* ------------------------------------------------------------------ *)
(** ** The dispatcher: preflight, API key, routing *)

Section Dispatcher.

Import Presenter Server.

Lemma startsWith_prefix (prefix rest : string) :
  startsWith prefix (prefix ++ rest) = true.
Proof.
  induction prefix as [|a prefix IH]; cbn [startsWith append]; [reflexivity|].
  now rewrite Ascii.eqb_refl, IH.
Qed.

Lemma slice_prefix (prefix rest : string) :
  slice (String.length prefix) (prefix ++ rest) = rest.
Proof.
  induction prefix as [|a prefix IH]; cbn [slice String.length append].
  - now destruct rest.
  - exact IH.
Qed.

Lemma providedKey_bearer (req : IncomingMessage) (token : string) :
  authorization req = Some ("Bearer " ++ token) -> token <> "" ->
  providedKey req = Some token.
Proof.
  intros Hauth Htoken. unfold providedKey. rewrite Hauth.
  rewrite (startsWith_prefix "Bearer " token).
  change 7 with (String.length "Bearer ").
  rewrite (slice_prefix "Bearer " token).
  unfold present. now rewrite (truthy_nonempty token Htoken).
Qed.

Lemma key_differs (provided key : string) :
  provided <> key -> negb (provided =? key) = true.
Proof.
  intros Hne. destruct (provided =? key) eqn:E; [|reflexivity].
  apply String.eqb_eq in E. contradiction.
Qed.

(** X8.  With an API key configured: a preflight OPTIONS request is answered
    204 after the CORS headers without the key being looked at; any other
    request that does not present the configured key is answered 401
    authentication_error and no handler runs, whatever the route; a request
    that presents the key gets what the handler of its route does, under the
    dispatcher's catch. *)
Theorem api_key_gate (config : AnthropicApiServerConfig) (req : IncomingMessage)
    (h : Handlers) (key path : string) :
  present (apiKey config) = Some key ->
  pathname req = Some path ->
  ((method req =? "OPTIONS") = true ->
   handleRequest config req h
   = ((corsHeaders ++ [writeHeadBare 204; endBare])%list, None))
  /\ ((method req =? "OPTIONS") = false -> providedKey req <> Some key ->
      handleRequest config req h
      = ((corsHeaders
          ++ map handled (sendError 401 "authentication_error" "Invalid API key"))%list,
         None))
  /\ ((method req =? "OPTIONS") = false -> providedKey req = Some key ->
      handleRequest config req h
      = ((corsHeaders
          ++ map handled (handleRequestCatch (route (method req) path h)))%list,
         None)).
Proof.
  intros Hkey Hpath. unfold handleRequest. split; [|split].
  - intros Hoptions. now rewrite Hoptions.
  - intros Hoptions Hwrong. rewrite Hoptions, Hpath, Hkey.
    destruct (providedKey req) as [provided|]; [|reflexivity].
    rewrite key_differs; [reflexivity | congruence].
  - intros Hoptions Hright. rewrite Hoptions, Hpath, Hkey, Hright.
    now rewrite String.eqb_refl.
Qed.

(** The gate on a POST to /v1/messages with key k1 configured and k2 sent. *)
Lemma api_key_gate_witness :
  let config := {| port := 8080; host := "127.0.0.1"; apiKey := Some "k1";
                   defaultProviderId := None; defaultModelId := None |} in
  let req := {| method := "POST"; pathname := Some "/v1/messages";
                authorization := None; x_api_key := single "k2" |} in
  let h := {| onMessages := ([], None); onCountTokens := ([], None);
              onChatCompletions := ([], None); onListModels := [];
              onHealth := []; onRoot := [] |} in
  handleRequest config req h
  = ((corsHeaders
      ++ map handled (sendError 401 "authentication_error" "Invalid API key"))%list,
     None).
Proof.
  intros config req h.
  apply (api_key_gate config req h "k1" "/v1/messages" eq_refl eq_refl).
  - reflexivity.
  - discriminate.
Defined.

(** X9.  A non-empty token after the Bearer prefix of the Authorization
    header is the key the request presents, whatever the x-api-key header
    holds: a request whose Bearer token is not the configured key is answered
    401 even when its x-api-key header carries the configured key. *)
Theorem bearer_token_overrides_api_key_header (config : AnthropicApiServerConfig)
    (req : IncomingMessage) (h : Handlers) (key token path : string) :
  present (apiKey config) = Some key ->
  (method req =? "OPTIONS") = false ->
  pathname req = Some path ->
  authorization req = Some ("Bearer " ++ token) ->
  token <> "" -> token <> key ->
  handleRequest config req h
  = ((corsHeaders
      ++ map handled (sendError 401 "authentication_error" "Invalid API key"))%list,
     None).
Proof.
  intros Hkey Hoptions Hpath Hauth Htoken Hwrong.
  unfold handleRequest.
  rewrite Hoptions, Hpath, Hkey, (providedKey_bearer req token Hauth Htoken).
  now rewrite key_differs.
Qed.

(** The override on a request that carries the configured key in x-api-key
    and another token in Authorization. *)
Lemma bearer_token_overrides_api_key_header_witness :
  let config := {| port := 8080; host := "127.0.0.1"; apiKey := Some "k1";
                   defaultProviderId := None; defaultModelId := None |} in
  let req := {| method := "GET"; pathname := Some "/v1/models";
                authorization := Some "Bearer stale"; x_api_key := single "k1" |} in
  let h := {| onMessages := ([], None); onCountTokens := ([], None);
              onChatCompletions := ([], None); onListModels := [];
              onHealth := []; onRoot := [] |} in
  handleRequest config req h
  = ((corsHeaders
      ++ map handled (sendError 401 "authentication_error" "Invalid API key"))%list,
     None).
Proof.
  intros config req h.
  apply (bearer_token_overrides_api_key_header config req h "k1" "stale" "/v1/models");
    try reflexivity; discriminate.
Defined.

End Dispatcher.

(* ------------------------------------------------------------------ *)
(** ** The token estimate *)

Section TokenCount.

Import Server.

Lemma blockChars_textChars (blocks : list MessageConverter.Block) :
  forall totalChars : nat,
    fold_left blockChars blocks totalChars = totalChars + textChars blocks.
Proof.
  unfold textChars, MessageConverter.texts.
  induction blocks as [|block blocks IH]; intros totalChars; cbn [fold_left flat_map].
  - cbn. lia.
  - rewrite IH, map_app, list_sum_app. unfold list_sum.
    destruct block;
      cbn [blockChars MessageConverter.textOfBlock map fold_right]; lia.
Qed.

Lemma messageChars_textChars (msgs : list MessageConverter.ClaudeMessage) :
  forall totalChars : nat,
    fold_left messageChars msgs totalChars
    = totalChars + list_sum (map messageTextChars msgs).
Proof.
  induction msgs as [|msg msgs IH]; intros totalChars; cbn [fold_left map].
  - cbn. lia.
  - rewrite IH. unfold list_sum. cbn [fold_right].
    unfold messageChars. unfold messageTextChars at 2.
    destruct (MessageConverter.content msg) as [s|blocks].
    + lia.
    + rewrite blockChars_textChars. lia.
Qed.

(** X10.  POST /v1/messages/count_tokens on a body with a messages array
    answers 200 with input_tokens = max(1, floor(c / 4)), where c counts the
    characters of the system prompt and of every message, text only (strings
    and text blocks; images, tool uses and tool results add nothing). *)
Theorem count_tokens_estimate (request : ClaudeTokenCountRequest)
    (msgs : list MessageConverter.ClaudeMessage) :
  messages request = Some msgs ->
  let totalChars :=
    systemTextChars (system request) + list_sum (map messageTextChars msgs) in
  snd (handleCountTokens (value request)) = None
  /\ countedTokens (fst (handleCountTokens (value request)))
     = Some (N.of_nat (Nat.max 1 (totalChars / 4))).
Proof.
  intros Hmessages totalChars.
  unfold handleCountTokens. rewrite Hmessages. cbn [fst snd].
  assert (Hcount : countChars request msgs = totalChars).
  { unfold countChars. rewrite messageChars_textChars. unfold totalChars.
    f_equal. destruct (system request) as [|t|blocks]; try reflexivity.
    cbn [systemChars systemTextChars]. now rewrite blockChars_textChars. }
  split; [reflexivity|].
  unfold countedTokens. cbn [field assoc]. cbn. now rewrite Hcount.
Qed.

(** The estimate of a request with a system prompt, a string message and a
    message of blocks of which one is a tool result: 21 characters of text,
    5 tokens; and of a request with 2 characters of text: 1 token. *)
Lemma count_tokens_estimate_witness :
  let msgs :=
    [{| MessageConverter.role := "user";
        MessageConverter.content := MessageConverter.contentString "hello world" |};
     {| MessageConverter.role := "user";
        MessageConverter.content :=
          MessageConverter.contentBlocks
            [MessageConverter.text "ab";
             MessageConverter.tool_result "t1"
               (MessageConverter.resultText "a long tool result")] |}] in
  let request := {| system := MessageConverter.systemString "be brief";
                    messages := Some msgs |} in
  let short :=
    [{| MessageConverter.role := "user";
        MessageConverter.content := MessageConverter.contentString "hi" |}] in
  let small := {| system := MessageConverter.noSystem; messages := Some short |} in
  countedTokens (fst (handleCountTokens (value request))) = Some 5%N
  /\ countedTokens (fst (handleCountTokens (value small))) = Some 1%N.
Proof.
  intros msgs request short small. split.
  - exact (proj2 (count_tokens_estimate request msgs eq_refl)).
  - exact (proj2 (count_tokens_estimate small short eq_refl)).
Defined.

End TokenCount.

(* ------------------------------------------------------------------ *)
(** ** The message converters *)

Section ClaudeConverter.

Import MessageConverter.

Lemma converted_flat_map (msgs : list ClaudeMessage) :
  forall converted : list Chat.ChatMessage,
    fold_left (fun converted msg => (converted ++ convertMessage msg)%list)
      msgs converted
    = (converted ++ flat_map convertMessage msgs)%list.
Proof.
  induction msgs as [|msg msgs IH]; intros converted; cbn [fold_left flat_map].
  - now rewrite app_nil_r.
  - now rewrite IH, app_assoc.
Qed.

Lemma convertClaudeToInternal_messages (request : ClaudeMessagesRequest) :
  fst (convertClaudeToInternal request)
  = (systemMessage (system request)
     ++ flat_map convertMessage (messages request))%list.
Proof. unfold convertClaudeToInternal. cbn [fst]. apply converted_flat_map. Qed.

Lemma toolMessageIds_app (l1 l2 : list Chat.ChatMessage) :
  toolMessageIds (l1 ++ l2) = (toolMessageIds l1 ++ toolMessageIds l2)%list.
Proof. unfold toolMessageIds. apply flat_map_app. Qed.

Lemma convertUserMessage_role (msg : ClaudeMessage) :
  Chat.role (convertUserMessage msg) = "user".
Proof.
  unfold convertUserMessage.
  destruct (content msg) as [s|blocks]; [reflexivity|].
  destruct (flat_map userPart blocks) as [|[t|url] [|next rest]]; reflexivity.
Qed.

Lemma convertAssistantMessage_role (msg : ClaudeMessage) :
  Chat.role (convertAssistantMessage msg) = "assistant".
Proof.
  unfold convertAssistantMessage. now destruct (content msg).
Qed.

Lemma toolMessage_ids (blocks : list Block) :
  toolMessageIds (flat_map toolMessage blocks)
  = map Some (flat_map (fun block => match block with
                                     | tool_result id _ => [id]
                                     | _ => []
                                     end) blocks).
Proof.
  induction blocks as [|block blocks IH]; [reflexivity|].
  cbn [flat_map]. rewrite toolMessageIds_app, map_app, IH.
  now destruct block.
Qed.

Lemma toolMessage_roles (blocks : list Block) :
  Forall (fun m => Chat.role m = "tool") (flat_map toolMessage blocks).
Proof.
  induction blocks as [|block blocks IH]; [constructor|].
  cbn [flat_map]. apply Forall_app. split; [|exact IH].
  destruct block; cbn [toolMessage]; repeat constructor.
Qed.

Lemma convertMessage_ids (msg : ClaudeMessage) :
  toolMessageIds (convertMessage msg) = map Some (toolResultIds msg).
Proof.
  unfold convertMessage, toolResultIds.
  destruct (role msg =? "user").
  - change (toolMessageIds (?m :: ?l)) with (toolMessageIds ([m] ++ l)).
    rewrite toolMessageIds_app. unfold toolMessageIds at 1. cbn [flat_map].
    rewrite convertUserMessage_role. cbn [String.eqb Ascii.eqb Bool.eqb List.app].
    destruct (content msg) as [s|blocks]; [reflexivity|].
    apply toolMessage_ids.
  - destruct (role msg =? "assistant"); [|reflexivity].
    unfold toolMessageIds. cbn [flat_map].
    now rewrite convertAssistantMessage_role.
Qed.

(** X11.  In the conversion of a /v1/messages request every tool result
    carried by a user message becomes one tool message with the same
    [tool_use_id], in the order of the request; no tool message is made of
    anything else: not of the system prompt, not of a tool result inside an
    assistant message. *)
Theorem tool_results_become_tool_messages (request : ClaudeMessagesRequest) :
  toolMessageIds (fst (convertClaudeToInternal request))
  = map Some (flat_map toolResultIds (messages request)).
Proof.
  rewrite convertClaudeToInternal_messages, toolMessageIds_app.
  assert (Hsystem : toolMessageIds (systemMessage (system request)) = []).
  { unfold systemMessage.
    now destruct (JS.truthy (JS.trim (systemText (system request)))). }
  rewrite Hsystem. cbn [List.app].
  induction (messages request) as [|msg msgs IH]; [reflexivity|].
  cbn [flat_map]. now rewrite toolMessageIds_app, map_app, IH, convertMessage_ids.
Qed.

Lemma convertMessage_roles (msg : ClaudeMessage) :
  Forall (fun m => JS.one_of (Chat.role m) ["user"; "assistant"; "tool"] = true)
    (convertMessage msg).
Proof.
  unfold convertMessage.
  destruct (role msg =? "user").
  - constructor; [now rewrite convertUserMessage_role|].
    destruct (content msg) as [s|blocks]; [constructor|].
    eapply Forall_impl; [|apply toolMessage_roles].
    cbn beta. intros m Hm. now rewrite Hm.
  - destruct (role msg =? "assistant"); [|constructor].
    constructor; [now rewrite convertAssistantMessage_role | constructor].
Qed.

(** X12.  The conversion of a /v1/messages request puts the system prompt
    first and nowhere else: when the prompt, trimmed, is not empty the list
    starts with one system message holding the trimmed text, a blank prompt
    adds nothing, and every message after it has the role user, assistant or
    tool, whatever roles the request messages claim. *)
Theorem system_prompt_only_first (request : ClaudeMessagesRequest) :
  exists rest : list Chat.ChatMessage,
    fst (convertClaudeToInternal request)
    = ((if JS.truthy (JS.trim (systemText (system request)))
        then [Chat.message "system"
                (Chat.plain (JS.trim (systemText (system request))))]
        else []) ++ rest)%list
    /\ Forall (fun m => JS.one_of (Chat.role m) ["user"; "assistant"; "tool"] = true)
         rest.
Proof.
  exists (flat_map convertMessage (messages request)). split.
  - apply convertClaudeToInternal_messages.
  - induction (messages request) as [|msg msgs IH]; [constructor|].
    cbn [flat_map]. apply Forall_app. split; [apply convertMessage_roles | exact IH].
Qed.

End ClaudeConverter.

Section OpenAIMessages.

Import OpenAIConverter.

Lemma convertOpenAIMessage_role (msg : OpenAIMessage) :
  match convertOpenAIMessage msg with
  | Some m => knownRole (role msg) = true /\ Chat.role m = role msg
  | None => knownRole (role msg) = false
  end.
Proof.
  unfold convertOpenAIMessage, knownRole. cbn [JS.one_of existsb].
  destruct (role msg =? "system") eqn:Es.
  - apply String.eqb_eq in Es. rewrite Es. split; reflexivity.
  - destruct (role msg =? "user") eqn:Eu.
    + apply String.eqb_eq in Eu. rewrite Eu. split; [reflexivity|].
      unfold convertUserMessage.
      destruct (content msg) as [s|items| |]; try reflexivity.
      destruct (flat_map userPart items) as [|[t|url] [|next rest]]; reflexivity.
    + destruct (role msg =? "assistant") eqn:Ea.
      * apply String.eqb_eq in Ea. rewrite Ea. split; reflexivity.
      * destruct (role msg =? "tool") eqn:Et.
        -- apply String.eqb_eq in Et. rewrite Et. split; reflexivity.
        -- reflexivity.
Qed.

Lemma convertOpenAI_fold (msgs : list OpenAIMessage) :
  forall converted : list Chat.ChatMessage,
    map Chat.role
      (fold_left
         (fun converted msg =>
            match convertOpenAIMessage msg with
            | Some m => (converted ++ [m])%list
            | None => converted
            end) msgs converted)
    = (map Chat.role converted ++ filter knownRole (map role msgs))%list.
Proof.
  induction msgs as [|msg msgs IH]; intros converted; cbn [fold_left map filter].
  - now rewrite app_nil_r.
  - rewrite IH. pose proof (convertOpenAIMessage_role msg) as Hrole.
    destruct (convertOpenAIMessage msg) as [m|].
    + destruct Hrole as [Hknown Hsame].
      rewrite Hknown, map_app, <- app_assoc. cbn [map List.app].
      now rewrite Hsame.
    + now rewrite Hrole.
Qed.

(** X13.  The conversion of a /v1/chat/completions request keeps the
    messages whose role is system, user, assistant or tool, each under its
    own role and in the order of the request, and drops every message of
    another role without failing. *)
Theorem openai_roles_are_kept_in_order (request : OpenAIChatCompletionsRequest) :
  map Chat.role (fst (convertOpenAIToInternal request))
  = filter knownRole (map role (messages request)).
Proof.
  unfold convertOpenAIToInternal. cbn [fst].
  now rewrite convertOpenAI_fold.
Qed.

End OpenAIMessages.

(* ------------------------------------------------------------------ *)
(** ** The session loop: event ids and cancellation *)

Section SessionEvents.

Import LLMProviderPresenter.

Lemma onChunk_eventId (eventId : string) (st st' : LoopState)
    (chunk : LLMCoreStreamEvent) (event : Shared.LLMAgentEvent) :
  onChunk eventId st chunk = inl (st', Some event) ->
  eventIdOf event = Some eventId.
Proof.
  unfold onChunk, simpleData, toolCallData, toolCallEvent, permissionData.
  destruct chunk; intros H;
    repeat match type of H with
           | context [match ?x with _ => _ end] => destruct x
           end;
    inversion H; reflexivity.
Qed.

Lemma sessionLoop_eventIds (eventId : string) (abortedFrom leaveAt : option nat)
    (chunks : list LLMCoreStreamEvent) (failure : option Shared.Thrown) :
  forall (read taken : nat) (st : LoopState),
    Forall (fun event => eventIdOf event = Some eventId)
      (yielded (sessionLoop eventId abortedFrom leaveAt read taken st chunks failure)).
Proof.
  induction chunks as [|chunk chunks IH]; intros read taken st;
    cbn [sessionLoop]; [constructor|].
  destruct (aborted abortedFrom read); [constructor|].
  destruct (onChunk eventId st chunk) as [[st' [event|]] | e] eqn:E;
    [| apply IH | constructor].
  pose proof (onChunk_eventId _ _ _ _ _ E) as Hev.
  destruct (match leaveAt with Some p => (p =? taken)%nat | None => false end);
    cbn [yielded]; constructor; try exact Hev; [constructor | apply IH].
Qed.

(** X14.  Every event a slash-command session hands to its consumer, the
    closing end event included, carries the event id the session was started
    with, whatever the provider stream delivers and whatever state the realm
    is in. *)
Theorem session_events_carry_event_id (realm : Realm) (run : ChunkStream)
    (providerId modelId eventId : string) (abortedFrom leaveAt : option nat) :
  Forall (fun event => eventIdOf event = Some eventId)
    (emitted (runSlashCommand realm (acp run) providerId modelId eventId
                abortedFrom leaveAt)).
Proof.
  destruct (runSlashCommand_acp_effects realm run providerId modelId eventId
              abortedFrom leaveAt [] (NoDup_nil _)) as (_ & _ & Hemitted).
  cbv zeta in Hemitted. rewrite Hemitted.
  apply Forall_app. split.
  - apply sessionLoop_eventIds.
  - repeat constructor.
Qed.





End SessionEvents.

(* ------------------------------------------------------------------ *)
(** ** Stopping streams *)

Section StoppingStreams.

Import StreamRegistry.

Lemma stopStream_keys (activeStreams : ActiveStreams) (eventId : string) :
  JsMap.keys (stopStream activeStreams eventId) = JsMap.keys activeStreams.
Proof.
  unfold stopStream.
  destruct (JsMap.get eventId activeStreams) as [stream|] eqn:E; [|reflexivity].
  exact (keys_set_present eventId (abort stream) stream activeStreams E).
Qed.

Lemma stopStreams_keys (eventIds : list string) :
  forall activeStreams : ActiveStreams,
    JsMap.keys (fold_left stopStream eventIds activeStreams)
    = JsMap.keys activeStreams.
Proof.
  induction eventIds as [|eventId eventIds IH]; intros activeStreams;
    cbn [fold_left]; [reflexivity|].
  now rewrite IH, stopStream_keys.
Qed.

Lemma has_keys (V : Type) (k : string) (m m' : list (string * V)) :
  JsMap.keys m = JsMap.keys m' -> JsMap.has k m = JsMap.has k m'.
Proof. intros H. now rewrite <- !existsb_keys, H. Qed.

Lemma size_keys (V : Type) (m m' : list (string * V)) :
  JsMap.keys m = JsMap.keys m' -> JsMap.size m = JsMap.size m'.
Proof.
  intros H. unfold JsMap.size.
  rewrite <- (length_map fst m), <- (length_map fst m'). exact (f_equal _ H).
Qed.

(** X16.  Stopping never deregisters: after [stopStream] on any id, known or
    not, and after [stopAllStreams], every stream that was active is still
    reported by [isGenerating] and [canStartNewStream] answers as before;
    room for a new stream is made only by the loop that consumes the
    session. *)
Theorem stopping_keeps_streams_registered (activeStreams : ActiveStreams)
    (stopped eventId : string) (maxConcurrentStreams : nat) :
  isGenerating (stopStream activeStreams stopped) eventId
  = isGenerating activeStreams eventId
  /\ canStartNewStream (stopStream activeStreams stopped) maxConcurrentStreams
     = canStartNewStream activeStreams maxConcurrentStreams
  /\ isGenerating (stopAllStreams activeStreams) eventId
     = isGenerating activeStreams eventId
  /\ canStartNewStream (stopAllStreams activeStreams) maxConcurrentStreams
     = canStartNewStream activeStreams maxConcurrentStreams.
Proof.
  unfold isGenerating, canStartNewStream, stopAllStreams.
  pose proof (stopStream_keys activeStreams stopped) as Hone.
  pose proof (stopStreams_keys (JsMap.keys activeStreams) activeStreams) as Hall.
  repeat split.
  - now apply has_keys.
  - now rewrite (size_keys _ _ _ Hone).
  - now apply has_keys.
  - now rewrite (size_keys _ _ _ Hall).
Qed.

Lemma stopStream_get (activeStreams : ActiveStreams) (stopped eventId : string) :
  JsMap.get eventId (stopStream activeStreams stopped)
  = if eventId =? stopped
    then option_map abort (JsMap.get eventId activeStreams)
    else JsMap.get eventId activeStreams.
Proof.
  unfold stopStream. destruct (eventId =? stopped) eqn:E.
  - apply String.eqb_eq in E. subst stopped.
    destruct (JsMap.get eventId activeStreams) as [stream|] eqn:Hget.
    + cbn [option_map]. apply get_set_same.
    + now rewrite Hget.
  - destruct (JsMap.get stopped activeStreams) as [stream|]; [|reflexivity].
    apply get_set_other. intros Heq. subst. now rewrite String.eqb_refl in E.
Qed.

Lemma stopStreams_get (eventIds : list string) (eventId : string) :
  forall (activeStreams : ActiveStreams) (stream : Entry),
    JsMap.get eventId activeStreams = Some stream ->
    exists stream',
      JsMap.get eventId (fold_left stopStream eventIds activeStreams) = Some stream'
      /\ state stream' = state stream
      /\ (signalAborted stream = true \/ In eventId eventIds ->
          signalAborted stream' = true).
Proof.
  induction eventIds as [|stopped eventIds IH]; intros activeStreams stream Hget;
    cbn [fold_left].
  - exists stream. split; [exact Hget|]. split; [reflexivity|].
    intros [H | []]. exact H.
  - pose proof (stopStream_get activeStreams stopped eventId) as Hstep.
    rewrite Hget in Hstep. destruct (eventId =? stopped) eqn:E.
    + cbn [option_map] in Hstep.
      destruct (IH _ _ Hstep) as (stream' & Hget' & Hstate & Hsignal).
      exists stream'. split; [exact Hget'|]. split; [exact Hstate|].
      intros _. apply Hsignal. left. reflexivity.
    + destruct (IH _ _ Hstep) as (stream' & Hget' & Hstate & Hsignal).
      exists stream'. split; [exact Hget'|]. split; [exact Hstate|].
      intros [H | [H | H]].
      * apply Hsignal. now left.
      * subst. now rewrite String.eqb_refl in E.
      * apply Hsignal. now right.
Qed.

Lemma get_In_keys (V : Type) (k : string) (v : V) (m : list (string * V)) :
  JsMap.get k m = Some v -> In k (JsMap.keys m).
Proof.
  unfold JsMap.keys. induction m as [|[k' v'] m IH]; cbn [JsMap.get map fst In];
    [discriminate|].
  destruct (k =? k') eqn:E.
  - apply String.eqb_eq in E. now left.
  - intros H. right. now apply IH.
Qed.

(** X17.  After [stopAllStreams] the abort signal of every stream the
    registry holds is set, and each entry still holds the state it held:
    looking a stream up by its id gives the same provider and model with an
    aborted signal. *)
Theorem stopAllStreams_aborts_every_stream (activeStreams : ActiveStreams)
    (eventId : string) (stream : Entry) :
  getStreamState activeStreams eventId = Some stream ->
  exists stream',
    getStreamState (stopAllStreams activeStreams) eventId = Some stream'
    /\ state stream' = state stream
    /\ signalAborted stream' = true.
Proof.
  unfold getStreamState, stopAllStreams. intros Hget.
  destruct (stopStreams_get (JsMap.keys activeStreams) eventId activeStreams
              stream Hget) as (stream' & Hget' & Hstate & Hsignal).
  exists stream'. split; [exact Hget'|]. split; [exact Hstate|].
  apply Hsignal. right. exact (get_In_keys _ _ _ _ Hget).
Qed.

(** Two streams, both stopped; the second is looked up. *)
Lemma stopAllStreams_aborts_every_stream_witness :
  let entry (model : string) :=
    {| state := {| LLMProviderPresenter.isGenerating := true;
                   LLMProviderPresenter.ss_providerId := "acp";
                   LLMProviderPresenter.ss_modelId := model |};
       signalAborted := false |} in
  let activeStreams := [("e1", entry "m1"); ("e2", entry "m2")] in
  exists stream',
    getStreamState (stopAllStreams activeStreams) "e2" = Some stream'
    /\ state stream' = state (entry "m2")
    /\ signalAborted stream' = true.
Proof.
  intros entry activeStreams.
  exact (stopAllStreams_aborts_every_stream activeStreams "e2" (entry "m2") eq_refl).
Defined.

End StoppingStreams.

(* ------------------------------------------------------------------ *)
(** ** The slash-command store *)

Section SlashCommands.

Import SlashCommandsStore.

Lemma get_delete_other (V : Type) (k k' : string) (m : list (string * V)) :
  k <> k' -> JsMap.get k' (JsMap.delete k m) = JsMap.get k' m.
Proof.
  intros Hne. induction m as [|[k0 v0] m IH]; cbn [JsMap.delete JsMap.get];
    [reflexivity|].
  destruct (k =? k0) eqn:E.
  - apply String.eqb_eq in E. subst k0.
    destruct (k' =? k) eqn:E'; [|reflexivity].
    apply String.eqb_eq in E'. congruence.
  - cbn [JsMap.get]. now rewrite IH.
Qed.

(** X18.  A session-commands payload that names a conversation, a session and
    at least one command is what [getCommands] then returns for that
    conversation, with the session id, agent id and commands of the payload,
    replacing what was stored for it; what is stored for every other
    conversation is not touched. *)
Theorem setCommands_then_getCommands (commandsByThread : CommandsByThread)
    (payload : AgentSessionCommandsPayload) (thread session other : string) :
  conversationId payload = Some thread -> thread <> "" ->
  sessionId payload = Some session -> session <> "" ->
  commands payload <> [] ->
  getCommands (setCommands commandsByThread payload) thread
  = Some {| st_sessionId := session;
            st_agentId := agentId payload;
            st_commands := commands payload |}
  /\ (other <> thread ->
      getCommands (setCommands commandsByThread payload) other
      = getCommands commandsByThread other).
Proof.
  intros Hthread Hnonempty Hsession Hnonempty' Hcommands.
  unfold setCommands, getCommands, Presenter.present.
  rewrite Hthread, Hsession.
  rewrite (truthy_nonempty thread Hnonempty), (truthy_nonempty session Hnonempty').
  destruct (commands payload) as [|command rest]; [contradiction|].
  cbn [List.length Nat.eqb]. split.
  - apply get_set_same.
  - intros Hother. apply get_set_other. congruence.
Qed.

(** The round trip on an empty store. *)
Lemma setCommands_then_getCommands_witness :
  let payload :=
    {| conversationId := Some "thread-1"; sessionId := Some "s1";
       agentId := "agent"; commands := [Shared.opaque "/plan"] |} in
  getCommands (setCommands [] payload) "thread-1"
  = Some {| st_sessionId := "s1"; st_agentId := "agent";
            st_commands := [Shared.opaque "/plan"] |}.
Proof.
  intros payload.
  apply (setCommands_then_getCommands [] payload "thread-1" "s1" "thread-2");
    try reflexivity; discriminate.
Defined.

(** X19.  A session-commands payload for a conversation that carries no
    command, or no session id, clears what is stored for that conversation,
    as [clearThread] does: [getCommands] then returns null for it; the other
    conversations keep what they had.  A payload that names no conversation
    changes nothing. *)
Theorem setCommands_without_commands_clears (commandsByThread : CommandsByThread)
    (payload : AgentSessionCommandsPayload) (thread other : string) :
  NoDup (JsMap.keys commandsByThread) ->
  (Presenter.present (conversationId payload) = None ->
   setCommands commandsByThread payload = commandsByThread)
  /\ (conversationId payload = Some thread -> thread <> "" ->
      commands payload = [] \/ Presenter.present (sessionId payload) = None ->
      setCommands commandsByThread payload = clearThread commandsByThread thread
      /\ getCommands (setCommands commandsByThread payload) thread = None
      /\ (other <> thread ->
          getCommands (setCommands commandsByThread payload) other
          = getCommands commandsByThread other)).
Proof.
  intros Hnodup. split.
  - intros Hnone. unfold setCommands. now rewrite Hnone.
  - intros Hthread Hnonempty Hclear.
    assert (Hset : setCommands commandsByThread payload
                   = clearThread commandsByThread thread).
    { unfold setCommands, clearThread, Presenter.present at 1.
      rewrite Hthread, (truthy_nonempty thread Hnonempty).
      destruct Hclear as [Hempty | Hsession].
      - rewrite Hempty. reflexivity.
      - rewrite Hsession.
        now destruct (List.length (commands payload) =? 0)%nat. }
    rewrite Hset. unfold clearThread, getCommands. split; [reflexivity|]. split.
    + now apply get_delete_same.
    + intros Hother. apply get_delete_other. congruence.
Qed.

(** Clearing on a store of two conversations. *)
Lemma setCommands_without_commands_clears_witness :
  let stored (session : string) :=
    {| st_sessionId := session; st_agentId := "agent";
       st_commands := [Shared.opaque "/plan"] |} in
  let commandsByThread := [("thread-1", stored "s1"); ("thread-2", stored "s2")] in
  let payload :=
    {| conversationId := Some "thread-1"; sessionId := Some "s1";
       agentId := "agent"; commands := [] |} in
  getCommands (setCommands commandsByThread payload) "thread-1" = None
  /\ getCommands (setCommands commandsByThread payload) "thread-2"
     = Some (stored "s2").
Proof.
  intros stored commandsByThread payload.
  assert (Hnodup : NoDup (JsMap.keys commandsByThread)).
  { repeat constructor; cbn; intuition discriminate. }
  destruct (setCommands_without_commands_clears commandsByThread payload
              "thread-1" "thread-2" Hnodup) as [_ Hclear].
  destruct (Hclear eq_refl ltac:(discriminate) (or_introl eq_refl))
    as (_ & Hgone & Hkept).
  split; [exact Hgone|].
  rewrite Hkept; [reflexivity | discriminate].
Defined.

End SlashCommands.

(* ------------------------------------------------------------------ *)
(** ** What the encoders serialise is JSON on one line *)

Section Serialisation.

Lemma json_nested_ind (P : json -> Prop) :
  P JNull ->
  (forall n, P (JNum n)) ->
  (forall s, P (JStr s)) ->
  (forall items, Forall P items -> P (JArr items)) ->
  (forall fields, Forall (fun kv => P (snd kv)) fields -> P (JObj fields)) ->
  forall j, P j.
Proof.
  intros Hnull Hnum Hstr Harr Hobj.
  fix IH 1. intros [|n|s|items|fields].
  - exact Hnull.
  - apply Hnum.
  - apply Hstr.
  - apply Harr. induction items as [|x items IHitems]; constructor.
    + apply IH.
    + exact IHitems.
  - apply Hobj. induction fields as [|[k v] fields IHfields]; constructor.
    + apply IH.
    + exact IHfields.
Qed.

Lemma stringify_JArr (items : list json) :
  stringify (JArr items) = "[" ++ elements true items ++ "]".
Proof.
  reflexivity.
Qed.

Lemma stringify_JObj (fields : list (string * json)) :
  stringify (JObj fields) = "{" ++ members true fields ++ "}".
Proof.
  reflexivity.
Qed.

Lemma run_app (s1 s2 : string) :
  forall st : JSON.State,
    JSON.run st (s1 ++ s2)
    = match JSON.run st s1 with
      | Some st' => JSON.run st' s2
      | None => None
      end.
Proof.
  induction s1 as [|a s1 IH]; intros st; cbn [append JSON.run]; [reflexivity|].
  destruct (JSON.step st a); [apply IH | reflexivity].
Qed.

Lemma escapeChar_run (a : ascii) (k : bool) (stack : list JSON.Container) :
  JSON.run (JSON.Str k, stack) (escapeChar a) = Some (JSON.Str k, stack).
Proof.
  destruct a as [[] [] [] [] [] [] [] []]; destruct k; vm_compute; reflexivity.
Qed.

Lemma escape_run (s : string) (k : bool) (stack : list JSON.Container) :
  JSON.run (JSON.Str k, stack) (escape s) = Some (JSON.Str k, stack).
Proof.
  induction s as [|a s IH]; cbn [escape]; [reflexivity|].
  now rewrite run_app, escapeChar_run.
Qed.


(** One code unit read by the recogniser, computed. *)
Ltac read_char :=
  cbn [JSON.run append];
  match goal with
  | |- context [JSON.step ?st ?a] =>
      let r := eval vm_compute in (JSON.step st a) in
      change (JSON.step st a) with r
  end;
  cbv iota beta.

Lemma quote_run (s : string) (m : JSON.Mode) (k : bool)
    (stack : list JSON.Container) (rest : string) :
  (if k then m = JSON.ObjectStart \/ m = JSON.Key
   else m = JSON.Value \/ m = JSON.ArrayStart) ->
  JSON.run (m, stack) (quote s ++ rest)
  = JSON.run (if k then JSON.Colon else JSON.After, stack) rest.
Proof.
  intros Hm. unfold quote, JSON.dq. rewrite !append_assoc.
  assert (Hopen : forall tail,
             JSON.run (m, stack) (String JSON.dquote "" ++ tail)
             = JSON.run (JSON.Str k, stack) tail).
  { intros tail. destruct k; destruct Hm as [Hm | Hm]; subst m; now read_char. }
  rewrite Hopen, run_app, escape_run. now read_char.
Qed.

Lemma digits_run (d : Decimal.uint) (stack : list JSON.Container) (rest : string) :
  JSON.run (JSON.Int, stack) (NilEmpty.string_of_uint d ++ rest)
  = JSON.run (JSON.Int, stack) rest.
Proof.
  induction d as [|d IH|d IH|d IH|d IH|d IH|d IH|d IH|d IH|d IH|d IH];
    cbn [NilEmpty.string_of_uint]; [reflexivity| | | | | | | | | |];
    read_char; exact IH.
Qed.

Lemma to_uint_normal (n : N) : N.to_uint n = Decimal.unorm (N.to_uint n).
Proof.
  rewrite <- (DecimalN.Unsigned.to_of (N.to_uint n)).
  now rewrite DecimalN.Unsigned.of_to.
Qed.

Lemma decimal_run (n : N) (m : JSON.Mode) (stack : list JSON.Container)
    (rest : string) :
  m = JSON.Value \/ m = JSON.ArrayStart ->
  exists st,
    valueRead st stack
    /\ JSON.run (m, stack) (decimal n ++ rest) = JSON.run st rest.
Proof.
  intros Hm. unfold decimal. rewrite to_uint_normal.
  generalize (N.to_uint n). intros d. unfold Decimal.unorm.
  pose proof (DecimalFacts.nzhead_nonzero d) as Hnz.
  destruct (Decimal.nzhead d) as [|u|u|u|u|u|u|u|u|u|u];
    try (exfalso; now apply (Hnz u));
    cbn [NilZero.string_of_uint NilEmpty.string_of_uint].
  1: exists (JSON.Zero, stack).
  2-10: exists (JSON.Int, stack).
  all: split; [unfold valueRead; auto|].
  all: destruct Hm as [Hm | Hm]; subst m; read_char; try reflexivity.
  all: apply digits_run.
Qed.

Lemma valueRead_comma_array (st : JSON.State) (stack : list JSON.Container)
    (rest : string) :
  valueRead st (JSON.InArray :: stack) ->
  JSON.run st (String "," rest) = JSON.run (JSON.Value, JSON.InArray :: stack) rest.
Proof. intros [H | [H | H]]; subst st; now read_char. Qed.

Lemma valueRead_close_array (st : JSON.State) (stack : list JSON.Container)
    (rest : string) :
  valueRead st (JSON.InArray :: stack) ->
  JSON.run st (String "]" rest) = JSON.run (JSON.After, stack) rest.
Proof. intros [H | [H | H]]; subst st; now read_char. Qed.

Lemma valueRead_comma_object (st : JSON.State) (stack : list JSON.Container)
    (rest : string) :
  valueRead st (JSON.InObject :: stack) ->
  JSON.run st (String "," rest) = JSON.run (JSON.Key, JSON.InObject :: stack) rest.
Proof. intros [H | [H | H]]; subst st; now read_char. Qed.

Lemma valueRead_close_object (st : JSON.State) (stack : list JSON.Container)
    (rest : string) :
  valueRead st (JSON.InObject :: stack) ->
  JSON.run st (String "}" rest) = JSON.run (JSON.After, stack) rest.
Proof. intros [H | [H | H]]; subst st; now read_char. Qed.

(** Reading what [stringify] wrote, from where a value may start, leaves
    the recogniser where a value has been read. *)
Lemma stringify_run (j : json) :
  forall (m : JSON.Mode) (stack : list JSON.Container) (rest : string),
    m = JSON.Value \/ m = JSON.ArrayStart ->
    exists st,
      valueRead st stack
      /\ JSON.run (m, stack) (stringify j ++ rest) = JSON.run st rest.
Proof.
  induction j as [|n|s|items IH|fields IH] using json_nested_ind;
    intros m stack rest Hm.
  - exists (JSON.After, stack). split; [left; reflexivity|].
    cbn [stringify]. destruct Hm as [Hm | Hm]; subst m; do 4 read_char; reflexivity.
  - now apply decimal_run.
  - exists (JSON.After, stack). split; [left; reflexivity|].
    cbn [stringify]. now apply (quote_run s m false).
  - exists (JSON.After, stack). split; [left; reflexivity|].
    rewrite stringify_JArr, !append_assoc.
    assert (Hopen : JSON.run (m, stack) ("[" ++ elements true items ++ "]" ++ rest)
                    = JSON.run (JSON.ArrayStart, JSON.InArray :: stack)
                        (elements true items ++ "]" ++ rest)).
    { destruct Hm as [Hm | Hm]; subst m; now read_char. }
    rewrite Hopen. clear Hopen Hm m.
    destruct items as [|x items].
    + cbn [elements]. now read_char.
    + inversion IH as [|? ? Hx Hitems]; subst.
      cbn [elements]. rewrite !append_assoc.
      destruct (Hx JSON.ArrayStart (JSON.InArray :: stack)
                  (elements false items ++ "]" ++ rest)) as (st & Hread & Hrun);
        [now right|].
      cbn [append] in Hrun |- *. rewrite Hrun. clear Hrun Hx IH x.
      revert st Hread. induction items as [|y items IHitems]; intros st Hread.
      * cbn [elements append]. now apply valueRead_close_array.
      * inversion Hitems as [|? ? Hy Hrest]; subst.
        cbn [elements]. rewrite !append_assoc. cbn [append].
        rewrite (valueRead_comma_array st stack _ Hread).
        destruct (Hy JSON.Value (JSON.InArray :: stack)
                    (elements false items ++ "]" ++ rest)) as (st' & Hread' & Hrun');
          [now left|].
        cbn [append] in Hrun'. rewrite Hrun'. now apply IHitems.
  - exists (JSON.After, stack). split; [left; reflexivity|].
    rewrite stringify_JObj, !append_assoc.
    assert (Hopen : JSON.run (m, stack) ("{" ++ members true fields ++ "}" ++ rest)
                    = JSON.run (JSON.ObjectStart, JSON.InObject :: stack)
                        (members true fields ++ "}" ++ rest)).
    { destruct Hm as [Hm | Hm]; subst m; now read_char. }
    rewrite Hopen. clear Hopen Hm m.
    assert (Hmember : forall (mode : JSON.Mode) (k : string) (v : json) (tail : string),
               mode = JSON.ObjectStart \/ mode = JSON.Key ->
               (forall m stack rest,
                   m = JSON.Value \/ m = JSON.ArrayStart ->
                   exists st, valueRead st stack
                              /\ JSON.run (m, stack) (stringify v ++ rest)
                                 = JSON.run st rest) ->
               exists st,
                 valueRead st (JSON.InObject :: stack)
                 /\ JSON.run (mode, JSON.InObject :: stack)
                      (quote k ++ ":" ++ stringify v ++ tail)
                    = JSON.run st tail).
    { intros mode k v tail Hmode Hv.
      rewrite (quote_run k mode true); [|exact Hmode].
      destruct (Hv JSON.Value (JSON.InObject :: stack) tail) as (st & Hread & Hrun);
        [now left|].
      exists st. split; [exact Hread|]. read_char. exact Hrun. }
    destruct fields as [|[k v] fields].
    + cbn [members]. now read_char.
    + inversion IH as [|? ? Hv Hfields]; subst. cbn [snd] in Hv.
      cbn [members]. rewrite !append_assoc. cbn [append].
      destruct (Hmember JSON.ObjectStart k v (members false fields ++ "}" ++ rest))
        as (st & Hread & Hrun); [now left | exact Hv |].
      cbn [append] in Hrun.
      rewrite Hrun. clear Hrun Hv IH k v.
      revert st Hread. induction fields as [|[k v] fields IHfields]; intros st Hread.
      * cbn [members append]. now apply valueRead_close_object.
      * inversion Hfields as [|? ? Hv Hrest]; subst. cbn [snd] in Hv.
        cbn [members]. rewrite !append_assoc. cbn [append].
        rewrite (valueRead_comma_object st stack _ Hread).
        destruct (Hmember JSON.Key k v (members false fields ++ "}" ++ rest))
          as (st' & Hread' & Hrun'); [now right | exact Hv |].
        cbn [append] in Hrun'.
        rewrite Hrun'. now apply IHfields.
Qed.

(** X20.  Whatever the encoders serialise is accepted by [JSON.parse]: the
    payload of every Anthropic event frame and of every OpenAI chunk, and
    every error envelope, is well-formed JSON, whatever text the provider or
    the request put into its strings (quotes, backslashes and control
    characters are escaped). *)
Theorem serialised_payload_parses (j : json) : JSON.parses (stringify j) = true.
Proof.
  destruct (stringify_run j JSON.Value [] "") as (st & Hread & Hrun); [now left|].
  unfold JSON.parses. rewrite append_nil_r in Hrun. rewrite Hrun.
  cbn [JSON.run]. now destruct Hread as [H | [H | H]]; subst st.
Qed.

Lemma printable_app (a b : string) :
  printable (a ++ b) = printable a && printable b.
Proof.
  induction a as [|x a IH]; cbn [append printable]; [reflexivity|].
  now rewrite IH, andb_assoc.
Qed.

Lemma escapeChar_printable (a : ascii) : printable (escapeChar a) = true.
Proof. destruct a as [[] [] [] [] [] [] [] []]; vm_compute; reflexivity. Qed.

Lemma quote_printable (s : string) : printable (quote s) = true.
Proof.
  unfold quote. rewrite !printable_app.
  assert (Hescape : printable (escape s) = true).
  { induction s as [|a s IH]; cbn [escape]; [reflexivity|].
    now rewrite printable_app, escapeChar_printable, IH. }
  now rewrite Hescape.
Qed.

Lemma decimal_printable (n : N) : printable (decimal n) = true.
Proof.
  unfold decimal. generalize (N.to_uint n). intros d.
  assert (Hdigits : forall u, printable (NilEmpty.string_of_uint u) = true).
  { induction u; cbn [NilEmpty.string_of_uint printable]; try reflexivity;
      rewrite IHu; reflexivity. }
  destruct d; try apply Hdigits. reflexivity.
Qed.

Lemma stringify_printable (j : json) : printable (stringify j) = true.
Proof.
  induction j as [|n|s|items IH|fields IH] using json_nested_ind.
  - reflexivity.
  - apply decimal_printable.
  - apply quote_printable.
  - rewrite stringify_JArr, !printable_app.
    assert (Helements : forall first, printable (elements first items) = true).
    { induction IH as [|x items Hx _ IHitems]; intros first; [reflexivity|].
      cbn [elements]. rewrite !printable_app, Hx, IHitems.
      now destruct first. }
    now rewrite Helements.
  - rewrite stringify_JObj, !printable_app.
    assert (Hmembers : forall first, printable (members first fields) = true).
    { induction IH as [|[k v] fields Hv _ IHfields]; intros first; [reflexivity|].
      cbn [snd] in Hv. cbn [members].
      rewrite !printable_app, quote_printable, Hv, IHfields.
      now destruct first. }
    now rewrite Hmembers.
Qed.

Lemma printable_includes (c : ascii) (s : string) :
  (JSON.code c <? 32)%N = true -> printable s = true -> JS.includes c s = false.
Proof.
  intros Hc. induction s as [|a s IH]; cbn [printable JS.includes]; [reflexivity|].
  intros H. apply andb_prop in H. destruct H as [Ha Hs].
  rewrite (IH Hs), orb_false_r.
  destruct (Ascii.eqb a c) eqn:E; [|reflexivity].
  apply Ascii.eqb_eq in E. subst a.
  apply N.leb_le in Ha. apply N.ltb_lt in Hc. lia.
Qed.

(** X21.  What the encoders serialise holds no control character, so no
    line feed and no carriage return: the payload of a server-sent event
    stays on its data line and the blank line that ends a frame cannot come
    from the text of the provider or of the request. *)
Theorem serialised_payload_is_one_line (j : json) :
  printable (stringify j) = true
  /\ JS.includes (ascii_of_nat 10) (stringify j) = false
  /\ JS.includes (ascii_of_nat 13) (stringify j) = false.
Proof.
  pose proof (stringify_printable j) as H.
  split; [exact H|]. split; now apply printable_includes.
Qed.

End Serialisation.

(* ------------------------------------------------------------------ *)
(** ** Usage of a non-streaming response, and the router with a default *)

Section ReportedUsage.

Import Presenter.

Lemma nonStreamingBody_usage (s : Aggregate) (event : Shared.LLMAgentEvent) :
  isError event = false ->
  exists s',
    nonStreamingBody s event = inl s'
    /\ (inputTokens s', outputTokens s')
       = match usageOf event with
         | Some u => (Shared.prompt_tokens u, Shared.completion_tokens u)
         | None => (inputTokens s, outputTokens s)
         end.
Proof.
  destruct event as [d | evId userStop | evId message]; intros Herr;
    [| | discriminate Herr].
  - unfold nonStreamingBody, usageOf.
    eexists. split; [reflexivity|].
    destruct (present (Shared.content d)) as [c|];
      destruct (present (Shared.reasoning_content d)) as [rc|];
      destruct (toolCallStart d) as [[sid sname]|];
      destruct (toolCallUpdate d) as [[uid uparams]|];
      destruct (Shared.totalUsage d) as [u|];
      cbn [toolCalls ag_setText ag_setToolCalls ag_setTokens];
      repeat match goal with
             | |- context [JsMap.get ?k ?m] =>
                 destruct (JsMap.get k m) as [[? ?]|]
             end;
      reflexivity.
  - eexists. split; reflexivity.
Qed.

Lemma nonStreaming_loop_usage (events : list Shared.LLMAgentEvent) :
  forall (i : nat) (s : Aggregate),
    forallb (fun event => negb (isError event)) events = true ->
    exists s',
      Shared.forAwait (fun _ => false) nonStreamingBody i s events None = (s', None)
      /\ (inputTokens s', outputTokens s')
         = lastUsageFrom (inputTokens s, outputTokens s) events.
Proof.
  induction events as [|event events IH]; intros i s Hok.
  - exists s. split; reflexivity.
  - cbn [forallb] in Hok. apply andb_true_iff in Hok. destruct Hok as [Hev Hrest].
    apply negb_true_iff in Hev.
    destruct (nonStreamingBody_usage s event Hev) as (s1 & Hstep & Husage).
    destruct (IH (S i) s1 Hrest) as (s' & Hloop & Husage').
    exists s'. cbn [Shared.forAwait]. rewrite Hstep, Hloop.
    split; [reflexivity|].
    rewrite Husage', Husage. unfold lastUsageFrom. cbn [fold_left]. reflexivity.
Qed.

(** X22.  The usage of a non-streaming /v1/messages response is the prompt
    and completion token counts of the last provider event that reported a
    usage: the counts are cumulative and are not added up; a stream that
    reports none gives 0 and 0. *)
Theorem non_streaming_usage_is_last_reported (env : Environment)
    (requestModel : string) (providerId modelId : option string) :
  Shared.failure (stream env) = None ->
  forallb (fun event => negb (isError event)) (Shared.events (stream env)) = true ->
  exists response : Response.ClaudeMessagesResponse,
    bodies (handleNonStreamingResponse env requestModel providerId modelId)
    = [Response.claudeMessages response]
    /\ (ResponseConverter.input_tokens (Response.usage response),
        ResponseConverter.output_tokens (Response.usage response))
       = lastUsageFrom (0%N, 0%N) (Shared.events (stream env)).
Proof.
  intros Hfail Hok.
  unfold handleNonStreamingResponse. rewrite Hfail.
  match goal with
  | |- context [Shared.forAwait _ _ 0 ?start _ None] =>
      destruct (nonStreaming_loop_usage (Shared.events (stream env)) 0 start Hok)
        as (s & Hloop & Husage)
  end.
  rewrite Hloop. cbn [inputTokens outputTokens] in Husage.
  exists (nonStreamingResponse env requestModel s).
  split; [reflexivity|]. exact Husage.
Qed.

(** The usage on a stream that reports 10 and 2, then 10 and 7. *)
Lemma non_streaming_usage_is_last_reported_witness :
  let report (p c : N) :=
    Shared.response
      {| Shared.eventId := None; Shared.content := None;
         Shared.reasoning_content := None; Shared.tool_call := None;
         Shared.tool_call_id := None; Shared.tool_call_name := None;
         Shared.tool_call_params := None; Shared.tool_call_server_name := None;
         Shared.tool_call_server_icons := None;
         Shared.tool_call_server_description := None;
         Shared.tool_call_response := None; Shared.permission_request := None;
         Shared.totalUsage :=
           Some {| Shared.prompt_tokens := p; Shared.completion_tokens := c;
                   Shared.total_tokens := p + c; Shared.context_length := 0 |};
         Shared.image_data := None; Shared.rate_limit := None |} in
  let env := plainEnvironment (streamOf [report 10 2; textEvent "hi"; report 10 7; endEvent])%N in
  exists response : Response.ClaudeMessagesResponse,
    bodies (handleNonStreamingResponse env "m" (Some "p") (Some "m"))
    = [Response.claudeMessages response]
    /\ (ResponseConverter.input_tokens (Response.usage response),
        ResponseConverter.output_tokens (Response.usage response))
       = (10, 7)%N.
Proof.
  intros report env.
  exact (non_streaming_usage_is_last_reported env "m" (Some "p") (Some "m")
           eq_refl eq_refl).
Defined.

End ReportedUsage.

Section RouterDefault.

(** X23.  With a default provider configured the router maps every model
    string that is not the name of a member of [Object.prototype] to a
    provider and a model, whether or not a default model is configured: such
    a request is never refused as unmappable.  The members of
    [Object.prototype] are those the runtime creates and [arguments_chunk],
    the one property a slash-command session of the same process can add to
    it ([LLMProviderPresenter.onChunk]). *)
Theorem mapClaudeModel_total_with_default_provider (model p : string)
    (defaultModelId : option string) :
  p <> "" ->
  JS.one_of model JS.objectPrototypeKeys = false ->
  (model =? "arguments_chunk") = false ->
  exists providerId modelId : string,
    mapClaudeModel model (Some p) defaultModelId
    = Some (Mapping providerId modelId).
Proof.
  intros Hp Hown _. unfold mapClaudeModel, lookupMapping. cbn [JS.truthy_opt].
  rewrite (truthy_nonempty p Hp), Hown. cbn [andb].
  destruct defaultModelId as [m|]; [destruct (JS.truthy m)|];
    try (eexists; eexists; reflexivity);
    destruct (JS.includes "/" model);
    try destruct (splitPair "/" model) as [[slashProvider slashModel]|];
    try (eexists; eexists; reflexivity);
    destruct (JS.includes "," model);
    try destruct (splitPair "," model) as [[commaProvider commaModel]|];
    try (eexists; eexists; reflexivity);
    destruct (assoc model claudeModelMappings) as [[tableProvider tableModel]|];
    eexists; eexists; reflexivity.
Qed.

(** The router on a bare model name with the default provider deepseek. *)
Lemma mapClaudeModel_total_with_default_provider_witness :
  exists providerId modelId : string,
    mapClaudeModel "some-model" (Some "deepseek") None
    = Some (Mapping providerId modelId).
Proof.
  apply (mapClaudeModel_total_with_default_provider "some-model" "deepseek" None).
  - discriminate.
  - reflexivity.
  - reflexivity.
Defined.

End RouterDefault.

(* ------------------------------------------------------------------ *)
(** ** Streams: a client that goes away, and the end marker *)

Section ClientGone.

Import Shared.

Context {St : Type} (body : St -> LLMAgentEvent -> St + Thrown).

Lemma forAwait_cut (stop : nat -> bool) (pre rest : list LLMAgentEvent)
    (failure : option Thrown) :
  forall (i : nat) (s : St),
    (forall j, j < List.length pre -> stop (i + j) = false) ->
    rest <> [] ->
    stop (i + List.length pre) = true ->
    forAwait stop body i s (pre ++ rest) failure = forAwait stop body i s pre None.
Proof.
  induction pre as [|event pre IH]; intros i s Hbefore Hrest Hat.
  - destruct rest as [|event rest]; [contradiction|].
    cbn [List.app forAwait]. cbn [List.length] in Hat.
    rewrite Nat.add_0_r in Hat. now rewrite Hat.
  - cbn [List.app forAwait].
    assert (Hnow : stop i = false).
    { rewrite <- (Nat.add_0_r i). apply Hbefore. cbn [List.length]. lia. }
    rewrite Hnow. destruct (body s event) as [s'|e]; [|reflexivity].
    apply IH; [|exact Hrest|].
    + intros j Hj. rewrite Nat.add_succ_comm. apply Hbefore. cbn [List.length]. lia.
    + cbn [List.length] in Hat. now rewrite Nat.add_succ_comm.
Qed.

End ClientGone.

Section StreamEnds.

Import Presenter.

(** X24.  When the client of a streaming request is found gone as event
    number i arrives, both streaming handlers do exactly what they do when
    the provider stream ends normally after its first i events: the events
    from i on are not encoded, a failure of the provider stream after that
    point is not seen, and the response is still closed in the usual way. *)
Theorem client_gone_stops_encoding (env : Environment) (requestModel : string)
    (providerId modelId : option string) (i : nat) :
  i < List.length (Shared.events (stream env)) ->
  destroyed env i = true ->
  (forall j, j < i -> destroyed env j = false) ->
  let cut := withStream env (streamOf (firstn i (Shared.events (stream env)))) in
  handleStreamingResponse env requestModel providerId modelId
  = handleStreamingResponse cut requestModel providerId modelId
  /\ handleOpenAIStreamingResponse env requestModel providerId modelId
     = handleOpenAIStreamingResponse cut requestModel providerId modelId.
Proof.
  intros Hi Hgone Hbefore cut.
  assert (Hlen : List.length (firstn i (Shared.events (stream env))) = i).
  { apply firstn_length_le. lia. }
  assert (Hrest : skipn i (Shared.events (stream env)) <> []).
  { intros Hnil.
    pose proof (length_skipn i (Shared.events (stream env))) as Hskip.
    rewrite Hnil in Hskip. cbn [List.length] in Hskip. lia. }
  assert (Hcut : forall (St : Type) (body : St -> Shared.LLMAgentEvent -> St + Shared.Thrown)
                        (s : St),
             Shared.forAwait (destroyed env) body 0 s
               (Shared.events (stream env)) (Shared.failure (stream env))
             = Shared.forAwait (destroyed env) body 0 s
                 (firstn i (Shared.events (stream env))) None).
  { intros St body s.
    rewrite <- (firstn_skipn i (Shared.events (stream env))) at 1.
    apply forAwait_cut; rewrite ?Hlen; cbn [Nat.add]; auto. }
  unfold handleStreamingResponse, handleOpenAIStreamingResponse.
  rewrite !Hcut. split; reflexivity.
Qed.

(** A client gone as the second event arrives, on a stream of three events
    that would have thrown at its end. *)
Lemma client_gone_stops_encoding_witness :
  let env :=
    {| providerKnown := fun _ => true;
       stream := {| Shared.events := [textEvent "a"; textEvent "b"; endEvent];
                    Shared.failure := Some (Shared.ErrorObject "socket closed") |};
       freshId := "id-1"; eventId := "event-1"; now := 1700000000%N;
       destroyed := fun i => (1 <=? i)%nat |} in
  handleStreamingResponse env "m" (Some "p") (Some "m")
  = handleStreamingResponse (withStream env (streamOf [textEvent "a"]))
      "m" (Some "p") (Some "m").
Proof.
  intros env.
  apply (client_gone_stops_encoding env "m" (Some "p") (Some "m") 1).
  - cbn. lia.
  - reflexivity.
  - intros j Hj. assert (j = 0) by lia. now subst.
Defined.

Lemma written_app (l1 l2 : list Action) :
  written (l1 ++ l2) = (written l1 ++ written l2)%list.
Proof. unfold written. apply flat_map_app. Qed.

(** X25.  Every streaming /v1/chat/completions response starts with the
    chunk that announces the assistant role and ends with the [DONE] marker,
    written last before the response is closed, also when the provider
    stream throws. *)
Theorem openai_stream_ends_with_done (env : Environment) (requestModel : string)
    (providerId modelId : option string) :
  exists middle : list string,
    written (handleOpenAIStreamingResponse env requestModel providerId modelId)
    = (OpenAIResponseBuilder.buildInitialChunk
         (OpenAIResponseBuilder.newBuilder (freshId env) requestModel (now env))
       :: middle ++ [OpenAIResponseBuilder.buildDone])%list.
Proof.
  unfold handleOpenAIStreamingResponse.
  destruct (Shared.forAwait (destroyed env) openAIStreamingBody 0 _
              (Shared.events (stream env)) (Shared.failure (stream env)))
    as [s [e|]]; cbn [List.app]; unfold written at 1; cbn [flat_map List.app];
    fold (written (ol_written s ++ [write OpenAIResponseBuilder.buildDone;
                                    end_response None]));
    rewrite ?written_app.
  - exists (written (ol_written s)). reflexivity.
  - eexists (written (ol_written s) ++ [_])%list.
    rewrite <- app_assoc. reflexivity.
Qed.

End StreamEnds.

Section SessionToolCalls.

Import LLMProviderPresenter.

Lemma lookup_replacedPrototype (st : LoopState) (id toolName accumulated : string) :
  lookup st id = replacedPrototype toolName accumulated ->
  JsMap.get id (toolCallChunks st) = None
  /\ (id =? "__proto__") = true
  /\ prototype st = Some (toolName, accumulated).
Proof.
  unfold lookup.
  destruct (JsMap.get id (toolCallChunks st)) as [[n a]|]; [discriminate|].
  destruct (id =? "__proto__").
  - destruct (prototype st) as [[n a]|]; [|discriminate].
    intros H. inversion H. repeat split.
  - intros H.
    repeat match type of H with
           | context [match ?x with _ => _ end] => destruct x
           end; discriminate H.
Qed.

Lemma lookup_setPrototype (st : LoopState) (id toolName accumulated : string) :
  JsMap.get id (toolCallChunks st) = None -> (id =? "__proto__") = true ->
  lookup (setPrototype st (toolName, accumulated)) id
  = replacedPrototype toolName accumulated.
Proof.
  intros Hown Hid. unfold lookup. cbn [setPrototype toolCallChunks prototype].
  now rewrite Hown, Hid.
Qed.

Lemma lookup_entry (st : LoopState) (id toolName accumulated : string) :
  lookup (setToolCallChunks st
            (JsMap.set id (toolName, accumulated) (toolCallChunks st))) id
  = entry toolName accumulated.
Proof.
  unfold lookup. cbn [setToolCallChunks toolCallChunks]. now rewrite get_set_same.
Qed.

Lemma sessionLoop_fragments (eventId id toolName : string)
    (failure : option Shared.Thrown) (fragments : list string) :
  Forall (fun fragment => fragment <> "") fragments ->
  id <> "" ->
  forall (read taken : nat) (st : LoopState) (accumulated : string),
    lookup st id = entry toolName accumulated
    \/ lookup st id = replacedPrototype toolName accumulated ->
    yielded (sessionLoop eventId None None read taken st
               (map (fun fragment => tool_call_chunk (Some id) (Some fragment))
                  fragments
                ++ [tool_call_end (Some id) None]) failure)
    = (map (toolCallData eventId "update" id toolName)
         (runningArguments accumulated fragments)
       ++ [toolCallData eventId "update" id toolName
             (fold_left append fragments accumulated)])%list.
Proof.
  intros Hfragments Hid.
  induction Hfragments as [|fragment fragments Hfragment _ IH];
    intros read taken st accumulated Hfound;
    cbn [map List.app sessionLoop aborted onChunk Presenter.present].
  - rewrite (truthy_nonempty id Hid).
    destruct Hfound as [Hfound | Hfound]; rewrite Hfound; reflexivity.
  - rewrite (truthy_nonempty id Hid), (truthy_nonempty fragment Hfragment).
    destruct Hfound as [Hfound | Hfound]; rewrite Hfound;
      cbn [yielded runningArguments map List.app fold_left]; f_equal; apply IH.
    + left. apply lookup_entry.
    + right. destruct (lookup_replacedPrototype _ _ _ _ Hfound) as (Hown & Hproto & _).
      now apply lookup_setPrototype.
Qed.

(** X26.  In a slash-command session that nobody cancels, a tool call that
    the provider starts, feeds with non-empty argument fragments and ends
    without complete arguments is handed out as one start event, one update
    event per fragment carrying all the arguments received so far, and a
    last update event carrying the concatenation of all the fragments,
    whatever the id of the call and the state of the realm. *)
Theorem session_tool_call_arguments (realm : Realm) (eventId id toolName : string)
    (fragments : list string) (failure : option Shared.Thrown) :
  id <> "" -> toolName <> "" ->
  Forall (fun fragment => fragment <> "") fragments ->
  yielded (sessionLoop eventId None None 0 0 (initialLoopState realm)
             (tool_call_start (Some id) (Some toolName)
              :: map (fun fragment => tool_call_chunk (Some id) (Some fragment))
                   fragments
              ++ [tool_call_end (Some id) None]) failure)
  = (toolCallData eventId "start" id toolName ""
     :: map (toolCallData eventId "update" id toolName)
          (runningArguments "" fragments)
     ++ [toolCallData eventId "update" id toolName
           (fold_left append fragments "")])%list.
Proof.
  intros Hid Hname Hfragments.
  cbn [sessionLoop aborted onChunk Presenter.present].
  rewrite (truthy_nonempty id Hid), (truthy_nonempty toolName Hname).
  cbn [yielded]. f_equal.
  apply sessionLoop_fragments; [exact Hfragments | exact Hid |].
  destruct (id =? "__proto__") eqn:Hproto.
  - right. now apply lookup_setPrototype.
  - left. apply lookup_entry.
Qed.

(** A tool call fed in two fragments under the id constructor. *)
Lemma session_tool_call_arguments_witness :
  yielded (sessionLoop "event-1" None None 0 0 (initialLoopState pristine)
             [tool_call_start (Some "constructor") (Some "lookup");
              tool_call_chunk (Some "constructor") (Some fragment1);
              tool_call_chunk (Some "constructor") (Some fragment2);
              tool_call_end (Some "constructor") None] None)
  = [toolCallData "event-1" "start" "constructor" "lookup" "";
     toolCallData "event-1" "update" "constructor" "lookup" fragment1;
     toolCallData "event-1" "update" "constructor" "lookup" (fragment1 ++ fragment2);
     toolCallData "event-1" "update" "constructor" "lookup" (fragment1 ++ fragment2)].
Proof.
  apply (session_tool_call_arguments pristine "event-1" "constructor" "lookup"
           [fragment1; fragment2] None).
  - discriminate.
  - discriminate.
  - repeat constructor; discriminate.
Defined.

End SessionToolCalls.
